(** * Continuum Node: wire codec, admission pipeline and session state machine

    A shallow embedding of the Python gateway [continuum-node]:

    - [app/core/protocol.py]        (module [Protocol])
    - [app/services/auth_manager.py] (module [Auth])
    - [app/services/model_router.py] (module [Router])
    - [app/core/server.py]          (module [TCPServer])
    - [app/bridge/http_server.py]   (module [HTTPBridge])

    Conventions of the embedding.

    - A Python [str] is a Rocq [string]; each [ascii] stands for one code
      point in U+0000..U+00FF.  A Python [bytes] is a [list ascii].
    - Python exceptions are values of [exn]; a call that may raise returns
      [result A].
    - [time.time()] is an explicit argument of type [Q].
    - The [json] standard library, the UTF-8 codec and the behaviour of a
      backend provider are interfaces ([JsonLib], [Backend]); the code is
      embedded over any implementation of them. *)

From Stdlib Require Import ZArith NArith QArith Qround Lqa Ascii String List Lia.
From stdpp Require Import base option list strings gmap pretty.

Set Default Proof Using "Type".
Set Warnings "-register-all".

(* ===================================================================== *)
(** ** Exceptions and fallible computations *)
(* ===================================================================== *)

Definition bytes := list ascii.

Inductive exn : Type :=
  | ValueError (msg : string)
  | ConnectionError (msg : string)
  | IncompleteReadError (partial : bytes) (expected : N)
  | UnicodeEncodeError
  | UnicodeDecodeError
  | StructError
  | AttributeError
  | TypeError
  | KeyError
  | ProviderFailure (msg : string).

Inductive result (A : Type) : Type :=
  | Ok (a : A)
  | Raise (e : exn).
Arguments Ok {A} a.
Arguments Raise {A} e.

(** Sequencing: the first exception raised aborts the rest, as in a
    Python block without a handler.  Written [x ← r; k]. *)
#[global] Instance result_bind : MBind result := λ A B k r,
  match r with
  | Ok a => k a
  | Raise e => Raise e
  end.

(** Code that raises while it reads or writes a connection: the state [S]
    (bytes still to read, frames already written) survives the exception,
    so that a handler continues from it. *)
Definition st (S A : Type) : Type := S → result A * S.

#[global] Instance st_bind {S} : MBind (st S) := λ A B k m s,
  match m s with
  | (Ok a, s') => k a s'
  | (Raise e, s') => (Raise e, s')
  end.

Definition ret {S A} (a : A) : st S A := λ s, (Ok a, s).
Definition raise {S A} (e : exn) : st S A := λ s, (Raise e, s).
Definition lift {S A} (r : result A) : st S A := λ s, (r, s).

(** [try: body except Exception as e: handler(e)] *)
Definition try_except {S A} (body : st S A) (handler : exn → st S A)
  : st S A := λ s,
  match body s with
  | (Raise e, s') => handler e s'
  | r => r
  end.

(** The two classes the TCP read loop has handlers for.
    [UnicodeEncodeError] and [UnicodeDecodeError] derive from [ValueError];
    [asyncio.IncompleteReadError] derives from [EOFError], not from
    [ConnectionError]. *)
Definition isinstance_ValueError (e : exn) : bool :=
  match e with
  | ValueError _ | UnicodeEncodeError | UnicodeDecodeError => true
  | _ => false
  end.

Definition isinstance_ConnectionError (e : exn) : bool :=
  match e with
  | ConnectionError _ => true
  | _ => false
  end.

(** [str(e)] for the exceptions whose text the server sends back. *)
Definition exn_str (e : exn) : string :=
  match e with
  | ValueError m | ConnectionError m | ProviderFailure m => m
  | IncompleteReadError p n =>
      pretty (N.of_nat (length p)) +:+ " bytes read on a total of "
        +:+ pretty n +:+ " expected bytes"
  | UnicodeEncodeError => "codec can't encode character"
  | UnicodeDecodeError => "codec can't decode byte"
  | StructError => "argument out of range"
  | AttributeError => "object has no attribute"
  | TypeError => "unsupported operand type"
  | KeyError => "key"
  end.

(* ===================================================================== *)
(** ** Python string operations used by the sources *)
(* ===================================================================== *)

Module PyStr.

Definition code (c : ascii) : N := N_of_ascii c.

(** [str.isspace] on one code point below U+0100. *)
Definition isspace (c : ascii) : bool :=
  let n := code c in
  ((9 <=? n) && (n <=? 13) || (28 <=? n) && (n <=? 32)
   || (n =? 133) || (n =? 160))%N.

Definition is_ascii_char (c : ascii) : bool := (code c <? 128)%N.

Fixpoint string_forall (p : ascii → bool) (s : string) : bool :=
  match s with
  | EmptyString => true
  | String c r => p c && string_forall p r
  end.

Definition isascii (s : string) : bool := string_forall is_ascii_char s.

Definition is_empty (s : string) : bool :=
  match s with EmptyString => true | _ => false end.

(** [s.rstrip()] *)
Fixpoint rstrip (s : string) : string :=
  match s with
  | EmptyString => EmptyString
  | String c r =>
      let r' := rstrip r in
      if is_empty r' && isspace c then EmptyString else String c r'
  end.

(** [s.lstrip()] *)
Fixpoint lstrip (s : string) : string :=
  match s with
  | EmptyString => EmptyString
  | String c r => if isspace c then lstrip r else s
  end.

(** [s.strip()] *)
Definition strip (s : string) : string := lstrip (rstrip s).

Fixpoint spaces (n : nat) : string :=
  match n with
  | O => EmptyString
  | S k => String " " (spaces k)
  end.

(** [s.ljust(width)] *)
Definition ljust (width : nat) (s : string) : string :=
  s +:+ spaces (width - String.length s).

(** [s[:n]] *)
Fixpoint slice_to (n : nat) (s : string) : string :=
  match n, s with
  | S k, String c r => String c (slice_to k r)
  | _, _ => EmptyString
  end.

(** [s[n:]] *)
Fixpoint slice_from (n : nat) (s : string) : string :=
  match n, s with
  | S k, String _ r => slice_from k r
  | _, _ => s
  end.

(** [s.startswith(p)] *)
Definition startswith (p s : string) : bool := String.prefix p s.

(** [needle in s] for strings. *)
Fixpoint contains (needle s : string) : bool :=
  String.prefix needle s ||
  match s with
  | EmptyString => false
  | String _ r => contains needle r
  end.

(** [s.split(sep)] for a one-character separator. *)
Fixpoint split (sep : ascii) (s : string) : list string :=
  match s with
  | EmptyString => [EmptyString]
  | String c r =>
      if Ascii.eqb c sep then EmptyString :: split sep r
      else match split sep r with
           | x :: xs => String c x :: xs
           | [] => [String c EmptyString]
           end
  end.

Definition lower_char (c : ascii) : ascii :=
  let n := code c in
  if ((65 <=? n) && (n <=? 90)
      || (192 <=? n) && (n <=? 222) && negb (n =? 215))%N
  then ascii_of_N (n + 32) else c.

(** [s.lower()] *)
Fixpoint lower (s : string) : string :=
  match s with
  | EmptyString => EmptyString
  | String c r => String (lower_char c) (lower r)
  end.

Definition is_digit (c : ascii) : bool :=
  ((48 <=? code c) && (code c <=? 57))%N.

Definition digit_val (c : ascii) : Z := Z.of_N (code c) - 48.

(** Digits of a decimal literal, single underscores allowed between
    digits. [prev] tells whether the previous character was a digit. *)
Fixpoint digits (acc : Z) (prev : bool) (s : string) : option Z :=
  match s with
  | EmptyString => if prev then Some acc else None
  | String c r =>
      if is_digit c then digits (10 * acc + digit_val c) true r
      else if Ascii.eqb c "_" && prev then digits acc false r
      else None
  end.

(** [int(s)]: [None] stands for the [ValueError] it raises. *)
Definition int (s : string) : option Z :=
  match strip s with
  | String "-" r => Z.opp <$> digits 0 false r
  | String "+" r => digits 0 false r
  | t => digits 0 false t
  end.

End PyStr.

(* ===================================================================== *)
(** ** Python dictionaries with string keys

    A [dict] keeps its keys in insertion order; assigning to a key that is
    already present replaces the value and keeps the key's position. *)
(* ===================================================================== *)

Module PyDict.

Definition t (A : Type) : Type := list (string * A).

(** [d.get(k)] *)
Fixpoint get {A} (k : string) (d : t A) : option A :=
  match d with
  | [] => None
  | (k', v) :: r => if String.eqb k k' then Some v else get k r
  end.

(** [d[k] = v] *)
Fixpoint set {A} (k : string) (v : A) (d : t A) : t A :=
  match d with
  | [] => [(k, v)]
  | (k', v') :: r =>
      if String.eqb k k' then (k, v) :: r else (k', v') :: set k v r
  end.

(** [list(d.keys())] *)
Definition keys {A} (d : t A) : list string := fst <$> d.

(** [k in d] *)
Definition mem {A} (k : string) (d : t A) : bool :=
  match get k d with Some _ => true | None => false end.

End PyDict.

(* ===================================================================== *)
(** ** JSON values, as Python objects *)
(* ===================================================================== *)

Inductive json : Type :=
  | JNull
  | JBool (b : bool)
  | JNum (z : Z)
  | JStr (s : string)
  | JArr (items : list json)
  | JObj (fields : list (string * json)).

Module Json.

(** Truth value of a Python object ([if x:], [not x]). *)
Definition truthy (v : json) : bool :=
  match v with
  | JNull => false
  | JBool b => b
  | JNum z => negb (z =? 0)%Z
  | JStr s => negb (PyStr.is_empty s)
  | JArr l => match l with [] => false | _ => true end
  | JObj l => match l with [] => false | _ => true end
  end.

(** [payload.get(key)]; only a [dict] has the method. *)
Definition get (payload : json) (key : string) : result json :=
  match payload with
  | JObj fs => Ok (default JNull (PyDict.get key fs))
  | _ => Raise AttributeError
  end.

(** [payload.get(key, dflt)] *)
Definition get_default (payload : json) (key : string) (dflt : json)
  : result json :=
  match payload with
  | JObj fs => Ok (default dflt (PyDict.get key fs))
  | _ => Raise AttributeError
  end.

Definition is_str (s : string) (v : json) : bool :=
  match v with JStr t => String.eqb s t | _ => false end.

(** [key in payload], with [key] a string. *)
Definition contains (key : string) (payload : json) : result bool :=
  match payload with
  | JObj fs => Ok (PyDict.mem key fs)
  | JArr l => Ok (existsb (is_str key) l)
  | JStr s => Ok (PyStr.contains key s)
  | _ => Raise TypeError
  end.

(** [payload[key]], with [key] a string. *)
Definition getitem (payload : json) (key : string) : result json :=
  match payload with
  | JObj fs => match PyDict.get key fs with
               | Some v => Ok v
               | None => Raise KeyError
               end
  | _ => Raise TypeError
  end.

(** [settings[key] = v] *)
Definition setitem (d : json) (key : string) (v : json) : result json :=
  match d with
  | JObj fs => Ok (JObj (PyDict.set key v fs))
  | _ => Raise TypeError
  end.

End Json.

(** The library functions the sources call on decoded values: the [json]
    module, the UTF-8 codec, and [repr] of a list or dict (for f-strings).
    A failure carries the text of the exception. *)
Class JsonLib : Type := {
  json_dumps : json → string;
  json_loads : string → string + json;
  utf8_encode : string → bytes;
  utf8_decode : bytes → string + string;
  py_repr : json → string;
}.

(** [str(v)], as an f-string formats a decoded value. *)
Definition py_str `{JsonLib} (v : json) : string :=
  match v with
  | JStr s => s
  | JNum z => pretty z
  | JBool true => "True"
  | JBool false => "False"
  | JNull => "None"
  | _ => py_repr v
  end.

(* ===================================================================== *)
(** ** [app/services/auth_manager.py] *)
(* ===================================================================== *)

Module Auth.

Record User : Type := {
  token : string;
  name : string;
  permissions : list string;
  rate_limit : string;
}.

(** [rate_limit_tracker] is a [defaultdict(list)]: a token without an
    entry reads as the empty list. *)
Record AuthManager : Type := {
  users : gmap string User;
  rate_limit_tracker : gmap string (list Q);
}.

Definition tracker_get (am : AuthManager) (tok : string) : list Q :=
  default [] (rate_limit_tracker am !! tok).

Definition tracker_set (am : AuthManager) (tok : string) (w : list Q)
  : AuthManager :=
  {| users := users am;
     rate_limit_tracker := <[tok := w]> (rate_limit_tracker am) |}.

(** [authenticate(token)] for a [str] token: [self.users.get(token)]. *)
Definition authenticate (am : AuthManager) (tok : string) : option User :=
  users am !! tok.

(** [authenticate(token)] when [token] is an arbitrary decoded JSON
    value (TCP and WebSocket payloads): [dict.get] raises [TypeError] on
    an unhashable key, and the keys of [users] are all strings. *)
Definition authenticate_dyn (am : AuthManager) (tok : json)
  : result (option User) :=
  match tok with
  | JStr s => Ok (authenticate am s)
  | JArr _ | JObj _ => Raise TypeError
  | _ => Ok None
  end.

(** [model_id in user.permissions], the model being any JSON value. *)
Definition has_permission (u : User) (model_id : json) : bool :=
  match model_id with
  | JStr m => bool_decide (m ∈ permissions u)
  | _ => false
  end.

Definition is_authorized (am : AuthManager) (tok : string) (model_id : json)
  : bool :=
  match authenticate am tok with
  | None => false
  | Some user => has_permission user model_id
  end.

Definition get_user_info (am : AuthManager) (tok : string) : option json :=
  match authenticate am tok with
  | None => None
  | Some user =>
      Some (JObj [("name", JStr (name user));
                  ("permissions", JArr (JStr <$> permissions user));
                  ("rate_limit", JStr (rate_limit user))])
  end.

Definition time_multipliers : list (string * Z) :=
  [("second", 1); ("minute", 60); ("hour", 3600); ("day", 86400)]%Z.

(** The [try] body raises [ValueError] when the split does not give
    exactly two parts or when [int] rejects the first one; the handler
    returns [(10, 60)]. *)
Definition _parse_rate_limit (rate_limit_str : string) : Z * Z :=
  match PyStr.split "/" rate_limit_str with
  | [limit_str; time_unit] =>
      match PyStr.int limit_str with
      | Some limit =>
          let seconds := default 60%Z (PyDict.get time_unit time_multipliers) in
          (limit, seconds)
      | None => (10, 60)%Z
      end
  | _ => (10, 60)%Z
  end.

(** [a < b] on timestamps *)
Definition Qltb (a b : Q) : bool := negb (Qle_bool b a).

(** [check_rate_limit(token)], with [time.time()] passed as [now]. *)
Definition check_rate_limit (am : AuthManager) (now : Q) (tok : string)
  : bool * AuthManager :=
  match authenticate am tok with
  | None => (false, am)
  | Some user =>
      let current_time := now in
      let '(limit, period_seconds) := _parse_rate_limit (rate_limit user) in
      let cutoff_time := (current_time - inject_Z period_seconds)%Q in
      let kept :=
        List.filter (λ timestamp, Qltb cutoff_time timestamp)
                    (tracker_get am tok) in
      let am1 := tracker_set am tok kept in
      if (limit <=? Z.of_nat (length (tracker_get am1 tok)))%Z
      then (false, am1)
      else (true, tracker_set am1 tok (tracker_get am1 tok ++ [current_time]))
  end.

(** The manager after a sequence of calls, each with its clock
    reading. *)
Definition after_calls (am : AuthManager) (calls : list (Q * string))
  : AuthManager :=
  fold_left (λ am call, snd (check_rate_limit am (fst call) (snd call)))
            calls am.

End Auth.

(* ===================================================================== *)
(** ** [app/core/protocol.py] *)
(* ===================================================================== *)

Module Protocol.

(** *** The stream reader

    [asyncio.StreamReader.readexactly(n)] returns exactly [n] bytes, or
    raises [IncompleteReadError(partial, expected)] when the end of the
    stream comes first.  The reader is the sequence of bytes the peer
    sends before closing its side. *)
Abbreviation io := (st bytes).

Definition readexactly (n : N) : io bytes := λ reader,
  if (n <=? N.of_nat (length reader))%N
  then (Ok (take (N.to_nat n) reader), drop (N.to_nat n) reader)
  else (Raise (IncompleteReadError reader n), []).

(** *** [struct] and the ASCII codec *)

Definition byte_val (b : ascii) : N := N_of_ascii b.

(** [struct.pack('>I', n)] *)
Definition struct_pack_I (n : N) : result bytes :=
  if (n <? 2 ^ 32)%N
  then Ok [ascii_of_N (n / 2 ^ 24); ascii_of_N (n / 2 ^ 16 mod 256);
           ascii_of_N (n / 2 ^ 8 mod 256); ascii_of_N (n mod 256)]%N
  else Raise StructError.

(** [struct.unpack('>I', b)[0]] *)
Definition struct_unpack_I (b : bytes) : result N :=
  match b with
  | [b0; b1; b2; b3] =>
      Ok (byte_val b0 * 2 ^ 24 + byte_val b1 * 2 ^ 16
          + byte_val b2 * 2 ^ 8 + byte_val b3)%N
  | _ => Raise StructError
  end.

(** [s.encode('ascii')] *)
Definition encode_ascii (s : string) : result bytes :=
  if PyStr.isascii s then Ok (list_ascii_of_string s)
  else Raise UnicodeEncodeError.

(** [b.decode('ascii')] *)
Definition decode_ascii (b : bytes) : result string :=
  if forallb PyStr.is_ascii_char b then Ok (string_of_list_ascii b)
  else Raise UnicodeDecodeError.

Definition MAX_PAYLOAD : N := 10 * 1024 * 1024.

Section WithJson.
Context `{JsonLib}.

Definition pack_message (msg_type : string) (payload : json)
  : result bytes :=
  if (4 <? String.length msg_type)%nat
  then Raise (ValueError ("Message type '" +:+ msg_type
                           +:+ "' exceeds 4 characters"))
  else
    let padded_type := PyStr.slice_to 4 (PyStr.ljust 4 msg_type) in
    let payload_json := json_dumps payload in
    let payload_bytes := utf8_encode payload_json in
    let payload_length := N.of_nat (length payload_bytes) in
    type_bytes ← encode_ascii padded_type;
    length_bytes ← struct_pack_I payload_length;
    Ok (type_bytes ++ length_bytes ++ payload_bytes).

(** The [try] around decoding: [UnicodeDecodeError] and
    [JSONDecodeError] become one [ValueError]. *)
Definition decode_payload (payload_bytes : bytes) : result json :=
  match utf8_decode payload_bytes with
  | inl e => Raise (ValueError ("Invalid payload format: " +:+ e))
  | inr payload_json =>
      match json_loads payload_json with
      | inl e => Raise (ValueError ("Invalid payload format: " +:+ e))
      | inr payload => Ok payload
      end
  end.

Definition unpack_message_from_stream : io (string * json) :=
  type_bytes ← readexactly 4;
  if negb (length type_bytes =? 4)%nat
  then raise (ConnectionError
                "Connection closed while reading message type")
  else
  type_str ← lift (decode_ascii type_bytes);
  let msg_type := PyStr.rstrip type_str in
  length_bytes ← readexactly 4;
  if negb (length length_bytes =? 4)%nat
  then raise (ConnectionError
                "Connection closed while reading message length")
  else
  payload_length ← lift (struct_unpack_I length_bytes);
  if (MAX_PAYLOAD <? payload_length)%N
  then raise (ValueError ("Payload too large: " +:+ pretty payload_length
                           +:+ " bytes"))
  else
  if (0 <? payload_length)%N
  then
    payload_bytes ← readexactly payload_length;
    if negb (N.of_nat (length payload_bytes) =? payload_length)%N
    then raise (ConnectionError
                  "Connection closed while reading payload")
    else
    payload ← lift (decode_payload payload_bytes);
    ret (msg_type, payload)
  else ret (msg_type, JObj []).

Definition create_auth_request (tok : string) : result bytes :=
  pack_message "AUTH" (JObj [("token", JStr tok)]).

Definition create_auth_response (success : bool) (message : string)
    (user_info : option json) : result bytes :=
  let payload := [("success", JBool success); ("message", JStr message)] in
  let payload :=
    match user_info with
    | Some info =>
        if Json.truthy info then payload ++ [("user", info)] else payload
    | None => payload
    end in
  pack_message "ARSP" (JObj payload).

Definition create_completion_request (model : string) (messages : json)
    (settings : option json) : result bytes :=
  let payload := [("model", JStr model); ("messages", messages)] in
  let payload :=
    match settings with
    | Some st =>
        if Json.truthy st then payload ++ [("settings", st)] else payload
    | None => payload
    end in
  pack_message "COMP" (JObj payload).

Definition create_completion_chunk (content : string) (is_final : bool)
  : result bytes :=
  pack_message "CHNK"
    (JObj [("content", JStr content); ("final", JBool is_final)]).

Definition create_error_response (error_code error_message : string)
  : result bytes :=
  pack_message "ERRO"
    (JObj [("code", JStr error_code); ("message", JStr error_message)]).

End WithJson.

End Protocol.

(* ===================================================================== *)
(** ** A reference implementation of [JsonLib]

    An executable [json.dumps(..., ensure_ascii=False)] / [json.loads] and
    UTF-8 codec on the values of [json] (numbers are integers, code points
    are below U+0100).  The embedded code never depends on it; it serves
    to run the embedding on concrete frames. *)
(* ===================================================================== *)

Module RefJson.

Definition dquote : ascii := "034"%char.
Definition backslash : ascii := "092"%char.

Definition hex_digit (n : N) : ascii :=
  if (n <? 10)%N then ascii_of_N (48 + n) else ascii_of_N (87 + n).

Definition escape_char (c : ascii) : string :=
  let n := N_of_ascii c in
  if (n =? 34)%N then String backslash (String dquote EmptyString)
  else if (n =? 92)%N then String backslash (String backslash EmptyString)
  else if (n =? 10)%N then String backslash "n"
  else if (n =? 13)%N then String backslash "r"
  else if (n =? 9)%N then String backslash "t"
  else if (n =? 8)%N then String backslash "b"
  else if (n =? 12)%N then String backslash "f"
  else if (n <? 32)%N
       then String backslash
              ("u00" +:+ String (hex_digit (n / 16))
                                (String (hex_digit (n mod 16)) EmptyString))
  else String c EmptyString.

Fixpoint escape (s : string) : string :=
  match s with
  | EmptyString => EmptyString
  | String c r => escape_char c +:+ escape r
  end.

Definition quote (s : string) : string :=
  String dquote (escape s +:+ String dquote EmptyString).

Fixpoint join (sep : string) (l : list string) : string :=
  match l with
  | [] => EmptyString
  | [x] => x
  | x :: r => x +:+ sep +:+ join sep r
  end.

Fixpoint dumps (v : json) : string :=
  match v with
  | JNull => "null"
  | JBool true => "true"
  | JBool false => "false"
  | JNum z => pretty z
  | JStr s => quote s
  | JArr l => "[" +:+ join ", " (List.map dumps l) +:+ "]"
  | JObj fs =>
      "{" +:+ join ", " (List.map (λ kv, quote (fst kv) +:+ ": "
                                          +:+ dumps (snd kv)) fs) +:+ "}"
  end.

Definition is_ws (c : ascii) : bool :=
  let n := N_of_ascii c in
  ((n =? 32) || (n =? 9) || (n =? 10) || (n =? 13))%N.

Fixpoint skip_ws (s : string) : string :=
  match s with
  | String c r => if is_ws c then skip_ws r else s
  | EmptyString => EmptyString
  end.

Definition hex_val (c : ascii) : option N :=
  let n := N_of_ascii c in
  if ((48 <=? n) && (n <=? 57))%N then Some (n - 48)%N
  else if ((97 <=? n) && (n <=? 102))%N then Some (n - 87)%N
  else if ((65 <=? n) && (n <=? 70))%N then Some (n - 55)%N
  else None.

Definition unescape (e : ascii) : option ascii :=
  let n := N_of_ascii e in
  if (n =? 34)%N then Some dquote
  else if (n =? 92)%N then Some backslash
  else if (n =? 47)%N then Some "/"%char
  else if (n =? 110)%N then Some "010"%char
  else if (n =? 114)%N then Some "013"%char
  else if (n =? 116)%N then Some "009"%char
  else if (n =? 98)%N then Some "008"%char
  else if (n =? 102)%N then Some "012"%char
  else None.

(** The rest of a string literal, after its opening quote. *)
Fixpoint parse_string (s : string) : option (string * string) :=
  match s with
  | EmptyString => None
  | String c r =>
      if Ascii.eqb c dquote then Some (EmptyString, r)
      else if Ascii.eqb c backslash then
        match r with
        | String "u" (String h1 (String h2 (String h3 (String h4 r')))) =>
            a ← hex_val h1; b ← hex_val h2; c' ← hex_val h3; d ← hex_val h4;
            let n := (((a * 16 + b) * 16 + c') * 16 + d)%N in
            if (n <? 256)%N
            then '(t, rest) ← parse_string r';
                 Some (String (ascii_of_N n) t, rest)
            else None
        | String e r' =>
            x ← unescape e;
            '(t, rest) ← parse_string r';
            Some (String x t, rest)
        | EmptyString => None
        end
      else if (N_of_ascii c <? 32)%N then None
      else '(t, rest) ← parse_string r; Some (String c t, rest)
  end.

Fixpoint take_digits (s : string) : string * string :=
  match s with
  | String c r =>
      if PyStr.is_digit c
      then let '(d, rest) := take_digits r in (String c d, rest)
      else (EmptyString, s)
  | EmptyString => (EmptyString, EmptyString)
  end.

Fixpoint digits_val (acc : Z) (s : string) : Z :=
  match s with
  | String c r => digits_val (10 * acc + PyStr.digit_val c) r
  | EmptyString => acc
  end.

Definition is_fraction_start (s : string) : bool :=
  match s with
  | String c _ => Ascii.eqb c "." || Ascii.eqb c "e" || Ascii.eqb c "E"
  | EmptyString => false
  end.

(** An integer literal; a fraction or an exponent is outside [json]. *)
Definition parse_number (s : string) : option (json * string) :=
  let '(neg, body) :=
    match s with
    | String "-" r => (true, r)
    | _ => (false, s)
    end in
  let '(ds, rest) := take_digits body in
  match ds with
  | EmptyString => None
  | String "0" (String _ _) => None
  | _ =>
      if is_fraction_start rest then None
      else let z := digits_val 0 ds in
           Some (JNum (if neg then (- z)%Z else z), rest)
  end.

Fixpoint parse_value (fuel : nat) (s : string) : option (json * string) :=
  match fuel with
  | O => None
  | S f =>
      match skip_ws s with
      | String "n" (String "u" (String "l" (String "l" r))) =>
          Some (JNull, r)
      | String "t" (String "r" (String "u" (String "e" r))) =>
          Some (JBool true, r)
      | String "f" (String "a" (String "l" (String "s" (String "e" r)))) =>
          Some (JBool false, r)
      | String "[" r =>
          match skip_ws r with
          | String "]" r' => Some (JArr [], r')
          | _ => parse_items f r []
          end
      | String "{" r =>
          match skip_ws r with
          | String "}" r' => Some (JObj [], r')
          | _ => parse_members f r []
          end
      | String c r as t =>
          if Ascii.eqb c dquote
          then '(str, rest) ← parse_string r; Some (JStr str, rest)
          else parse_number t
      | EmptyString => None
      end
  end
with parse_items (fuel : nat) (s : string) (acc : list json)
  : option (json * string) :=
  match fuel with
  | O => None
  | S f =>
      '(v, r) ← parse_value f s;
      match skip_ws r with
      | String "," r' => parse_items f r' (acc ++ [v])
      | String "]" r' => Some (JArr (acc ++ [v]), r')
      | _ => None
      end
  end
with parse_members (fuel : nat) (s : string) (acc : list (string * json))
  : option (json * string) :=
  match fuel with
  | O => None
  | S f =>
      match skip_ws s with
      | String c r =>
          if Ascii.eqb c dquote then
            '(k, r1) ← parse_string r;
            match skip_ws r1 with
            | String ":" r2 =>
                '(v, r3) ← parse_value f r2;
                match skip_ws r3 with
                | String "," r4 => parse_members f r4 (PyDict.set k v acc)
                | String "}" r4 => Some (JObj (PyDict.set k v acc), r4)
                | _ => None
                end
            | _ => None
            end
          else None
      | EmptyString => None
      end
  end.

Definition loads (s : string) : string + json :=
  match parse_value (2 * String.length s + 2) s with
  | Some (v, rest) =>
      if PyStr.is_empty (skip_ws rest) then inr v else inl "Extra data"
  | None => inl "Expecting value"
  end.

Fixpoint encode_utf8 (s : string) : bytes :=
  match s with
  | EmptyString => []
  | String c r =>
      let n := N_of_ascii c in
      if (n <? 128)%N then c :: encode_utf8 r
      else ascii_of_N (192 + n / 64) :: ascii_of_N (128 + n mod 64)
             :: encode_utf8 r
  end.

Fixpoint decode_utf8 (b : bytes) : string + string :=
  match b with
  | [] => inr EmptyString
  | c :: r =>
      let n := N_of_ascii c in
      if (n <? 128)%N then
        match decode_utf8 r with
        | inr t => inr (String c t)
        | inl e => inl e
        end
      else
        match r with
        | c2 :: r' =>
            let m := N_of_ascii c2 in
            if ((194 <=? n) && (n <=? 195) && (128 <=? m) && (m <? 192))%N
            then match decode_utf8 r' with
                 | inr t => inr (String (ascii_of_N ((n - 192) * 64 + (m - 128))) t)
                 | inl e => inl e
                 end
            else inl "invalid start byte"
        | [] => inl "unexpected end of data"
        end
  end.

Definition squote (s : string) : string := "'" +:+ s +:+ "'".

(** [repr] of a list or dict whose strings need no escaping. *)
Fixpoint repr (v : json) : string :=
  match v with
  | JNull => "None"
  | JBool true => "True"
  | JBool false => "False"
  | JNum z => pretty z
  | JStr s => squote s
  | JArr l => "[" +:+ join ", " (List.map repr l) +:+ "]"
  | JObj fs =>
      "{" +:+ join ", " (List.map (λ kv, squote (fst kv) +:+ ": "
                                          +:+ repr (snd kv)) fs) +:+ "}"
  end.

Definition lib : JsonLib := {|
  json_dumps := dumps;
  json_loads := loads;
  utf8_encode := encode_utf8;
  utf8_decode := decode_utf8;
  py_repr := repr;
|}.

End RefJson.

(* ===================================================================== *)
(** ** [app/services/model_router.py] *)
(* ===================================================================== *)

Module Router.

(** The two environment variables the provider constructors read. *)
Record Env : Type := {
  OPENAI_API_KEY : option string;
  OLLAMA_BASE_URL : option string;
}.

(** Provider instances, with the fields their constructors set. *)
Inductive BaseProvider : Type :=
  | OllamaProvider (base_url : string)
  | OpenAIProvider (api_key : option string) (base_url : string).

(** One entry of the [models] section: the raw configuration. *)
Record ModelConfig : Type := {
  id : string;
  provider : string;
  extra : list (string * json);
}.

Record ModelRouter : Type := {
  model_providers : PyDict.t BaseProvider;
  model_configs : PyDict.t ModelConfig;
}.

(** [ModelRouter()] *)
Definition init : ModelRouter :=
  {| model_providers := []; model_configs := [] |}.

(** [OllamaProvider()] *)
Definition new_OllamaProvider (env : Env) : BaseProvider :=
  OllamaProvider (default "http://localhost:11434" (OLLAMA_BASE_URL env)).

(** [OpenAIProvider()]: an unset or empty key is stored as [None]. *)
Definition new_OpenAIProvider (env : Env) : BaseProvider :=
  let api_key :=
    match OPENAI_API_KEY env with
    | Some k => if PyStr.is_empty k then None else Some k
    | None => None
    end in
  OpenAIProvider api_key "https://api.openai.com/v1".

Definition _create_provider (env : Env) (provider_type : string)
  : option BaseProvider :=
  if String.eqb (PyStr.lower provider_type) "ollama"
  then Some (new_OllamaProvider env)
  else if String.eqb (PyStr.lower provider_type) "openai"
  then match new_OpenAIProvider env with
       | OpenAIProvider None _ => None
       | p => Some p
       end
  else None.

(** The body of the loop over [config['models']]. *)
Definition load_model (env : Env) (r : ModelRouter)
    (model_config : ModelConfig) : ModelRouter :=
  let model_id := id model_config in
  let provider_type := provider model_config in
  let configs := PyDict.set model_id model_config (model_configs r) in
  match _create_provider env provider_type with
  | Some provider_instance =>
      {| model_providers :=
           PyDict.set model_id provider_instance (model_providers r);
         model_configs := configs |}
  | None =>
      {| model_providers := model_providers r; model_configs := configs |}
  end.

(** [load_models], from the parsed [models] section. *)
Definition load_models (env : Env) (r : ModelRouter)
    (models : list ModelConfig) : ModelRouter :=
  fold_left (load_model env) models r.

Definition get_provider_for_model (r : ModelRouter) (model_id : string)
  : option BaseProvider :=
  PyDict.get model_id (model_providers r).

(** [get_provider_for_model] on a decoded JSON value: an unhashable key
    raises [TypeError], a key that is not a string is never found. *)
Definition get_provider_for_model_dyn (r : ModelRouter) (model_id : json)
  : result (option BaseProvider) :=
  match model_id with
  | JStr m => Ok (get_provider_for_model r m)
  | JArr _ | JObj _ => Raise TypeError
  | _ => Ok None
  end.

Definition get_available_models (r : ModelRouter) : list string :=
  PyDict.keys (model_providers r).

Definition get_model_config (r : ModelRouter) (model_id : string)
  : option ModelConfig :=
  PyDict.get model_id (model_configs r).

Definition is_model_available (r : ModelRouter) (model_id : string) : bool :=
  PyDict.mem model_id (model_providers r).

End Router.

(* ===================================================================== *)
(** ** The provider contract ([app/providers/base_provider.py])

    [provider.stream_completion(messages, settings)] is an asynchronous
    generator: it yields finitely many text fragments and then either
    finishes or raises.  What a given provider yields is decided by the
    remote service; it is a parameter of the embedding. *)
(* ===================================================================== *)

Record Completion : Type := {
  fragments : list string;
  failure : option exn;
}.

Class Backend : Type := {
  stream_completion : Router.BaseProvider → json → json → Completion;
}.

(* ===================================================================== *)
(** ** [app/core/server.py] *)
(* ===================================================================== *)

Module TCPServer.

(** The writer of a connection: the frames written so far, oldest
    first.  Writing is assumed not to fail. *)
Abbreviation writer_io := (st (list bytes)).

(** [writer.write(frame); await writer.drain()], the frame being the
    value of a [ContinuumProtocol.create_...] call that may raise. *)
Definition write (frame : result bytes) : writer_io unit := λ w,
  match frame with
  | Ok b => (Ok (), w ++ [b])
  | Raise e => (Raise e, w)
  end.

(** One connection: what the client has still to send, what the server
    has written, and the local variable [authenticated_user]. *)
Record Session : Type := {
  reader : bytes;
  writer : list bytes;
  authenticated_user : option Auth.User;
}.

(** How one turn of the [while True] loop ends: the loop goes on, the
    loop is left by [break], or an exception reaches the outer handler.
    In the last two cases the [finally] block closes the connection. *)
Inductive turn : Type :=
  | Continue (s : Session)
  | Break (s : Session)
  | Fault (e : exn) (s : Session).

Section WithServices.
Context `{JsonLib} `{Backend}.
Variable auth_manager : Auth.AuthManager.
Variable model_router : Router.ModelRouter.

Definition _handle_auth (payload : json) : writer_io unit :=
  try_except
    (tok ← lift (Json.get payload "token");
     if negb (Json.truthy tok)
     then write (Protocol.create_auth_response false
                   "Missing token in authentication request" None)
     else
       user ← lift (Auth.authenticate_dyn auth_manager tok);
       let response :=
         match user, tok with
         | Some _, JStr t =>
             let user_info := Auth.get_user_info auth_manager t in
             Protocol.create_auth_response true
               "Authentication successful" user_info
         | _, _ =>
             Protocol.create_auth_response false
               "Invalid authentication token" None
         end in
       write response)
    (λ e, write (Protocol.create_error_response "AUTH_ERROR"
                   "Internal authentication error")).

(** The [async for] over the provider's fragments: every non-empty
    fragment is written as a [CHNK] frame; the provider's failure, if
    any, is raised after its last fragment. *)
Fixpoint relay_chunks (chunks : list string) (failure : option exn)
  : writer_io unit :=
  match chunks with
  | [] => match failure with
          | Some e => raise e
          | None => ret ()
          end
  | chunk :: rest =>
      if negb (PyStr.is_empty chunk)
      then _ ← write (Protocol.create_completion_chunk chunk false);
           relay_chunks rest failure
      else relay_chunks rest failure
  end.

Definition _handle_completion (payload : json) (user : Auth.User)
  : writer_io unit :=
  try_except
    (model ← lift (Json.get payload "model");
     messages ← lift (Json.get_default payload "messages" (JArr []));
     settings ← lift (Json.get_default payload "settings" (JObj []));
     if negb (Json.truthy model)
     then write (Protocol.create_error_response "MISSING_MODEL"
                   "Model field is required")
     else if negb (Auth.is_authorized auth_manager (Auth.token user) model)
     then write (Protocol.create_error_response "UNAUTHORIZED_MODEL"
                   ("User not authorized to use model: " +:+ py_str model))
     else
       provider ← lift (Router.get_provider_for_model_dyn model_router model);
       match provider with
       | None =>
           write (Protocol.create_error_response "MODEL_NOT_FOUND"
                    ("Model not found: " +:+ py_str model))
       | Some provider =>
           settings ← lift (Json.setitem settings "model" model);
           try_except
             (let c := stream_completion provider messages settings in
              _ ← relay_chunks (fragments c) (failure c);
              write (Protocol.create_completion_chunk "" true))
             (λ e, write (Protocol.create_error_response "GENERATION_ERROR"
                            ("Error generating completion: " +:+ exn_str e)))
       end)
    (λ e, write (Protocol.create_error_response "INTERNAL_ERROR"
                   "Internal server error")).

(** A handler's effect on the session's writer. *)
Definition with_writer (s : Session) (rd : bytes) (m : writer_io unit)
    (k : Session → turn) : turn :=
  match m (writer s) with
  | (Ok _, w) =>
      k {| reader := rd; writer := w;
           authenticated_user := authenticated_user s |}
  | (Raise e, w) =>
      Fault e {| reader := rd; writer := w;
                 authenticated_user := authenticated_user s |}
  end.

Definition set_user (u : option Auth.User) (s : Session) : Session :=
  {| reader := reader s; writer := writer s; authenticated_user := u |}.

(** The body of the [while True] loop of [_handle_client]. *)
Definition handle_frame (s : Session) : turn :=
  match Protocol.unpack_message_from_stream (reader s) with
  | (Raise e, rd) =>
      if isinstance_ConnectionError e
      then Break {| reader := rd; writer := writer s;
                    authenticated_user := authenticated_user s |}
      else if isinstance_ValueError e
      then with_writer s rd
             (write (Protocol.create_error_response "INVALID_FORMAT"
                       (exn_str e)))
             Continue
      else Fault e {| reader := rd; writer := writer s;
                      authenticated_user := authenticated_user s |}
  | (Ok (msg_type, payload), rd) =>
      if String.eqb msg_type "AUTH" then
        with_writer s rd (_handle_auth payload) (λ s1,
          match Json.contains "token" payload with
          | Raise e => Fault e s1
          | Ok false => Continue s1
          | Ok true =>
              match (tok ← Json.getitem payload "token";
                     Auth.authenticate_dyn auth_manager tok) with
              | Ok u => Continue (set_user u s1)
              | Raise e => Fault e s1
              end
          end)
      else if String.eqb msg_type "COMP" then
        match authenticated_user s with
        | None =>
            with_writer s rd
              (write (Protocol.create_error_response "NOT_AUTHENTICATED"
                 "Must authenticate before making completion requests"))
              Continue
        | Some user =>
            with_writer s rd (_handle_completion payload user) Continue
        end
      else
        with_writer s rd
          (write (Protocol.create_error_response "UNKNOWN_MESSAGE_TYPE"
                    ("Unknown message type: " +:+ msg_type)))
          Continue
  end.

(** The loop, bounded by the number of turns. *)
Fixpoint run (turns : nat) (s : Session) : option turn :=
  match turns with
  | O => None
  | S n =>
      match handle_frame s with
      | Continue s' => run n s'
      | t => Some t
      end
  end.

(** [_handle_client(reader, writer)]: every turn that continues has
    consumed at least four bytes, so [length input + 1] turns are
    enough (lemma [run_terminates]). *)
Definition _handle_client (input : bytes) : option turn :=
  run (S (length input))
      {| reader := input; writer := []; authenticated_user := None |}.

End WithServices.

End TCPServer.

(* ===================================================================== *)
(** ** [app/bridge/models.py] and [app/bridge/http_server.py] *)
(* ===================================================================== *)

Module HTTPBridge.

Record ChatMessage : Type := {
  role : string;
  content : string;
}.

(** The optional sampling settings are kept as decoded JSON values. *)
Record ChatCompletionRequest : Type := {
  model : string;
  messages : list ChatMessage;
  stream : option bool;
  temperature : option json;
  max_tokens : option json;
  top_p : option json;
  frequency_penalty : option json;
  presence_penalty : option json;
  stop : option json;
}.

Record ChatCompletionChoice : Type := {
  choice_index : Z;
  choice_message : ChatMessage;
  choice_finish_reason : option string;
}.

Record ChatCompletionResponse : Type := {
  response_id : string;
  response_object : string;
  response_created : Z;
  response_model : string;
  response_choices : list ChatCompletionChoice;
}.

Record ChatCompletionStreamChoice : Type := {
  stream_index : Z;
  delta : PyDict.t json;
  stream_finish_reason : option string;
}.

Record ChatCompletionStreamResponse : Type := {
  chunk_id : string;
  chunk_object : string;
  chunk_created : Z;
  chunk_model : string;
  chunk_choices : list ChatCompletionStreamChoice;
}.

(** What the streaming generator yields, one server-sent event each:
    [data: <chunk as JSON>], [data: [DONE]], or
    [data: {"error": {"message": m, "type": "internal_error",
    "code": "stream_error"}}]. *)
Inductive SSE : Type :=
  | Data (chunk : ChatCompletionStreamResponse)
  | Done
  | ErrorEvent (message : string).

Inductive Response : Type :=
  | HTTPException (status_code : Z) (detail : string)
  | JSONResponse (body : ChatCompletionResponse)
  | StreamingResponse (events : list SSE).

(** [_extract_token]: the bearer token, or the 401 it raises. *)
Definition _extract_token (authorization : option string)
  : Response + string :=
  match authorization with
  | None => inl (HTTPException 401 "Authorization header missing")
  | Some a =>
      if PyStr.is_empty a
      then inl (HTTPException 401 "Authorization header missing")
      else if negb (PyStr.startswith "Bearer " a)
      then inl (HTTPException 401 "Invalid authorization header format")
      else inr (PyStr.slice_from 7 a)
  end.

Section WithServices.
Context `{Backend}.
Variable model_router : Router.ModelRouter.
(** [f"chatcmpl-{uuid.uuid4().hex}"] and the clock, per request. *)
Variable completion_id : string.
Variable now : Q.

Definition created : Z := Qfloor now.

Definition content_chunk (model chunk : string)
  : ChatCompletionStreamResponse :=
  {| chunk_id := completion_id;
     chunk_object := "chat.completion.chunk";
     chunk_created := created;
     chunk_model := model;
     chunk_choices :=
       [{| stream_index := 0;
           delta := [("content", JStr chunk)];
           stream_finish_reason := None |}] |}.

Definition final_chunk (model : string) : ChatCompletionStreamResponse :=
  {| chunk_id := completion_id;
     chunk_object := "chat.completion.chunk";
     chunk_created := created;
     chunk_model := model;
     chunk_choices :=
       [{| stream_index := 0;
           delta := [];
           stream_finish_reason := Some "stop" |}] |}.

(** The [async for] of the streaming generator. *)
Fixpoint stream_events (model : string) (chunks : list string) : list SSE :=
  match chunks with
  | [] => []
  | chunk :: rest =>
      if negb (PyStr.is_empty chunk)
      then Data (content_chunk model chunk) :: stream_events model rest
      else stream_events model rest
  end.

Definition _stream_chat_completion (provider : Router.BaseProvider)
    (msgs settings : json) (model : string) : list SSE :=
  let c := stream_completion provider msgs settings in
  stream_events model (fragments c) ++
  match failure c with
  | None => [Data (final_chunk model); Done]
  | Some e => [ErrorEvent (exn_str e)]
  end.

(** [complete_content += chunk] over the fragments. *)
Definition accumulate (chunks : list string) : string :=
  fold_left (λ complete_content chunk, complete_content +:+ chunk)
            chunks EmptyString.

Definition _complete_chat_completion (provider : Router.BaseProvider)
    (msgs settings : json) (model : string)
  : result ChatCompletionResponse :=
  let c := stream_completion provider msgs settings in
  let complete_content := accumulate (fragments c) in
  match failure c with
  | Some e => Raise e
  | None =>
      Ok {| response_id := completion_id;
            response_object := "chat.completion";
            response_created := created;
            response_model := model;
            response_choices :=
              [{| choice_index := 0;
                  choice_message :=
                    {| role := "assistant"; content := complete_content |};
                  choice_finish_reason := Some "stop" |}] |}
  end.

(** The settings dict, without the entries that are [None]. *)
Definition request_settings (request : ChatCompletionRequest) : json :=
  JObj (omap (λ kv, (fst kv,.) <$> snd kv)
          [("model", Some (JStr (model request)));
           ("temperature", temperature request);
           ("max_tokens", max_tokens request);
           ("top_p", top_p request);
           ("frequency_penalty", frequency_penalty request);
           ("presence_penalty", presence_penalty request);
           ("stop", stop request)]).

Definition request_messages (request : ChatCompletionRequest) : json :=
  JArr ((λ msg, JObj [("role", JStr (role msg));
                      ("content", JStr (content msg))])
        <$> messages request).

(** [POST /v1/chat/completions], once the token is extracted. *)
Definition chat_completions (am : Auth.AuthManager)
    (request : ChatCompletionRequest) (tok : string)
  : Response * Auth.AuthManager :=
  match Auth.authenticate am tok with
  | None => (HTTPException 401 "Invalid authentication token", am)
  | Some user =>
      let '(allowed, am) := Auth.check_rate_limit am now tok in
      if negb allowed
      then (HTTPException 429
              "Rate limit exceeded. Please try again later.", am)
      else if negb (Auth.is_authorized am tok (JStr (model request)))
      then (HTTPException 403
              ("User not authorized to use model: " +:+ model request), am)
      else
        match Router.get_provider_for_model model_router (model request) with
        | None =>
            (HTTPException 404 ("Model not found: " +:+ model request), am)
        | Some provider =>
            let settings := request_settings request in
            let msgs := request_messages request in
            if default false (stream request)
            then (StreamingResponse
                    (_stream_chat_completion provider msgs settings
                       (model request)), am)
            else
              match _complete_chat_completion provider msgs settings
                      (model request) with
              | Ok body => (JSONResponse body, am)
              | Raise e =>
                  (HTTPException 500
                     ("Error generating completion: " +:+ exn_str e), am)
              end
        end
  end.

(** The route with its [Depends(self._extract_token)]. *)
Definition post_chat_completions (am : Auth.AuthManager)
    (authorization : option string) (request : ChatCompletionRequest)
  : Response * Auth.AuthManager :=
  match _extract_token authorization with
  | inl r => (r, am)
  | inr tok => chat_completions am request tok
  end.

(** *** The WebSocket endpoint *)

Record WsState : Type := {
  sent : list json;
  manager : Auth.AuthManager;
}.

Abbreviation ws_io := (st WsState).

Definition send_json (m : json) : ws_io unit := λ s,
  (Ok (), {| sent := sent s ++ [m]; manager := manager s |}).

Definition ws_error (message type : string) : json :=
  JObj [("error", JObj [("message", JStr message); ("type", JStr type)])].

Definition ws_check_rate_limit (tok : string) : ws_io bool := λ s,
  let '(allowed, am) := Auth.check_rate_limit (manager s) now tok in
  (Ok allowed, {| sent := sent s; manager := am |}).

Definition ws_authenticate (tok : json) : ws_io (option Auth.User) := λ s,
  (Auth.authenticate_dyn (manager s) tok, s).

Definition ws_is_authorized (tok : string) (model : json) : ws_io bool :=
  λ s, (Ok (Auth.is_authorized (manager s) tok model), s).

Definition ws_chunk (model : json) (delta : PyDict.t json)
    (finish_reason : json) : json :=
  JObj [("id", JStr completion_id);
        ("object", JStr "chat.completion.chunk");
        ("created", JNum created);
        ("model", model);
        ("choices", JArr [JObj [("index", JNum 0);
                                ("delta", JObj delta);
                                ("finish_reason", finish_reason)]])].

Fixpoint ws_relay (model : json) (chunks : list string)
    (failure : option exn) : ws_io unit :=
  match chunks with
  | [] => match failure with
          | Some e => raise e
          | None => ret ()
          end
  | chunk :: rest =>
      if negb (PyStr.is_empty chunk)
      then _ ← send_json (ws_chunk model [("content", JStr chunk)] JNull);
           ws_relay model rest failure
      else ws_relay model rest failure
  end.

(** The body of the [while True] loop for one received message; an
    exception it raises reaches the handlers around the loop. *)
Definition ws_message `{JsonLib} (data : json) : ws_io unit :=
  tok ← lift (Json.get data "token");
  if negb (Json.truthy tok)
  then send_json (ws_error "Missing token" "authentication_error")
  else
  user ← ws_authenticate tok;
  match user, tok with
  | Some user, JStr t =>
      allowed ← ws_check_rate_limit t;
      if negb allowed
      then send_json (ws_error "Rate limit exceeded" "rate_limit_error")
      else
      model ← lift (Json.get data "model");
      msgs ← lift (Json.get_default data "messages" (JArr []));
      settings ← lift (Json.get_default data "settings" (JObj []));
      if negb (Json.truthy model)
      then send_json (ws_error "Missing model" "validation_error")
      else
      authorized ← ws_is_authorized t model;
      if negb authorized
      then send_json (ws_error ("Not authorized for model: " +:+ py_str model)
                        "authorization_error")
      else
      provider ← lift (Router.get_provider_for_model_dyn model_router model);
      match provider with
      | None =>
          send_json (ws_error ("Model not found: " +:+ py_str model)
                       "model_error")
      | Some provider =>
          settings ← lift (Json.setitem settings "model" model);
          try_except
            (let c := stream_completion provider msgs settings in
             _ ← ws_relay model (fragments c) (failure c);
             send_json (ws_chunk model [] (JStr "stop")))
            (λ e, send_json (ws_error ("Generation error: " +:+ exn_str e)
                               "generation_error"))
      end
  | _, _ => send_json (ws_error "Invalid token" "authentication_error")
  end.

End WithServices.

End HTTPBridge.

(* ===================================================================== *)
(** ** A concrete deployment, to run the embedding on *)
(* ===================================================================== *)

Module Fixture.

Definition alice : Auth.User :=
  {| Auth.token := "tok-alice"; Auth.name := "Alice";
     Auth.permissions := ["llama3"; "gpt-4o"];
     Auth.rate_limit := "1/minute" |}.

Definition bob : Auth.User :=
  {| Auth.token := "tok-bob"; Auth.name := "Bob";
     Auth.permissions := ["llama3"];
     Auth.rate_limit := "5/unknown" |}.

Definition carol : Auth.User :=
  {| Auth.token := "tok-carol"; Auth.name := "Carol";
     Auth.permissions := [];
     Auth.rate_limit := "invalid_format" |}.

Definition user_table : gmap string Auth.User :=
  {[ "tok-alice" := alice; "tok-bob" := bob; "tok-carol" := carol ]}.

(** Nobody has made a request yet. *)
Definition fresh : Auth.AuthManager :=
  {| Auth.users := user_table; Auth.rate_limit_tracker := ∅ |}.

(** Alice was served at [t = 100], Bob five times at [t = 96 .. 100]. *)
Definition busy : Auth.AuthManager :=
  {| Auth.users := user_table;
     Auth.rate_limit_tracker :=
       {[ "tok-alice" := [100%Q];
          "tok-bob" := [96%Q; 97%Q; 98%Q; 99%Q; 100%Q] ]} |}.

Definition env : Router.Env :=
  {| Router.OPENAI_API_KEY := None; Router.OLLAMA_BASE_URL := None |}.

Definition llama3_entry : Router.ModelConfig :=
  {| Router.id := "llama3"; Router.provider := "Ollama";
     Router.extra := [] |}.

(** No [OPENAI_API_KEY] in [env]: the provider cannot be constructed. *)
Definition gpt4o_entry : Router.ModelConfig :=
  {| Router.id := "gpt-4o"; Router.provider := "openai";
     Router.extra := [] |}.

Definition mystery_entry : Router.ModelConfig :=
  {| Router.id := "mystery"; Router.provider := "unsupported_provider";
     Router.extra := [("note", JStr "kept")] |}.

Definition mistral_entry : Router.ModelConfig :=
  {| Router.id := "mistral"; Router.provider := "OLLAMA";
     Router.extra := [] |}.

Definition models : list Router.ModelConfig :=
  [llama3_entry; gpt4o_entry; mystery_entry; mistral_entry].

Definition router : Router.ModelRouter :=
  Router.load_models env Router.init models.

(** A second entry for the id ["llama3"], of an unsupported kind. *)
Definition broken_llama3_entry : Router.ModelConfig :=
  {| Router.id := "llama3"; Router.provider := "unsupported_provider";
     Router.extra := [] |}.

Definition clashing_models : list Router.ModelConfig :=
  [llama3_entry; broken_llama3_entry].

(** Ollama answers [Hello], [ world]; OpenAI yields one fragment and
    then fails. *)
Definition backend : Backend :=
  {| stream_completion provider _ _ :=
       match provider with
       | Router.OllamaProvider _ =>
           {| fragments := ["Hello"; " world"]; failure := None |}
       | Router.OpenAIProvider _ _ =>
           {| fragments := ["partial"];
              failure := Some (ProviderFailure "upstream closed") |}
       end |}.

(** The bytes of a frame, empty if it cannot be packed. *)
Definition frame (msg_type : string) (payload : json) : bytes :=
  match @Protocol.pack_message RefJson.lib msg_type payload with
  | Ok b => b
  | Raise _ => []
  end.

(** A one-character type code outside ASCII (U+00E9), and a
    two-character one that ends with a tab. *)
Definition e_acute : string := String (ascii_of_N 233) EmptyString.
Definition a_tab : string := String "A" (String "009" EmptyString).

Definition request (model : string) (stream : bool)
  : HTTPBridge.ChatCompletionRequest :=
  {| HTTPBridge.model := model;
     HTTPBridge.messages :=
       [{| HTTPBridge.role := "user"; HTTPBridge.content := "Hi" |}];
     HTTPBridge.stream := Some stream;
     HTTPBridge.temperature := None;
     HTTPBridge.max_tokens := None;
     HTTPBridge.top_p := None;
     HTTPBridge.frequency_penalty := None;
     HTTPBridge.presence_penalty := None;
     HTTPBridge.stop := None |}.

End Fixture.

(* ===================================================================== *)
(** ** The specification's wording, for comparison with the code *)
(* ===================================================================== *)

Module Spec.

(** The rate-limit algorithm: drop the stored timestamps that are not
    newer than [now - period]; reject if [N] or more remain; otherwise
    append [now] and allow. *)
Definition sliding_window (N period : Z) (now : Q) (stored : list Q)
  : bool * list Q :=
  let cutoff := (now - inject_Z period)%Q in
  let remaining := List.filter (λ t, negb (Qle_bool t cutoff)) stored in
  if (N <=? Z.of_nat (length remaining))%Z
  then (false, remaining)
  else (true, remaining ++ [now]).

(** The outcome, stored back as the token's window. *)
Definition store (am : Auth.AuthManager) (tok : string)
    (r : bool * list Q) : bool * Auth.AuthManager :=
  (fst r, Auth.tracker_set am tok (snd r)).

Definition known_units : list string := ["second"; "minute"; "hour"; "day"].

(** A model entry "with a live handle": its provider can be constructed
    in the environment. *)
Definition constructible (env : Router.Env) (m : Router.ModelConfig) : Prop :=
  is_Some (Router._create_provider env (Router.provider m)).

(** The routing entry a model entry contributes, if any. *)
Definition route (env : Router.Env) (m : Router.ModelConfig)
  : option (string * Router.BaseProvider) :=
  (Router.id m,.) <$> Router._create_provider env (Router.provider m).

(** A type code "with trailing spaces stripped": only U+0020 is removed. *)
Fixpoint strip_trailing_spaces (s : string) : string :=
  match s with
  | EmptyString => EmptyString
  | String c r =>
      let r' := strip_trailing_spaces r in
      if PyStr.is_empty r' && Ascii.eqb c " " then EmptyString
      else String c r'
  end.
End Spec.

(* ===================================================================== *)
(** ** Histories of rate-limit checks *)
(* ===================================================================== *)

Module AuthTrace.

(** The clock readings of the calls for [tok] that [check_rate_limit]
    allowed, in call order, when [calls] are made one after the other
    starting from [am]. *)
Fixpoint accepted_times (am : Auth.AuthManager) (calls : list (Q * string))
    (tok : string) : list Q :=
  match calls with
  | [] => []
  | (now, t) :: rest =>
      let r := Auth.check_rate_limit am now t in
      (if fst r && String.eqb t tok then [now] else [])
        ++ accepted_times (snd r) rest tok
  end.

(** The clock never goes back during the calls. *)
Definition clock_monotone (calls : list (Q * string)) : Prop :=
  ∀ i j t1 t2,
    (i ≤ j)%nat →
    fst <$> calls !! i = Some t1 → fst <$> calls !! j = Some t2 →
    (t1 <= t2)%Q.

End AuthTrace.

(* ===================================================================== *)
(** ** Reading a model list with repeated ids *)
(* ===================================================================== *)

Module RouterTrace.

(** The value [f] gives for the last element of [l] for which it gives
    one. *)
Fixpoint last_some {A B} (f : A → option B) (l : list A) : option B :=
  match l with
  | [] => None
  | x :: r =>
      match last_some f r with
      | Some y => Some y
      | None => f x
      end
  end.

(** The entry itself, if it is an entry for [model_id]. *)
Definition entry_for (model_id : string) (m : Router.ModelConfig)
  : option Router.ModelConfig :=
  if String.eqb (Router.id m) model_id then Some m else None.

(** The provider constructed for the entry, if it is an entry for
    [model_id] and its provider can be constructed. *)
Definition provider_for (env : Router.Env) (model_id : string)
    (m : Router.ModelConfig) : option Router.BaseProvider :=
  if String.eqb (Router.id m) model_id
  then Router._create_provider env (Router.provider m)
  else None.

End RouterTrace.

(* ===================================================================== *)
(** ** Observing a turn of the TCP loop and a relay *)
(* ===================================================================== *)

Module SessionTrace.

(** The session a turn ends in. *)
Definition state (t : TCPServer.turn) : TCPServer.Session :=
  match t with
  | TCPServer.Continue s | TCPServer.Break s | TCPServer.Fault _ s => s
  end.

(** All the values, if none of the computations raised. *)
Fixpoint all_ok {A} (l : list (result A)) : option (list A) :=
  match l with
  | [] => Some []
  | Ok a :: r => (a ::.) <$> all_ok r
  | Raise _ :: _ => None
  end.

(** The fragments a relay forwards: the non-empty ones. *)
Definition forwarded (chunks : list string) : list string :=
  List.filter (λ chunk, negb (PyStr.is_empty chunk)) chunks.

(** The CHNK frames of a relay, one per forwarded fragment. *)
Definition chunk_frames `{JsonLib} (chunks : list string)
  : list (result bytes) :=
  (λ chunk, Protocol.create_completion_chunk chunk false)
    <$> forwarded chunks.

(** A computation on the writer that only ever appends frames. *)
Definition appends {A} (m : TCPServer.writer_io A) : Prop :=
  ∀ w r w', m w = (r, w') → w `prefix_of` w'.

End SessionTrace.

(* ===================================================================== *)
(** ** [GET /v1/models] and the text a stream carries
       ([app/bridge/http_server.py]) *)
(* ===================================================================== *)

Module HTTPRoutes.

(** One element of the [data] list of the models route. *)
Record ModelCard : Type := {
  card_id : string;
  card_object : string;
  card_created : Z;
  card_owned_by : string;
}.

Inductive ModelsResponse : Type :=
  | ModelsError (status_code : Z) (detail : string)
  | ModelsList (object : string) (data : list ModelCard).

(** [int(x)] on a float: the integer part, rounding towards zero. *)
Definition int (x : Q) : Z :=
  if Qle_bool 0 x then Qfloor x else Qceiling x.

(** [list_models], once the token is extracted; [now] is the clock. *)
Definition list_models (am : Auth.AuthManager) (router : Router.ModelRouter)
    (now : Q) (tok : string) : ModelsResponse :=
  match Auth.authenticate am tok with
  | None => ModelsError 401 "Invalid authentication token"
  | Some user =>
      let available_models :=
        (λ model_id,
           {| card_id := model_id; card_object := "model";
              card_created := int now;
              card_owned_by := "continuum-node" |})
        <$> List.filter (λ model_id, Auth.is_authorized am tok (JStr model_id))
              (Router.get_available_models router) in
      ModelsList "list" available_models
  end.

(** The text of a [delta]: its [content], when it has one. *)
Definition delta_content (d : PyDict.t json) : string :=
  match PyDict.get "content" d with
  | Some (JStr s) => s
  | _ => EmptyString
  end.

(** The text a client reads off one event, and off a whole stream. *)
Definition event_text (e : HTTPBridge.SSE) : string :=
  match e with
  | HTTPBridge.Data chunk =>
      fold_left (λ text choice, text +:+ delta_content (HTTPBridge.delta choice))
                (HTTPBridge.chunk_choices chunk) EmptyString
  | _ => EmptyString
  end.

Definition streamed_text (events : list HTTPBridge.SSE) : string :=
  fold_left (λ text e, text +:+ event_text e) events EmptyString.

End HTTPRoutes.

(* ===================================================================== *)
(** ** app/services/enhanced_logging.py : the metrics collector *)
(* ===================================================================== *)

Module Metrics.

Record RequestMetric : Type := {
  timestamp : Q;
  endpoint : string;
  method : string;
  status_code : Z;
  response_time : Q;
  user_token : string;
  model_used : string;
  tokens_used : Z;
  error_message : string;
}.

(** [d.append(x)] on a [deque(maxlen=n)]: the element goes in on the
    right and, if the deque is then over its length, one goes out on the
    left. *)
Definition deque_append {A} (maxlen : nat) (d : list A) (x : A) : list A :=
  if (length d <? maxlen)%nat then d ++ [x] else drop 1 (d ++ [x]).

(** [d[k] += 1] on a [defaultdict(int)]; the dict keeps insertion order. *)
Definition incr (k : string) (d : PyDict.t nat) : PyDict.t nat :=
  PyDict.set k (default 0%nat (PyDict.get k d) + 1)%nat d.

Record MetricsCollector : Type := {
  max_metrics : nat;
  metrics : list RequestMetric;
  model_usage : PyDict.t nat;
  user_activity : PyDict.t nat;
  error_counts : PyDict.t nat;
  start_time : Q;
}.

(** [MetricsCollector.__init__], at time [now]. *)
Definition init (max_metrics : nat) (now : Q) : MetricsCollector :=
  {| max_metrics := max_metrics; metrics := [];
     model_usage := []; user_activity := []; error_counts := [];
     start_time := now |}.

Definition record_request (mc : MetricsCollector) (metric : RequestMetric)
  : MetricsCollector :=
  {| max_metrics := max_metrics mc;
     metrics := deque_append (max_metrics mc) (metrics mc) metric;
     model_usage :=
       if negb (PyStr.is_empty (model_used metric))
       then incr (model_used metric) (model_usage mc)
       else model_usage mc;
     user_activity := incr (user_token metric) (user_activity mc);
     error_counts :=
       if (400 <=? status_code metric)%Z
       then incr (pretty (status_code metric) +:+ "_" +:+ endpoint metric)
              (error_counts mc)
       else error_counts mc;
     start_time := start_time mc |}.

(** [l[-limit:]], with Python's rules for a slice start: a negative start
    counts from the end and stops at the first element, a start past the
    end gives the empty list. *)
Definition last_slice {A} (limit : Z) (l : list A) : list A :=
  let len := Z.of_nat (length l) in
  let start := (- limit)%Z in
  let start := if (start <? 0)%Z then Z.max 0 (start + len)
               else Z.min start len in
  drop (Z.to_nat start) l.

(** [get_detailed_metrics]; [asdict] copies a record field by field. *)
Definition get_detailed_metrics (mc : MetricsCollector) (limit : Z)
  : list RequestMetric :=
  last_slice limit (metrics mc).

(** [user_token[:8] + "..." if user_token else "anonymous"] *)
Definition mask (user_token : string) : string :=
  if negb (PyStr.is_empty user_token)
  then PyStr.slice_to 8 user_token +:+ "..."
  else "anonymous".

(** [EnhancedLogger.log_request] without keyword arguments, as the
    request middleware calls it: the metric it records. *)
Definition log_request (mc : MetricsCollector) (now : Q)
    (endpoint method : string) (status_code : Z) (response_time : Q)
    (user_token : string) : MetricsCollector :=
  record_request mc
    {| timestamp := now; endpoint := endpoint; method := method;
       status_code := status_code; response_time := response_time;
       user_token := mask user_token;
       model_used := EmptyString; tokens_used := 0;
       error_message := EmptyString |}.

Record Summary : Type := {
  uptime_seconds : Q;
  total_requests : nat;
  requests_last_hour : nat;
  average_response_time : Q;
  summary_model_usage : PyDict.t nat;
  top_users : PyDict.t nat;
  error_summary : PyDict.t nat;
  requests_per_minute : nat;
}.

Definition Qsum (l : list Q) : Q := foldr Qplus 0%Q l.

(** [get_summary], with [time.time()] passed as [current_time]. *)
Definition get_summary (mc : MetricsCollector) (current_time : Q) : Summary :=
  let uptime := (current_time - start_time mc)%Q in
  let hour_ago := (current_time - 3600)%Q in
  let recent_metrics :=
    List.filter (λ m, Auth.Qltb hour_ago (timestamp m)) (metrics mc) in
  {| uptime_seconds := uptime;
     total_requests := length (metrics mc);
     requests_last_hour := length recent_metrics;
     average_response_time :=
       match recent_metrics with
       | [] => 0%Q
       | _ => (Qsum (response_time <$> recent_metrics)
               / inject_Z (Z.of_nat (length recent_metrics)))%Q
       end;
     summary_model_usage := model_usage mc;
     top_users := take 10 (user_activity mc);
     error_summary := error_counts mc;
     requests_per_minute :=
       length (List.filter
                 (λ m, Auth.Qltb (current_time - 60) (timestamp m))
                 recent_metrics) |}.

(** All the requests a collector has counted for its users. *)
Definition counted (d : PyDict.t nat) : nat := sum_list (snd <$> d).

End Metrics.

(* ===================================================================== *)
(** ** More sample data *)
(* ===================================================================== *)

Module Samples.

(** A user whose limit is zero. *)
Definition dave : Auth.User :=
  {| Auth.token := "tok-dave"; Auth.name := "Dave";
     Auth.permissions := ["llama3"];
     Auth.rate_limit := "0/hour" |}.

Definition strict : Auth.AuthManager :=
  {| Auth.users := {[ "tok-dave" := dave ]};
     Auth.rate_limit_tracker := ∅ |}.

(** A request metric of the middleware, at time [t]. *)
Definition metric (t : Q) (status_code : Z) (user : string)
  : Metrics.RequestMetric :=
  {| Metrics.timestamp := t; Metrics.endpoint := "/v1/models";
     Metrics.method := "GET"; Metrics.status_code := status_code;
     Metrics.response_time := 0; Metrics.user_token := user;
     Metrics.model_used := EmptyString; Metrics.tokens_used := 0;
     Metrics.error_message := EmptyString |}.

(** A collector for two requests that has seen three. *)
Definition collector : Metrics.MetricsCollector :=
  foldl Metrics.record_request (Metrics.init 2 0)
    [metric 1 200 "tok-alic..."; metric 2 401 "anonymous";
     metric 3 200 "tok-alic..."].

End Samples.

(* ===================================================================== *)
(** * Properties of the authentication engine *)
(* ===================================================================== *)

Section AuthFacts.
Import Auth.

Lemma Qltb_lt (a b : Q) : Qltb a b = true ↔ (a < b)%Q.
Proof.
  unfold Qltb. rewrite negb_true_iff. split.
  - intros Hle. apply Qnot_le_lt. intros Hba.
    apply Qle_bool_iff in Hba. congruence.
  - intros Hlt. destruct (Qle_bool b a) eqn:E; [|done].
    apply Qle_bool_iff in E. exfalso. eapply Qlt_not_le; eauto.
Qed.

Lemma tracker_get_set am tok w : tracker_get (tracker_set am tok w) tok = w.
Proof. unfold tracker_get, tracker_set. simpl. by rewrite lookup_insert_eq. Qed.

Lemma tracker_get_set_ne am tok tok' w :
  tok ≠ tok' → tracker_get (tracker_set am tok w) tok' = tracker_get am tok'.
Proof.
  intros Hne. unfold tracker_get, tracker_set. simpl.
  by rewrite lookup_insert_ne.
Qed.

Lemma tracker_set_set am tok w w' :
  tracker_set (tracker_set am tok w) tok w' = tracker_set am tok w'.
Proof. unfold tracker_set. simpl. by rewrite insert_insert_eq. Qed.

Lemma check_rate_limit_unknown am now tok :
  authenticate am tok = None → check_rate_limit am now tok = (false, am).
Proof. intros Hu. unfold check_rate_limit. by rewrite Hu. Qed.

Lemma check_rate_limit_known am now tok u limit period :
  authenticate am tok = Some u →
  _parse_rate_limit (rate_limit u) = (limit, period) →
  check_rate_limit am now tok
  = Spec.store am tok (Spec.sliding_window limit period now (tracker_get am tok)).
Proof.
  intros Hu Hp. unfold check_rate_limit, Spec.store, Spec.sliding_window.
  rewrite Hu, Hp. rewrite tracker_get_set. unfold Qltb.
  destruct (_ <=? _)%Z; simpl; [done|]. by rewrite tracker_set_set.
Qed.

Lemma check_rate_limit_users am now tok :
  users (snd (check_rate_limit am now tok)) = users am.
Proof.
  unfold check_rate_limit. destruct (authenticate am tok); [|done].
  destruct (_parse_rate_limit _) as [limit period].
  by destruct (_ <=? _)%Z.
Qed.

Lemma after_calls_users am calls : users (after_calls am calls) = users am.
Proof.
  revert am. induction calls as [|[now tok] calls IH]; intros am; [done|].
  unfold after_calls in *. simpl. rewrite IH. apply check_rate_limit_users.
Qed.

Lemma unit_unknown u :
  u ∉ Spec.known_units → PyDict.get u time_multipliers = None.
Proof.
  intros Hu. unfold time_multipliers. simpl.
  repeat match goal with
  | |- context [String.eqb u ?k] =>
      destruct (String.eqb_spec u k) as [->|_];
      [exfalso; apply Hu; unfold Spec.known_units;
       repeat first [apply list_elem_of_here | apply list_elem_of_further]|]
  end. done.
Qed.

Lemma period_positive s : (0 < snd (_parse_rate_limit s))%Z.
Proof.
  unfold _parse_rate_limit.
  destruct (PyStr.split _ s) as [|l [|u [|? ?]]]; simpl; try lia.
  destruct (PyStr.int l); simpl; [|lia].
  unfold time_multipliers. simpl.
  repeat match goal with
  | |- context [String.eqb u ?k] => destruct (String.eqb u k); simpl; try lia
  end.
Qed.
End AuthFacts.

Section AuthClaims.
Import Auth.

Lemma filter_sublist_bool {A} (p : A → bool) (l : list A) :
  sublist (List.filter p l) l.
Proof.
  induction l as [|x l IH]; simpl; [constructor|].
  destruct (p x); by constructor.
Qed.

Lemma filter_Forall_bool {A} (p : A → bool) (l : list A) :
  Forall (λ x, p x = true) (List.filter p l).
Proof.
  induction l as [|x l IH]; simpl; [constructor|].
  destruct (p x) eqn:E; [by constructor | done].
Qed.




(** Claim C4.  After any sequence of [check_rate_limit] calls, a further
    call at time [now] for [tok]: if the token is unknown it returns false
    and leaves the manager untouched; if it returns true, the stored
    window of [tok] holds at most [limit] timestamps, each strictly newer
    than [now - period], the last one being [now]; if it returns false
    for a known token, the stored window is a sublist of the previous
    one (nothing was appended). *)
Theorem C4_rate_window_invariant (am : AuthManager)
    (calls : list (Q * string)) (now : Q) (tok : string) :
  let before := after_calls am calls in
  let allowed := fst (check_rate_limit before now tok) in
  let after := snd (check_rate_limit before now tok) in
  match authenticate am tok with
  | None => allowed = false ∧ after = before
  | Some u =>
      let limit := fst (_parse_rate_limit (rate_limit u)) in
      let period := snd (_parse_rate_limit (rate_limit u)) in
      if allowed
      then (Z.of_nat (length (tracker_get after tok)) ≤ limit)%Z
           ∧ Forall (λ t, (now - inject_Z period < t)%Q)
                    (tracker_get after tok)
           ∧ last (tracker_get after tok) = Some now
      else sublist (tracker_get after tok) (tracker_get before tok)
  end.
Proof.
  intros before allowed after.
  assert (authenticate before tok = authenticate am tok) as Hsame.
  { unfold authenticate, before. by rewrite after_calls_users. }
  destruct (authenticate am tok) as [u|] eqn:Hu.
  - intros limit period. subst allowed after.
    rewrite (check_rate_limit_known before now tok u limit period Hsame)
      by (subst limit period; by destruct (_parse_rate_limit _)).
    unfold Spec.store, Spec.sliding_window. simpl.
    set (kept := List.filter _ (tracker_get before tok)).
    destruct (limit <=? Z.of_nat (length kept))%Z eqn:Hfull; simpl;
      rewrite tracker_get_set.
    + apply filter_sublist_bool.
    + apply Z.leb_gt in Hfull. split; [|split].
      * rewrite length_app. simpl. lia.
      * apply Forall_app. split.
        -- eapply Forall_impl; [apply filter_Forall_bool|].
           intros t Ht. simpl in Ht. by apply (Qltb_lt _ t).
        -- constructor; [|constructor].
           pose proof (period_positive (rate_limit u)) as Hpos.
           fold period in Hpos.
           assert (0 < inject_Z period)%Q
             by (unfold Qlt, inject_Z; simpl; lia).
           lra.
      * apply last_snoc.
  - subst allowed after. by rewrite check_rate_limit_unknown.
Qed.
End AuthClaims.


(* ===================================================================== *)
(** * Properties of the wire codec *)
(* ===================================================================== *)

Section ProtocolFacts.
Import Protocol.

Lemma readexactly_ok (n : N) (b rest : bytes) :
  N.of_nat (length b) = n → readexactly n (b ++ rest) = (Ok b, rest).
Proof.
  intros <-. unfold readexactly. rewrite Nat2N.id.
  rewrite take_app_length, drop_app_length.
  rewrite length_app. destruct (N.leb_spec (N.of_nat (length b))
                                  (N.of_nat (length b + length rest))); [done|lia].
Qed.

(** [readexactly] either returns exactly [n] bytes or raises
    [IncompleteReadError]; it never returns a short read. *)
Lemma readexactly_cases (n : N) (rd : bytes) :
  (∃ b rest, readexactly n rd = (Ok b, rest) ∧ N.of_nat (length b) = n
             ∧ rd = b ++ rest)
  ∨ (readexactly n rd = (Raise (IncompleteReadError rd n), [])
     ∧ (N.of_nat (length rd) < n)%N).
Proof.
  unfold readexactly.
  destruct (N.leb_spec n (N.of_nat (length rd))) as [Hle|Hlt].
  - left. eexists _, _. split; [done|]. split.
    + rewrite length_take. lia.
    + by rewrite take_drop.
  - right. done.
Qed.

Lemma byte_val_of_N (n : N) : (n < 256)%N → byte_val (ascii_of_N n) = n.
Proof. apply N_ascii_embedding. Qed.

Lemma struct_pack_unpack (n : N) :
  (n < 2 ^ 32)%N →
  ∃ b, struct_pack_I n = Ok b ∧ length b = 4%nat ∧ struct_unpack_I b = Ok n.
Proof.
  intros Hn. unfold struct_pack_I.
  destruct (N.ltb_spec n (2 ^ 32)) as [_|?]; [|lia].
  eexists. split; [done|]. split; [done|].
  unfold struct_unpack_I.
  change (2 ^ 32)%N with (256 * 256 * 256 * 256)%N in Hn.
  change (2 ^ 24)%N with (256 * 256 * 256)%N.
  change (2 ^ 16)%N with (256 * 256)%N. change (2 ^ 8)%N with 256%N.
  rewrite <- !N.Div0.div_div.
  set (a := (n / 256)%N). set (b := (a / 256)%N). set (c := (b / 256)%N).
  pose proof (N.div_mod' n 256) as Hn0. fold a in Hn0.
  pose proof (N.div_mod' a 256) as Ha. fold b in Ha.
  pose proof (N.div_mod' b 256) as Hb. fold c in Hb.
  pose proof (N.mod_upper_bound n 256 ltac:(lia)).
  pose proof (N.mod_upper_bound a 256 ltac:(lia)).
  pose proof (N.mod_upper_bound b 256 ltac:(lia)).
  clearbody c. clearbody b. clearbody a.
  rewrite !byte_val_of_N.
  - f_equal. generalize dependent (n `mod` 256)%N.
    generalize dependent (a `mod` 256)%N.
    generalize dependent (b `mod` 256)%N. lia.
  - done.
  - done.
  - done.
  - generalize dependent (n `mod` 256)%N.
    generalize dependent (a `mod` 256)%N.
    generalize dependent (b `mod` 256)%N. lia.
Qed.
End ProtocolFacts.

Section StringFacts.

Lemma append_nil (t : string) : EmptyString +:+ t = t.
Proof. reflexivity. Qed.

Lemma append_cons (c : ascii) (s t : string) :
  String c s +:+ t = String c (s +:+ t).
Proof. reflexivity. Qed.

Lemma spaces_length (k : nat) : String.length (PyStr.spaces k) = k.
Proof. induction k; simpl; congruence. Qed.

Lemma append_length (s t : string) :
  String.length (s +:+ t) = (String.length s + String.length t)%nat.
Proof.
  induction s; rewrite ?append_nil, ?append_cons; simpl; congruence.
Qed.

Lemma slice_to_all (n : nat) (s : string) :
  (String.length s ≤ n)%nat → PyStr.slice_to n s = s.
Proof.
  revert n. induction s as [|c s IH]; intros [|n] Hn; simpl in *;
    try done; try lia.
  rewrite IH; [done|lia].
Qed.

Lemma rstrip_spaces (k : nat) : PyStr.rstrip (PyStr.spaces k) = EmptyString.
Proof. induction k as [|k IH]; simpl; [done|]. by rewrite IH. Qed.

Lemma rstrip_append_spaces (s : string) (k : nat) :
  PyStr.rstrip (s +:+ PyStr.spaces k) = PyStr.rstrip s.
Proof.
  induction s as [|c s IH]; rewrite ?append_nil, ?append_cons; simpl;
    [apply rstrip_spaces|].
  by rewrite IH.
Qed.

Lemma isascii_append_spaces (s : string) (k : nat) :
  PyStr.isascii (s +:+ PyStr.spaces k) = PyStr.isascii s.
Proof.
  unfold PyStr.isascii.
  induction s as [|c s IH]; rewrite ?append_nil, ?append_cons; simpl.
  - induction k as [|k IHk]; simpl; [done|]. by rewrite IHk.
  - by rewrite IH.
Qed.

Lemma list_ascii_length (s : string) :
  length (list_ascii_of_string s) = String.length s.
Proof. induction s; simpl; congruence. Qed.

Lemma isascii_bytes (s : string) :
  forallb PyStr.is_ascii_char (list_ascii_of_string s) = PyStr.isascii s.
Proof. unfold PyStr.isascii. induction s; simpl; congruence. Qed.

(** The four type bytes of a frame: the padded code is the code followed
    by spaces. *)
Lemma padded_type (msg_type : string) :
  (String.length msg_type ≤ 4)%nat →
  PyStr.slice_to 4 (PyStr.ljust 4 msg_type)
  = msg_type +:+ PyStr.spaces (4 - String.length msg_type).
Proof.
  intros Hlen. unfold PyStr.ljust. apply slice_to_all.
  rewrite append_length, spaces_length. lia.
Qed.

End StringFacts.

Section ProtocolClaims.
Import Protocol.
Context `{JsonLib}.

Lemma st_bind_unfold {S A B} (m : st S A) (k : A → st S B) (s : S) :
  (m ≫= k) s = match m s with
               | (Ok a, s') => k a s'
               | (Raise e, s') => (Raise e, s')
               end.
Proof. reflexivity. Qed.

Lemma pack_message_too_long (msg_type : string) (payload : json) :
  (4 < String.length msg_type)%nat →
  pack_message msg_type payload
  = Raise (ValueError ("Message type '" +:+ msg_type
                         +:+ "' exceeds 4 characters")).
Proof.
  intros Hlen. unfold pack_message.
  destruct (Nat.ltb_spec 4 (String.length msg_type)); [done|lia].
Qed.

Lemma pack_message_ok (msg_type : string) (payload : json) :
  (String.length msg_type ≤ 4)%nat →
  PyStr.isascii msg_type = true →
  (N.of_nat (length (utf8_encode (json_dumps payload))) < 2 ^ 32)%N →
  ∃ length_bytes,
    struct_pack_I (N.of_nat (length (utf8_encode (json_dumps payload))))
    = Ok length_bytes
    ∧ pack_message msg_type payload
      = Ok (list_ascii_of_string
              (msg_type +:+ PyStr.spaces (4 - String.length msg_type))
            ++ length_bytes ++ utf8_encode (json_dumps payload)).
Proof.
  intros Hlen Hascii Hsize.
  destruct (struct_pack_unpack _ Hsize) as (lb & Hpack & _ & _).
  exists lb. split; [done|]. unfold pack_message.
  destruct (Nat.ltb_spec 4 (String.length msg_type)); [lia|].
  rewrite padded_type by done. unfold encode_ascii.
  rewrite isascii_append_spaces, Hascii. simpl. by rewrite Hpack.
Qed.

Lemma unpack_frame (msg_type : string) (length_bytes payload_bytes rest : bytes)
    (payload : json) :
  String.length msg_type = 4%nat →
  PyStr.isascii msg_type = true →
  length length_bytes = 4%nat →
  struct_unpack_I length_bytes = Ok (N.of_nat (length payload_bytes)) →
  (0 < N.of_nat (length payload_bytes) ≤ MAX_PAYLOAD)%N →
  decode_payload payload_bytes = Ok payload →
  unpack_message_from_stream
    (list_ascii_of_string msg_type ++ length_bytes ++ payload_bytes ++ rest)
  = (Ok (PyStr.rstrip msg_type, payload), rest).
Proof.
  intros Htype Hascii Hlen Hunpack [Hpos Hmax] Hdecode.
  unfold unpack_message_from_stream.
  rewrite st_bind_unfold, readexactly_ok
    by (rewrite list_ascii_length, Htype; done).
  rewrite list_ascii_length, Htype, Nat.eqb_refl. change (negb true) with false. cbv iota.
  rewrite st_bind_unfold. unfold lift at 1, decode_ascii.
  rewrite isascii_bytes, Hascii, string_of_list_ascii_of_string.
  rewrite st_bind_unfold, readexactly_ok by (rewrite Hlen; done).
  rewrite Hlen, Nat.eqb_refl. change (negb true) with false. cbv iota.
  rewrite st_bind_unfold. unfold lift at 1. rewrite Hunpack.
  destruct (N.ltb_spec MAX_PAYLOAD (N.of_nat (length payload_bytes)));
    [lia|].
  destruct (N.ltb_spec 0 (N.of_nat (length payload_bytes))); [|lia].
  rewrite st_bind_unfold, readexactly_ok by done.
  rewrite N.eqb_refl. change (negb true) with false. cbv iota.
  rewrite st_bind_unfold. unfold lift. by rewrite Hdecode.
Qed.


End ProtocolClaims.

Section ProtocolClaims2.
Import Protocol.

Lemma unpack_never_connection_error `{JsonLib} (reader : bytes) (msg : string) :
  fst (unpack_message_from_stream reader) ≠ Raise (ConnectionError msg).
Proof.
  unfold unpack_message_from_stream. rewrite st_bind_unfold.
  destruct (readexactly_cases 4 reader)
    as [(tb & rd1 & -> & Htb & _) | [-> _]]; [|done].
  assert (length tb = 4%nat) as -> by lia.
  rewrite Nat.eqb_refl. change (negb true) with false. cbv iota.
  rewrite st_bind_unfold. unfold lift at 1, decode_ascii.
  destruct (forallb _ tb); [|done].
  rewrite st_bind_unfold.
  destruct (readexactly_cases 4 rd1)
    as [(lb & rd2 & -> & Hlb & _) | [-> _]]; [|done].
  assert (length lb = 4%nat) as Hlen4 by lia. rewrite Hlen4.
  rewrite Nat.eqb_refl. change (negb true) with false. cbv iota.
  rewrite st_bind_unfold. unfold lift at 1.
  destruct lb as [|b0 [|b1 [|b2 [|b3 [|? ?]]]]]; try done.
  unfold struct_unpack_I. set (n := (_ + byte_val b3)%N).
  destruct (MAX_PAYLOAD <? n)%N; [done|].
  destruct (0 <? n)%N; [|done].
  rewrite st_bind_unfold.
  destruct (readexactly_cases n rd2)
    as [(pb & rd3 & -> & Hpb & _) | [-> _]]; [|done].
  rewrite Hpb, N.eqb_refl. change (negb true) with false. cbv iota.
  rewrite st_bind_unfold. unfold lift, decode_payload.
  destruct (utf8_decode pb); [done|]. by destruct (json_loads _).
Qed.

(** Claim C6 on the code.  A stream cut short inside the type bytes,
    inside the length bytes, or inside the payload makes
    [unpack_message_from_stream] raise [IncompleteReadError], the
    exception of [readexactly]; the three [ConnectionError] messages of
    the source are never raised, on any stream. *)
Theorem C6_short_reads_raise_incomplete_read :
  let unpack := @unpack_message_from_stream RefJson.lib in
  let header := ["A"; "U"; "T"; "H"]%char in
  unpack ["A"; "U"]%char
  = (Raise (IncompleteReadError ["A"; "U"]%char 4), [])
  ∧ unpack (header ++ ["000"; "000"]%char)
    = (Raise (IncompleteReadError ["000"; "000"]%char 4), [])
  ∧ unpack (header ++ ["000"; "000"; "000"; "005"]%char ++ ["{"; "}"]%char)
    = (Raise (IncompleteReadError ["{"; "}"]%char 5), [])
  ∧ ∀ reader msg, fst (unpack reader) ≠ Raise (ConnectionError msg).
Proof.
  intros unpack header. split; [reflexivity|]. split; [reflexivity|].
  split; [reflexivity|]. intros reader msg.
  apply unpack_never_connection_error.
Qed.



End ProtocolClaims2.


(* ===================================================================== *)
(** * Properties of the model dispatcher *)
(* ===================================================================== *)

Section DictFacts.
Context {A : Type}.
Implicit Types (d : PyDict.t A) (k : string) (v : A).

Lemma dict_get_None k d : PyDict.get k d = None ↔ k ∉ PyDict.keys d.
Proof.
  unfold PyDict.keys. induction d as [|[k' v'] d IH]; simpl.
  - split; [intros _; apply not_elem_of_nil | done].
  - rewrite not_elem_of_cons. destruct (String.eqb_spec k k') as [->|Hne].
    + split; [done | by intros [? _]].
    + rewrite IH. tauto.
Qed.

Lemma dict_set_fresh k v d :
  k ∉ PyDict.keys d → PyDict.set k v d = d ++ [(k, v)].
Proof.
  unfold PyDict.keys. induction d as [|[k' v'] d IH]; simpl; [done|].
  rewrite not_elem_of_cons. intros [Hne Hd].
  destruct (String.eqb_spec k k'); [done|]. by rewrite IH.
Qed.

Lemma dict_keys_app d1 d2 :
  PyDict.keys (d1 ++ d2) = PyDict.keys d1 ++ PyDict.keys d2.
Proof. unfold PyDict.keys. apply fmap_app. Qed.

Lemma dict_mem_false k d : k ∉ PyDict.keys d → PyDict.mem k d = false.
Proof. intros Hk. unfold PyDict.mem. by rewrite (proj2 (dict_get_None k d) Hk). Qed.
End DictFacts.

Section RouterFacts.
Import Router.
Variable env : Env.

Local Abbreviation constructible := (Spec.constructible env).
Local Abbreviation route := (Spec.route env).

Lemma keys_routes (models : list ModelConfig) :
  PyDict.keys (omap route models) = id <$> filter constructible models.
Proof.
  unfold PyDict.keys.
  induction models as [|m models IH]; simpl; [done|].
  rewrite filter_cons.
  destruct (decide (constructible m)) as [[p Hp]|Hn].
  - unfold Spec.route at 1. rewrite Hp. simpl. f_equal. exact IH.
  - unfold Spec.route at 1.
    destruct (_create_provider env (provider m)) eqn:Hp; simpl; [|exact IH].
    exfalso. apply Hn. unfold Spec.constructible. rewrite Hp. eauto.
Qed.

Lemma load_models_fresh (r : ModelRouter) (models : list ModelConfig) :
  NoDup (id <$> models) →
  (∀ m, m ∈ models → (id m ∉ PyDict.keys (model_providers r))
                     ∧ (id m ∉ PyDict.keys (model_configs r))) →
  model_providers (load_models env r models)
  = model_providers r ++ omap route models
  ∧ model_configs (load_models env r models)
    = model_configs r ++ ((λ m, (id m, m)) <$> models).
Proof.
  revert r. induction models as [|m models IH]; intros r Hnd Hfresh; simpl.
  { by rewrite !app_nil_r. }
  apply NoDup_cons in Hnd as [Hm Hnd].
  destruct (Hfresh m ltac:(left)) as [Hmp Hmc].
  unfold load_models in *. simpl.
  destruct (IH (load_model env r m) Hnd) as [IHp IHc].
  { intros m' Hm'. destruct (Hfresh m' ltac:(by right)) as [Hp' Hc'].
    assert (id m' ≠ id m) as Hne.
    { intros Heq. apply Hm. rewrite <- Heq. by apply list_elem_of_fmap_2. }
    assert (∀ {B} (x : B) (d : PyDict.t B),
              id m' ∉ PyDict.keys d → id m' ∉ PyDict.keys (d ++ [(id m, x)]))
      as Hext.
    { intros B x d Hd. rewrite dict_keys_app, not_elem_of_app.
      split; [done|]. unfold PyDict.keys. simpl.
      by rewrite list_elem_of_singleton. }
    unfold load_model. rewrite (dict_set_fresh _ _ _ Hmc).
    destruct (_create_provider env (provider m)); simpl;
      rewrite ?(dict_set_fresh _ _ _ Hmp); split; auto. }
  rewrite IHp, IHc. unfold load_model, Spec.route.
  rewrite (dict_set_fresh _ _ _ Hmc).
  destruct (_create_provider env (provider m)); simpl;
    rewrite ?(dict_set_fresh _ _ _ Hmp), <- ?app_assoc; done.
Qed.

Lemma NoDup_fmap_eq {B C} (f : B → C) (l : list B) (x y : B) :
  NoDup (f <$> l) → x ∈ l → y ∈ l → f x = f y → x = y.
Proof.
  induction l as [|z l IH]; simpl; [by intros _ ?%elem_of_nil|].
  intros [Hz Hnd]%NoDup_cons [->|Hx]%elem_of_cons [->|Hy]%elem_of_cons Heq;
    try done.
  - exfalso. apply Hz. rewrite Heq. by apply list_elem_of_fmap_2.
  - exfalso. apply Hz. rewrite <- Heq. by apply list_elem_of_fmap_2.
  - by apply IH.
Qed.

Lemma get_config_entry (models : list ModelConfig) (m : ModelConfig) :
  NoDup (id <$> models) → m ∈ models →
  PyDict.get (id m) ((λ m, (id m, m)) <$> models) = Some m.
Proof.
  induction models as [|m' models IH]; simpl; [by intros _ ?%elem_of_nil|].
  intros [Hm' Hnd]%NoDup_cons [->|Hm]%elem_of_cons.
  - by rewrite String.eqb_refl.
  - destruct (String.eqb_spec (id m) (id m')) as [Heq|_]; [|by apply IH].
    exfalso. apply Hm'. rewrite <- Heq. by apply list_elem_of_fmap_2.
Qed.

(** Claim C9, as the code has it.  For a model list whose ids are
    pairwise distinct, loaded into a new router: the available models are
    the ids of the entries whose provider can be constructed, in list
    order; and for every entry whose provider cannot be constructed
    (unsupported kind, or no API key) the id is not among the available
    models, has no provider, is not available, and its stored
    configuration is the entry itself. *)
Theorem C9_unavailable_models (models : list ModelConfig) :
  NoDup (id <$> models) →
  let r := load_models env init models in
  get_available_models r = id <$> filter constructible models
  ∧ ∀ m, m ∈ models → _create_provider env (provider m) = None →
      (id m ∉ get_available_models r)
      ∧ get_provider_for_model r (id m) = None
      ∧ is_model_available r (id m) = false
      ∧ get_model_config r (id m) = Some m.
Proof.
  intros Hnd r.
  destruct (load_models_fresh init models Hnd) as [Hp Hc].
  { intros m _. simpl. split; apply not_elem_of_nil. }
  simpl in Hp, Hc. fold r in Hp, Hc.
  assert (get_available_models r = id <$> filter constructible models) as Hav.
  { unfold get_available_models. rewrite Hp. apply keys_routes. }
  split; [done|]. intros m Hm Hnone.
  assert (id m ∉ get_available_models r) as Habsent.
  { rewrite Hav. intros (m' & Heq & Hm')%list_elem_of_fmap.
    apply list_elem_of_filter in Hm' as [Hcons Hm'].
    assert (m = m') as <- by (by apply (NoDup_fmap_eq id models)).
    unfold Spec.constructible in Hcons. rewrite Hnone in Hcons.
    by destruct Hcons. }
  split; [done|]. unfold get_available_models in Habsent.
  split; [by apply dict_get_None|]. split; [by apply dict_mem_false|].
  unfold get_model_config. rewrite Hc. by apply get_config_entry.
Qed.
End RouterFacts.

(** On the sample model list, loaded without an OpenAI key: the two
    Ollama models are available, in list order; ["gpt-4o"] and
    ["mystery"] have no provider, and the configuration of ["mystery"]
    is still stored. *)
Lemma C9_unavailable_models_witness :
  let r := Fixture.router in
  Router.get_available_models r = ["llama3"; "mistral"]
  ∧ Router.get_provider_for_model r "gpt-4o" = None
  ∧ Router.get_provider_for_model r "mystery" = None
  ∧ Router.get_model_config r "mystery" = Some Fixture.mystery_entry.
Proof.
  assert (NoDup (Router.id <$> Fixture.models)) as Hnd.
  { apply NoDup_ListNoDup. repeat constructor; simpl; intuition discriminate. }
  destruct (C9_unavailable_models Fixture.env Fixture.models Hnd) as [Hav Hun].
  split; [exact Hav|].
  destruct (Hun Fixture.gpt4o_entry) as (_ & Hg & _ & _);
    [repeat constructor | reflexivity |].
  destruct (Hun Fixture.mystery_entry) as (_ & Hm & _ & Hc);
    [repeat constructor | reflexivity |].
  split; [exact Hg|]. split; [exact Hm|]. exact Hc.
Defined.

(** Claim C9, as stated, fails when an id occurs twice.  The second entry
    for ["llama3"] has an unsupported provider kind, so its handle cannot
    be constructed; after loading, ["llama3"] is still listed as available
    and still routed, through the first entry's provider, while the
    stored configuration is the second entry's. *)
Lemma C9_duplicate_id_stays_available :
  let r := Router.load_models Fixture.env Router.init Fixture.clashing_models in
  let second := Fixture.broken_llama3_entry in
  Fixture.clashing_models = [Fixture.llama3_entry; second]
  ∧ Router._create_provider Fixture.env (Router.provider second) = None
  ∧ Router.id second = "llama3"
  ∧ Router.get_available_models r = ["llama3"]
  ∧ Router.get_provider_for_model r "llama3"
    = Some (Router.OllamaProvider "http://localhost:11434")
  ∧ Router.get_model_config r "llama3" = Some second.
Proof. repeat split; reflexivity. Qed.


(* ===================================================================== *)
(** * Properties of the TCP session *)
(* ===================================================================== *)

Section SessionFacts.
Import TCPServer.
Context `{JsonLib} `{Backend}.
Variable auth_manager : Auth.AuthManager.
Variable model_router : Router.ModelRouter.

Local Abbreviation handle_frame := (handle_frame auth_manager model_router).
Local Abbreviation _handle_auth := (_handle_auth auth_manager).

Lemma write_ok (frame : bytes) (w : list bytes) :
  write (Ok frame) w = (Ok (), w ++ [frame]).
Proof. reflexivity. Qed.

Lemma dict_mem_get {A} (k : string) (d : PyDict.t A) (v : A) :
  PyDict.get k d = Some v → PyDict.mem k d = true.
Proof. intros Hg. unfold PyDict.mem. by rewrite Hg. Qed.

(** [_handle_auth] on an object whose token is a string. *)
Lemma handle_auth_string (fs : PyDict.t json) (tok : string) (w : list bytes) :
  PyDict.get "token" fs = Some (JStr tok) →
  _handle_auth (JObj fs) w
  = try_except
      (write
         (if PyStr.is_empty tok
          then Protocol.create_auth_response false
                 "Missing token in authentication request" None
          else match Auth.authenticate auth_manager tok with
               | Some _ =>
                   Protocol.create_auth_response true
                     "Authentication successful"
                     (Auth.get_user_info auth_manager tok)
               | None =>
                   Protocol.create_auth_response false
                     "Invalid authentication token" None
               end))
      (λ e, write (Protocol.create_error_response "AUTH_ERROR"
                     "Internal authentication error")) w.
Proof.
  intros Hg. unfold TCPServer._handle_auth, try_except.
  rewrite st_bind_unfold. unfold lift at 1. simpl Json.get. rewrite Hg.
  change (default JNull (Some (JStr tok))) with (JStr tok).
  change (Json.truthy (JStr tok)) with (negb (PyStr.is_empty tok)).
  rewrite negb_involutive.
  destruct (PyStr.is_empty tok); [done|].
  rewrite st_bind_unfold. unfold lift. simpl Auth.authenticate_dyn.
  by destruct (Auth.authenticate auth_manager tok).
Qed.

Lemma auth_frame_rebinds (s : Session) (fs : PyDict.t json) (tok : string)
    (rd : bytes) (reply : bytes) :
  Protocol.unpack_message_from_stream (reader s) = (Ok ("AUTH", JObj fs), rd) →
  PyDict.get "token" fs = Some (JStr tok) →
  (if PyStr.is_empty tok
   then Protocol.create_auth_response false
          "Missing token in authentication request" None
   else match Auth.authenticate auth_manager tok with
        | Some _ =>
            Protocol.create_auth_response true "Authentication successful"
              (Auth.get_user_info auth_manager tok)
        | None =>
            Protocol.create_auth_response false
              "Invalid authentication token" None
        end) = Ok reply →
  handle_frame s
  = Continue {| reader := rd; writer := writer s ++ [reply];
                authenticated_user := Auth.authenticate auth_manager tok |}.
Proof.
  intros Hread Hg Hreply. unfold TCPServer.handle_frame. rewrite Hread.
  simpl String.eqb. cbv iota. unfold with_writer.
  rewrite (handle_auth_string fs tok _ Hg). unfold try_except.
  rewrite Hreply, write_ok.
  simpl Json.contains. rewrite (dict_mem_get _ _ _ Hg).
  simpl Json.getitem. rewrite Hg. done.
Qed.

Lemma auth_frame_without_token (s : Session) (fs : PyDict.t json)
    (rd : bytes) (reply : bytes) :
  Protocol.unpack_message_from_stream (reader s) = (Ok ("AUTH", JObj fs), rd) →
  PyDict.get "token" fs = None →
  Protocol.create_auth_response false
    "Missing token in authentication request" None = Ok reply →
  handle_frame s
  = Continue {| reader := rd; writer := writer s ++ [reply];
                authenticated_user := authenticated_user s |}.
Proof.
  intros Hread Hg Hreply. unfold TCPServer.handle_frame. rewrite Hread.
  simpl String.eqb. cbv iota. unfold with_writer.
  unfold TCPServer._handle_auth, try_except.
  rewrite st_bind_unfold. unfold lift at 1. simpl Json.get. rewrite Hg.
  simpl. rewrite Hreply, write_ok.
  unfold PyDict.mem. by rewrite Hg.
Qed.

End SessionFacts.

Section SessionClaims.
Import TCPServer.
Context `{JsonLib} `{Backend}.
Variable auth_manager : Auth.AuthManager.
Variable model_router : Router.ModelRouter.

Local Abbreviation handle_frame := (handle_frame auth_manager model_router).

(** Claim C2, as the code has it.  For an AUTH frame whose payload is an
    object: without a [token] key the server replies ARSP{success:false}
    and the bound identity is unchanged; with a string token that does
    not authenticate it replies ARSP{success:false} and the bound
    identity is cleared, whoever was bound before; with a non-empty
    string token that authenticates it replies ARSP{success:true, user}
    and binds that user. *)
Theorem C2_auth_frame_identity (s : Session) (fs : PyDict.t json) (rd : bytes) :
  Protocol.unpack_message_from_stream (reader s) = (Ok ("AUTH", JObj fs), rd) →
  (PyDict.get "token" fs = None →
   ∀ reply,
     Protocol.create_auth_response false
       "Missing token in authentication request" None = Ok reply →
     handle_frame s
     = Continue {| reader := rd; writer := writer s ++ [reply];
                   authenticated_user := authenticated_user s |})
  ∧ (∀ tok,
       PyDict.get "token" fs = Some (JStr tok) →
       Auth.authenticate auth_manager tok = None →
       ∀ reply,
         Protocol.create_auth_response false
           (if PyStr.is_empty tok
            then "Missing token in authentication request"
            else "Invalid authentication token") None = Ok reply →
         handle_frame s
         = Continue {| reader := rd; writer := writer s ++ [reply];
                       authenticated_user := None |})
  ∧ (∀ tok user,
       PyDict.get "token" fs = Some (JStr tok) →
       tok ≠ EmptyString →
       Auth.authenticate auth_manager tok = Some user →
       ∀ reply,
         Protocol.create_auth_response true "Authentication successful"
           (Auth.get_user_info auth_manager tok) = Ok reply →
         handle_frame s
         = Continue {| reader := rd; writer := writer s ++ [reply];
                       authenticated_user := Some user |}).
Proof.
  intros Hread. split; [|split].
  - intros Hg reply Hreply. by apply auth_frame_without_token with fs.
  - intros tok Hg Hnone reply Hreply.
    rewrite <- Hnone. apply auth_frame_rebinds with fs; [done|done|].
    rewrite Hnone. by destruct (PyStr.is_empty tok).
  - intros tok user Hg Hne Hsome reply Hreply.
    rewrite <- Hsome. apply auth_frame_rebinds with fs; [done|done|].
    rewrite Hsome. by destruct tok.
Qed.

(** Claim C8.  On a session with no bound identity, a COMP frame, whatever
    its payload, is answered with ERRO{NOT_AUTHENTICATED}; the loop
    continues (the connection stays open) with the identity still unbound;
    and if the next frame is an AUTH with a known token, the session
    continues with that user bound. *)
Theorem C8_comp_before_auth (s : Session) (payload : json) (rd : bytes)
    (erro : bytes) :
  authenticated_user s = None →
  Protocol.unpack_message_from_stream (reader s) = (Ok ("COMP", payload), rd) →
  Protocol.create_error_response "NOT_AUTHENTICATED"
    "Must authenticate before making completion requests" = Ok erro →
  let s1 := {| reader := rd; writer := writer s ++ [erro];
               authenticated_user := None |} in
  handle_frame s = Continue s1
  ∧ ∀ fs tok user rd2 arsp,
      Protocol.unpack_message_from_stream rd = (Ok ("AUTH", JObj fs), rd2) →
      PyDict.get "token" fs = Some (JStr tok) →
      tok ≠ EmptyString →
      Auth.authenticate auth_manager tok = Some user →
      Protocol.create_auth_response true "Authentication successful"
        (Auth.get_user_info auth_manager tok) = Ok arsp →
      handle_frame s1
      = Continue {| reader := rd2; writer := writer s ++ [erro; arsp];
                    authenticated_user := Some user |}.
Proof.
  intros Hnone Hread Herro s1. split.
  - unfold TCPServer.handle_frame. rewrite Hread. simpl String.eqb. cbv iota.
    rewrite Hnone. unfold with_writer. by rewrite Herro, write_ok, Hnone.
  - intros fs tok user rd2 arsp Hread2 Hg Hne Hsome Harsp.
    rewrite (auth_frame_rebinds auth_manager model_router s1 fs tok rd2 arsp
               Hread2 Hg).
    + simpl. by rewrite Hsome, <- app_assoc.
    + rewrite Hsome. by destruct tok.
Qed.

Lemma unpack_oversized (type_bytes length_bytes rest : bytes) (n : N) :
  length type_bytes = 4%nat →
  forallb PyStr.is_ascii_char type_bytes = true →
  Protocol.struct_unpack_I length_bytes = Ok n →
  (Protocol.MAX_PAYLOAD < n)%N →
  Protocol.unpack_message_from_stream (type_bytes ++ length_bytes ++ rest)
  = (Raise (ValueError ("Payload too large: " +:+ pretty n +:+ " bytes")),
     rest).
Proof.
  intros Htype Hascii Hunpack Hbig.
  assert (length length_bytes = 4%nat) as Hlen.
  { by destruct length_bytes as [|? [|? [|? [|? [|? ?]]]]]. }
  unfold Protocol.unpack_message_from_stream.
  rewrite st_bind_unfold, readexactly_ok by (rewrite Htype; done).
  rewrite Htype, Nat.eqb_refl. change (negb true) with false. cbv iota.
  rewrite st_bind_unfold. unfold lift at 1, Protocol.decode_ascii.
  rewrite Hascii.
  rewrite st_bind_unfold, readexactly_ok by (rewrite Hlen; done).
  rewrite Hlen, Nat.eqb_refl. change (negb true) with false. cbv iota.
  rewrite st_bind_unfold. unfold lift at 1. rewrite Hunpack.
  by destruct (N.ltb_spec Protocol.MAX_PAYLOAD n); [|lia].
Qed.

(** Claim C10.  When the four length bytes of a frame declare more than
    10 MiB, the session replies ERRO{INVALID_FORMAT} and continues its
    loop with the identity unchanged; the reader is left right after the
    eight header bytes, so the declared payload is still in the stream. *)
Theorem C10_oversized_frame_keeps_session (s : Session)
    (type_bytes length_bytes rest : bytes) (n : N) (erro : bytes) :
  reader s = type_bytes ++ length_bytes ++ rest →
  length type_bytes = 4%nat →
  forallb PyStr.is_ascii_char type_bytes = true →
  Protocol.struct_unpack_I length_bytes = Ok n →
  (Protocol.MAX_PAYLOAD < n)%N →
  Protocol.create_error_response "INVALID_FORMAT"
    ("Payload too large: " +:+ pretty n +:+ " bytes") = Ok erro →
  handle_frame s
  = Continue {| reader := rest; writer := writer s ++ [erro];
                authenticated_user := authenticated_user s |}.
Proof.
  intros Hrd Htype Hascii Hunpack Hbig Herro.
  unfold TCPServer.handle_frame.
  rewrite Hrd, (unpack_oversized _ _ _ n) by done.
  simpl isinstance_ConnectionError. simpl isinstance_ValueError. cbv iota.
  unfold with_writer. simpl exn_str. by rewrite Herro, write_ok.
Qed.

End SessionClaims.

Section SessionLoop.
Import TCPServer.
Context `{JsonLib} `{Backend}.
Variable auth_manager : Auth.AuthManager.
Variable model_router : Router.ModelRouter.

Local Abbreviation handle_frame := (handle_frame auth_manager model_router).
Local Abbreviation run := (run auth_manager model_router).

(** Unless the stream ends inside a frame, reading a frame consumes at
    least its four type bytes, also when the frame is rejected. *)
Lemma unpack_progress (rd rd' : bytes) (r : result (string * json)) :
  Protocol.unpack_message_from_stream rd = (r, rd') →
  (∃ p n, r = Raise (IncompleteReadError p n))
  ∨ (length rd' < length rd)%nat.
Proof.
  unfold Protocol.unpack_message_from_stream. rewrite st_bind_unfold.
  destruct (readexactly_cases 4 rd)
    as [(tb & rd1 & -> & Htb & ->) | [-> _]];
    [|intros [= <- <-]; left; eauto].
  assert (length tb = 4%nat) as Hlen4 by lia. rewrite Hlen4.
  rewrite Nat.eqb_refl. change (negb true) with false. cbv iota.
  rewrite st_bind_unfold. unfold lift at 1, Protocol.decode_ascii.
  destruct (forallb _ tb);
    [|intros [= <- <-]; right; rewrite length_app; lia].
  rewrite st_bind_unfold.
  destruct (readexactly_cases 4 rd1)
    as [(lb & rd2 & -> & Hlb & ->) | [-> _]];
    [|intros [= <- <-]; left; eauto].
  assert (length lb = 4%nat) as Hlb4 by lia. rewrite Hlb4.
  rewrite Nat.eqb_refl. change (negb true) with false. cbv iota.
  rewrite st_bind_unfold. unfold lift at 1.
  destruct (Protocol.struct_unpack_I lb) as [n|e];
    [|intros [= <- <-]; right; rewrite !length_app; lia].
  destruct (Protocol.MAX_PAYLOAD <? n)%N;
    [intros [= <- <-]; right; rewrite !length_app; lia|].
  destruct (0 <? n)%N;
    [|intros [= <- <-]; right; rewrite !length_app; lia].
  rewrite st_bind_unfold.
  destruct (readexactly_cases n rd2)
    as [(pb & rd3 & -> & Hpb & ->) | [-> _]];
    [|intros [= <- <-]; left; eauto].
  rewrite Hpb, N.eqb_refl. change (negb true) with false. cbv iota.
  rewrite st_bind_unfold. unfold lift.
  destruct (Protocol.decode_payload pb);
    intros [= <- <-]; right; rewrite !length_app; lia.
Qed.

Lemma with_writer_reader (s s' : Session) (rd : bytes) (m : writer_io unit)
    (k : Session → turn) :
  (∀ x y, k x = Continue y → reader y = reader x) →
  with_writer s rd m k = Continue s' → reader s' = rd.
Proof.
  intros Hk. unfold with_writer. destruct (m (writer s)) as [[[]|e] w]; [|done].
  intros Hc. by rewrite (Hk _ _ Hc).
Qed.

Lemma handle_frame_progress (s s' : Session) :
  handle_frame s = Continue s' →
  (length (reader s') < length (reader s))%nat.
Proof.
  unfold TCPServer.handle_frame.
  destruct (Protocol.unpack_message_from_stream (reader s))
    as [[[msg_type payload]|e] rd] eqn:Hread;
    apply unpack_progress in Hread as [(p & n & Hincomplete)|Hshorter];
    try discriminate Hincomplete.
  - destruct (String.eqb msg_type "AUTH");
      [|destruct (String.eqb msg_type "COMP");
        [destruct (authenticated_user s)|]];
      intros ->%with_writer_reader; try done;
      try (by intros x y [= <-]).
    intros x y.
    destruct (Json.contains "token" payload) as [[]|]; try done.
    + destruct (_ ≫= _) as [u|]; [|done]. by intros [= <-].
    + by intros [= <-].
  - injection Hincomplete as ->. done.
  - destruct (isinstance_ConnectionError e); [done|].
    destruct (isinstance_ValueError e); [|done].
    intros ->%with_writer_reader; [done|]. by intros x y [= <-].
Qed.

(** The read loop ends: on any input, [length input + 1] turns suffice to
    reach a [break] or a fault, after which the connection is closed. *)
Lemma run_terminates (turns : nat) (s : Session) :
  (length (reader s) < turns)%nat →
  ∃ t, run turns s = Some t ∧ ∀ s', t ≠ Continue s'.
Proof.
  revert s. induction turns as [|turns IH]; intros s Hlen; [lia|].
  simpl. destruct (handle_frame s) as [s'|s'|e s'] eqn:Hstep.
  - apply IH. apply handle_frame_progress in Hstep. lia.
  - eexists. split; [done|]. done.
  - eexists. split; [done|]. done.
Qed.

Lemma handle_client_total (input : bytes) :
  ∃ t, _handle_client auth_manager model_router input = Some t
       ∧ ∀ s', t ≠ Continue s'.
Proof. apply run_terminates. simpl. lia. Qed.

End SessionLoop.

Section SessionExamples.
Import TCPServer.
#[local] Existing Instance RefJson.lib.
#[local] Existing Instance Fixture.backend.

Local Abbreviation step := (handle_frame Fixture.fresh Fixture.router).

(** On a session bound to Alice: an AUTH without token leaves Alice
    bound, an AUTH with an unknown token unbinds her, an AUTH with Bob's
    token binds Bob. *)
Lemma C2_auth_frame_identity_witness :
  let bad := JObj [("token", JStr "wrong")] in
  let good := JObj [("token", JStr "tok-bob")] in
  let session payload :=
    {| reader := Fixture.frame "AUTH" payload; writer := [];
       authenticated_user := Some Fixture.alice |} in
  step (session (JObj []))
  = Continue {| reader := [];
                writer := [Fixture.frame "ARSP"
                             (JObj [("success", JBool false);
                                    ("message", JStr "Missing token in authentication request")])];
                authenticated_user := Some Fixture.alice |}
  ∧ step (session bad)
    = Continue {| reader := [];
                  writer := [Fixture.frame "ARSP"
                               (JObj [("success", JBool false);
                                      ("message", JStr "Invalid authentication token")])];
                  authenticated_user := None |}
  ∧ authenticated_user <$>
      (match step (session good) with Continue s' => Some s' | _ => None end)
    = Some (Some Fixture.bob).
Proof.
  intros bad good session. split; [|split].
  - refine (proj1 (C2_auth_frame_identity Fixture.fresh Fixture.router
                     (session (JObj [])) [] [] _) _ _ _); reflexivity.
  - assert (Protocol.unpack_message_from_stream (reader (session bad))
            = (Ok ("AUTH", bad), [])) as Hread by reflexivity.
    destruct (C2_auth_frame_identity Fixture.fresh Fixture.router
                (session bad) [("token", JStr "wrong")] [] Hread)
      as (_ & Hfail & _).
    apply (Hfail "wrong"); reflexivity.
  - assert (Protocol.unpack_message_from_stream (reader (session good))
            = (Ok ("AUTH", good), [])) as Hread by reflexivity.
    destruct (C2_auth_frame_identity Fixture.fresh Fixture.router
                (session good) [("token", JStr "tok-bob")] [] Hread)
      as (_ & _ & Hok).
    erewrite (Hok "tok-bob" Fixture.bob); [reflexivity | reflexivity | discriminate | reflexivity | reflexivity].
Defined.

(** Claim C2, as stated, fails: on a session bound to Alice, an AUTH frame
    with an unknown token is answered ARSP{success:false} and leaves the
    session with no identity. *)
Lemma C2_failed_auth_clears_identity :
  let s := {| reader := Fixture.frame "AUTH" (JObj [("token", JStr "wrong")]);
              writer := [];
              authenticated_user := Some Fixture.alice |} in
  Auth.authenticate Fixture.fresh "wrong" = None
  ∧ step s
    = Continue {| reader := [];
                  writer := [Fixture.frame "ARSP"
                               (JObj [("success", JBool false);
                                      ("message", JStr "Invalid authentication token")])];
                  authenticated_user := None |}
  ∧ authenticated_user s = Some Fixture.alice.
Proof. repeat split; reflexivity. Qed.

(** A new session that receives a COMP frame and then Alice's AUTH
    frame. *)
Lemma C8_comp_before_auth_witness :
  let comp := Fixture.frame "COMP" (JObj [("model", JStr "llama3")]) in
  let auth := Fixture.frame "AUTH" (JObj [("token", JStr "tok-alice")]) in
  let erro := Fixture.frame "ERRO"
                (JObj [("code", JStr "NOT_AUTHENTICATED");
                       ("message", JStr "Must authenticate before making completion requests")]) in
  let s := {| reader := comp ++ auth; writer := [];
              authenticated_user := None |} in
  let s1 := {| reader := auth; writer := [erro];
               authenticated_user := None |} in
  step s = Continue s1
  ∧ ∃ arsp, step s1 = Continue {| reader := []; writer := [erro; arsp];
                                  authenticated_user := Some Fixture.alice |}.
Proof.
  intros comp auth erro s s1.
  assert (Protocol.unpack_message_from_stream (reader s)
          = (Ok ("COMP", JObj [("model", JStr "llama3")]), auth))
    as Hread by reflexivity.
  assert (Protocol.create_error_response "NOT_AUTHENTICATED"
            "Must authenticate before making completion requests" = Ok erro)
    as Herro by reflexivity.
  destruct (C8_comp_before_auth Fixture.fresh Fixture.router s
              (JObj [("model", JStr "llama3")]) auth erro
              eq_refl Hread Herro) as [Hfirst Hthen].
  split; [exact Hfirst|].
  eexists. eapply (Hthen [("token", JStr "tok-alice")] "tok-alice" Fixture.alice []);
    [reflexivity | reflexivity | discriminate | reflexivity | reflexivity].
Defined.

(** A COMP header announcing 10 485 761 payload bytes, followed by three
    bytes: the reply is INVALID_FORMAT and the three bytes are the next
    thing the loop reads. *)
Lemma C10_oversized_frame_keeps_session_witness :
  let header := ["C"; "O"; "M"; "P"; "000"; "160"; "000"; "001"]%char in
  let rest := ["{"; "}"; "x"]%char in
  let s := {| reader := header ++ rest; writer := [];
              authenticated_user := Some Fixture.alice |} in
  step s
  = Continue {| reader := rest;
                writer := [Fixture.frame "ERRO"
                             (JObj [("code", JStr "INVALID_FORMAT");
                                    ("message", JStr "Payload too large: 10485761 bytes")])];
                authenticated_user := Some Fixture.alice |}.
Proof.
  intros header rest s.
  apply (C10_oversized_frame_keeps_session Fixture.fresh Fixture.router s
           ["C"; "O"; "M"; "P"]%char ["000"; "160"; "000"; "001"]%char
           rest 10485761%N);
    [reflexivity | reflexivity | reflexivity | reflexivity | reflexivity
    | reflexivity].
Defined.

End SessionExamples.


(* ===================================================================== *)
(** * Properties of the HTTP and WebSocket bridge *)
(* ===================================================================== *)

Section BridgeFacts.
Import HTTPBridge.
Context `{Backend}.
Variable model_router : Router.ModelRouter.
Variable completion_id : string.
Variable now : Q.

Local Abbreviation chat_completions :=
  (chat_completions model_router completion_id now).
Local Abbreviation _stream_chat_completion :=
  (_stream_chat_completion completion_id now).
Local Abbreviation _complete_chat_completion :=
  (_complete_chat_completion completion_id now).

(** The admission order of the HTTP route: 401 before anything else and
    without touching the rate window, then 429, then 403, then 404. *)
Lemma http_unauthenticated (am : Auth.AuthManager)
    (request : ChatCompletionRequest) (tok : string) :
  Auth.authenticate am tok = None →
  chat_completions am request tok
  = (HTTPException 401 "Invalid authentication token", am).
Proof. intros Hu. unfold HTTPBridge.chat_completions. by rewrite Hu. Qed.

Lemma http_rate_limited (am : Auth.AuthManager)
    (request : ChatCompletionRequest) (tok : string) (user : Auth.User) :
  Auth.authenticate am tok = Some user →
  fst (Auth.check_rate_limit am now tok) = false →
  fst (chat_completions am request tok)
  = HTTPException 429 "Rate limit exceeded. Please try again later.".
Proof.
  intros Hu Hr. unfold HTTPBridge.chat_completions. rewrite Hu.
  destruct (Auth.check_rate_limit am now tok) as [allowed am'].
  simpl in Hr. by rewrite Hr.
Qed.

Lemma http_unauthorized (am : Auth.AuthManager)
    (request : ChatCompletionRequest) (tok : string) (user : Auth.User) :
  Auth.authenticate am tok = Some user →
  fst (Auth.check_rate_limit am now tok) = true →
  model request ∉ Auth.permissions user →
  fst (chat_completions am request tok)
  = HTTPException 403
      ("User not authorized to use model: " +:+ model request).
Proof.
  intros Hu Hr Hperm. unfold HTTPBridge.chat_completions. rewrite Hu.
  pose proof (check_rate_limit_users am now tok) as Husers.
  destruct (Auth.check_rate_limit am now tok) as [allowed am'].
  simpl in Hr, Husers. rewrite Hr. simpl.
  unfold Auth.is_authorized, Auth.authenticate. rewrite Husers.
  unfold Auth.authenticate in Hu. rewrite Hu. simpl.
  by rewrite bool_decide_eq_false_2.
Qed.

Lemma buffered_failure (provider : Router.BaseProvider) (msgs settings : json)
    (model : string) (e : exn) :
  failure (stream_completion provider msgs settings) = Some e →
  _complete_chat_completion provider msgs settings model = Raise e.
Proof.
  intros Hf. unfold HTTPBridge._complete_chat_completion. by rewrite Hf.
Qed.

(** A buffered request that is admitted and whose provider fails is
    answered with status 500, never with a completion body. *)
Lemma http_buffered_failure (am : Auth.AuthManager)
    (request : ChatCompletionRequest) (tok : string) (user : Auth.User)
    (provider : Router.BaseProvider) (e : exn) :
  Auth.authenticate am tok = Some user →
  fst (Auth.check_rate_limit am now tok) = true →
  model request ∈ Auth.permissions user →
  Router.get_provider_for_model model_router (model request) = Some provider →
  default false (stream request) = false →
  failure (stream_completion provider (request_messages request)
             (request_settings request)) = Some e →
  fst (chat_completions am request tok)
  = HTTPException 500 ("Error generating completion: " +:+ exn_str e).
Proof.
  intros Hu Hr Hperm Hprov Hstream Hfail.
  unfold HTTPBridge.chat_completions. rewrite Hu.
  pose proof (check_rate_limit_users am now tok) as Husers.
  destruct (Auth.check_rate_limit am now tok) as [allowed am'].
  simpl in Hr, Husers. rewrite Hr. simpl.
  unfold Auth.is_authorized, Auth.authenticate. rewrite Husers.
  unfold Auth.authenticate in Hu. rewrite Hu. simpl.
  rewrite bool_decide_eq_true_2 by done. simpl.
  rewrite Hprov, Hstream.
  by rewrite (buffered_failure _ _ _ _ e Hfail).
Qed.


End BridgeFacts.

Section WebSocketFacts.
Import HTTPBridge.
Context `{JsonLib} `{Backend}.
Variable model_router : Router.ModelRouter.
Variable completion_id : string.
Variable now : Q.

Local Abbreviation ws_message := (ws_message model_router completion_id now).

(** The admission order of the WebSocket loop: an unknown token is
    answered with an authentication error and the rate window is not
    touched; a known caller over its limit gets a rate-limit error before
    the requested model is even read. *)
Lemma ws_unauthenticated (fs : PyDict.t json) (tok : string) (s : WsState) :
  PyDict.get "token" fs = Some (JStr tok) →
  tok ≠ EmptyString →
  Auth.authenticate (manager s) tok = None →
  ws_message (JObj fs) s
  = (Ok (), {| sent := sent s ++ [ws_error "Invalid token"
                                     "authentication_error"];
               manager := manager s |}).
Proof.
  intros Hg Hne Hu. unfold HTTPBridge.ws_message.
  rewrite st_bind_unfold. unfold lift at 1. simpl Json.get. rewrite Hg.
  change (default JNull (Some (JStr tok))) with (JStr tok).
  change (Json.truthy (JStr tok)) with (negb (PyStr.is_empty tok)).
  rewrite negb_involutive.
  destruct tok as [|c tok]; [done|].
  change (PyStr.is_empty (String c tok)) with false. cbv iota.
  rewrite st_bind_unfold. unfold ws_authenticate at 1.
  simpl Auth.authenticate_dyn. by rewrite Hu.
Qed.

Lemma ws_rate_limited (fs : PyDict.t json) (tok : string) (s : WsState)
    (user : Auth.User) :
  PyDict.get "token" fs = Some (JStr tok) →
  tok ≠ EmptyString →
  Auth.authenticate (manager s) tok = Some user →
  fst (Auth.check_rate_limit (manager s) now tok) = false →
  ws_message (JObj fs) s
  = (Ok (), {| sent := sent s ++ [ws_error "Rate limit exceeded"
                                     "rate_limit_error"];
               manager := snd (Auth.check_rate_limit (manager s) now tok) |}).
Proof.
  intros Hg Hne Hu Hr. unfold HTTPBridge.ws_message.
  rewrite st_bind_unfold. unfold lift at 1. simpl Json.get. rewrite Hg.
  change (default JNull (Some (JStr tok))) with (JStr tok).
  change (Json.truthy (JStr tok)) with (negb (PyStr.is_empty tok)).
  rewrite negb_involutive.
  destruct tok as [|c tok]; [done|].
  change (PyStr.is_empty (String c tok)) with false. cbv iota.
  rewrite st_bind_unfold. unfold ws_authenticate at 1.
  simpl Auth.authenticate_dyn. rewrite Hu.
  rewrite st_bind_unfold. unfold ws_check_rate_limit at 1.
  destruct (Auth.check_rate_limit (manager s) now (String c tok))
    as [allowed am']. simpl in Hr. by rewrite Hr.
Qed.

End WebSocketFacts.

Section AdmissionExamples.
Import TCPServer HTTPBridge.
#[local] Existing Instance RefJson.lib.
#[local] Existing Instance Fixture.backend.


(** The TCP read loop never consults the rate-limit windows. *)
Lemma handle_frame_ignores_rate_windows `{JsonLib} `{Backend}
    (am am' : Auth.AuthManager) (router : Router.ModelRouter) (s : Session) :
  Auth.users am = Auth.users am' →
  handle_frame am router s = handle_frame am' router s.
Proof.
  destruct am as [u t], am' as [u' t']. simpl. intros <-. reflexivity.
Qed.

(** Claim C1 on the code.  Alice (limit 1 per minute) was served at
    [t = 100]; at [t = 101] she is over her limit.  The HTTP route answers
    429 and the WebSocket loop a rate-limit error, but a TCP session bound
    to Alice is served the completion, for one COMP frame and for the
    next: the TCP admission path makes no rate-limit check, and a turn of
    the TCP loop is the same whatever the rate windows hold. *)
Theorem C1_tcp_completion_skips_rate_limit :
  let am := Fixture.busy in
  let now := 101%Q in
  let comp := JObj [("model", JStr "llama3")] in
  let chunk content final :=
    Fixture.frame "CHNK" (JObj [("content", JStr content);
                                ("final", JBool final)]) in
  Auth.authenticate am "tok-alice" = Some Fixture.alice
  ∧ fst (Auth.check_rate_limit am now "tok-alice") = false
  ∧ fst (post_chat_completions Fixture.router "chatcmpl-1" now am
           (Some "Bearer tok-alice") (Fixture.request "llama3" false))
    = HTTPException 429 "Rate limit exceeded. Please try again later."
  ∧ sent (snd (ws_message Fixture.router "chatcmpl-1" now
                 (JObj [("token", JStr "tok-alice");
                        ("model", JStr "llama3")])
                 {| sent := []; manager := am |}))
    = [ws_error "Rate limit exceeded" "rate_limit_error"]
  ∧ handle_frame am Fixture.router
      {| reader := Fixture.frame "COMP" comp ++ Fixture.frame "COMP" comp;
         writer := [];
         authenticated_user := Some Fixture.alice |}
    = Continue
        {| reader := Fixture.frame "COMP" comp;
           writer := [chunk "Hello" false; chunk " world" false;
                      chunk "" true];
           authenticated_user := Some Fixture.alice |}
  ∧ handle_frame am Fixture.router
      {| reader := Fixture.frame "COMP" comp;
         writer := [];
         authenticated_user := Some Fixture.alice |}
    = Continue
        {| reader := [];
           writer := [chunk "Hello" false; chunk " world" false;
                      chunk "" true];
           authenticated_user := Some Fixture.alice |}
  ∧ ∀ windows s,
      handle_frame {| Auth.users := Auth.users am;
                      Auth.rate_limit_tracker := windows |} Fixture.router s
      = handle_frame am Fixture.router s.
Proof.
  intros am now comp chunk.
  split; [reflexivity|]. split; [reflexivity|]. split; [reflexivity|].
  split; [reflexivity|]. split; [reflexivity|]. split; [reflexivity|].
  intros windows s. by apply handle_frame_ignores_rate_windows.
Qed.

End AdmissionExamples.


(* ===================================================================== *)
(** * The frame codec, byte by byte *)
(* ===================================================================== *)

Section CodecLayout.
Import Protocol.
Context `{JsonLib}.

(** A frame whose length field is zero decodes to the empty object; the
    JSON library is not consulted and the bytes after the eight header
    bytes are left in the stream. *)
Theorem unpack_empty_payload (type_bytes rest : bytes) :
  length type_bytes = 4%nat →
  forallb PyStr.is_ascii_char type_bytes = true →
  unpack_message_from_stream
    (type_bytes ++ ["000"; "000"; "000"; "000"]%char ++ rest)
  = (Ok (PyStr.rstrip (string_of_list_ascii type_bytes), JObj []), rest).
Proof.
  intros Hlen Hascii. unfold unpack_message_from_stream.
  rewrite st_bind_unfold, readexactly_ok by (rewrite Hlen; done).
  rewrite Hlen, Nat.eqb_refl. change (negb true) with false. cbv iota.
  rewrite st_bind_unfold. unfold lift at 1, decode_ascii. rewrite Hascii.
  rewrite st_bind_unfold.
  rewrite (readexactly_ok 4 ["000"; "000"; "000"; "000"]%char rest) by done.
  reflexivity.
Qed.

(** [struct.pack('>I', _)] and [struct.unpack('>I', _)] are inverse
    bijections between the numbers below 2^32 and the 4-byte strings;
    packing a larger number raises. *)
Theorem struct_I_bijection (n : N) (b : bytes) :
  ((n < 2 ^ 32)%N →
     ∃ b', struct_pack_I n = Ok b' ∧ length b' = 4%nat
           ∧ struct_unpack_I b' = Ok n)
  ∧ ((2 ^ 32 ≤ n)%N → struct_pack_I n = Raise StructError)
  ∧ (struct_unpack_I b = Ok n →
       (n < 2 ^ 32)%N ∧ length b = 4%nat ∧ struct_pack_I n = Ok b)
  ∧ (length b ≠ 4%nat → struct_unpack_I b = Raise StructError).
Proof.
  split; [apply struct_pack_unpack|]. split; [|split].
  - intros Hbig. unfold struct_pack_I.
    by destruct (N.ltb_spec n (2 ^ 32)); [lia|].
  - destruct b as [|b0 [|b1 [|b2 [|b3 [|? ?]]]]]; try done.
    unfold struct_unpack_I. intros [= <-].
    pose proof (N_ascii_bounded b0) as H0. pose proof (N_ascii_bounded b1) as H1.
    pose proof (N_ascii_bounded b2) as H2. pose proof (N_ascii_bounded b3) as H3.
    unfold byte_val.
    set (v0 := N_of_ascii b0) in *. set (v1 := N_of_ascii b1) in *.
    set (v2 := N_of_ascii b2) in *. set (v3 := N_of_ascii b3) in *.
    change (2 ^ 32)%N with 4294967296%N. change (2 ^ 24)%N with 16777216%N.
    change (2 ^ 16)%N with 65536%N. change (2 ^ 8)%N with 256%N.
    set (n := (v0 * 16777216 + v1 * 65536 + v2 * 256 + v3)%N).
    assert (n < 4294967296)%N as Hn by (subst n; lia).
    split; [done|]. split; [done|].
    unfold struct_pack_I. change (2 ^ 32)%N with 4294967296%N.
    destruct (N.ltb_spec n 4294967296); [|lia].
    change (2 ^ 24)%N with 16777216%N.
    change (2 ^ 16)%N with 65536%N. change (2 ^ 8)%N with 256%N.
    assert (n / 16777216 = v0)%N as ->.
    { symmetry. apply (N.div_unique n 16777216 v0 (v1 * 65536 + v2 * 256 + v3));
        subst n; lia. }
    assert ((n / 65536) mod 256 = v1)%N as ->.
    { assert (n / 65536 = v0 * 256 + v1)%N as ->.
      { symmetry. apply (N.div_unique n 65536 _ (v2 * 256 + v3)); subst n; lia. }
      symmetry. apply (N.mod_unique _ 256 v0 v1); lia. }
    assert ((n / 256) mod 256 = v2)%N as ->.
    { assert (n / 256 = v0 * 65536 + v1 * 256 + v2)%N as ->.
      { symmetry. apply (N.div_unique n 256 _ v3); subst n; lia. }
      symmetry. apply (N.mod_unique _ 256 (v0 * 256 + v1) v2); lia. }
    assert (n mod 256 = v3)%N as ->.
    { symmetry. apply (N.mod_unique n 256 (v0 * 65536 + v1 * 256 + v2) v3);
        subst n; lia. }
    subst v0 v1 v2 v3. by rewrite !ascii_N_embedding.
  - intros Hlen. by destruct b as [|b0 [|b1 [|b2 [|b3 [|? ?]]]]].
Qed.

End CodecLayout.

Section FrameLayout.
Import Protocol.
Context `{JsonLib}.


End FrameLayout.

Section FrameRecovery.
Import TCPServer.
Context `{JsonLib} `{Backend}.
Variable auth_manager : Auth.AuthManager.
Variable model_router : Router.ModelRouter.


(** Type bytes outside ASCII are rejected before the length is read: the
    loop answers ERRO{INVALID_FORMAT} and goes on reading four bytes
    further, so the length and payload bytes of the rejected frame are
    parsed as the next frame. *)
Theorem non_ascii_type_bytes_desynchronise (s : Session)
    (type_bytes rest : bytes) (erro : bytes) :
  reader s = type_bytes ++ rest →
  length type_bytes = 4%nat →
  forallb PyStr.is_ascii_char type_bytes = false →
  Protocol.create_error_response "INVALID_FORMAT"
    (exn_str UnicodeDecodeError) = Ok erro →
  Protocol.unpack_message_from_stream (reader s)
  = (Raise UnicodeDecodeError, rest)
  ∧ handle_frame auth_manager model_router s
    = Continue {| reader := rest; writer := writer s ++ [erro];
                  authenticated_user := authenticated_user s |}.
Proof.
  intros Hrd Htype Hascii Herro.
  assert (Protocol.unpack_message_from_stream (reader s)
          = (Raise UnicodeDecodeError, rest)) as Hread.
  { rewrite Hrd. unfold Protocol.unpack_message_from_stream.
    rewrite st_bind_unfold, readexactly_ok by (rewrite Htype; done).
    rewrite Htype, Nat.eqb_refl. change (negb true) with false. cbv iota.
    rewrite st_bind_unfold. unfold lift at 1, Protocol.decode_ascii.
    by rewrite Hascii. }
  split; [done|].
  unfold TCPServer.handle_frame. rewrite Hread.
  simpl isinstance_ConnectionError. simpl isinstance_ValueError. cbv iota.
  unfold with_writer. by rewrite Herro, write_ok.
Qed.

End FrameRecovery.


(* ===================================================================== *)
(** * Rate windows over time *)
(* ===================================================================== *)

Section AuthWindows.
Import Auth.

Lemma check_rate_limit_other (am : AuthManager) (now : Q)
    (tok other : string) :
  other ≠ tok →
  tracker_get (snd (check_rate_limit am now tok)) other
  = tracker_get am other.
Proof.
  intros Hne. unfold check_rate_limit.
  destruct (authenticate am tok); [|done].
  destruct (_parse_rate_limit _) as [limit period].
  destruct (_ <=? _)%Z; simpl;
    rewrite ?tracker_get_set_ne by done; by rewrite ?tracker_get_set_ne.
Qed.

(** A call touches nothing but the caller's own window: the user table and
    every other token's window are as before; a call with an unknown
    token changes nothing at all. *)
Theorem check_rate_limit_frame (am : AuthManager) (now : Q) (tok other : string) :
  let am' := snd (check_rate_limit am now tok) in
  users am' = users am
  ∧ (other ≠ tok → tracker_get am' other = tracker_get am other)
  ∧ (authenticate am tok = None → am' = am).
Proof.
  intros am'. split; [apply check_rate_limit_users|]. split.
  - apply check_rate_limit_other.
  - intros Hu. subst am'. by rewrite check_rate_limit_unknown.
Qed.

(** Whatever the [rate_limit] string, the period is one of the four table
    values; the limit can be zero or negative, and then every call of the
    user is rejected. *)
Theorem non_positive_limit_rejects (am : AuthManager) (now : Q) (tok : string)
    (user : User) :
  authenticate am tok = Some user →
  snd (_parse_rate_limit (rate_limit user)) ∈ [1; 60; 3600; 86400]%Z
  ∧ ((fst (_parse_rate_limit (rate_limit user)) ≤ 0)%Z →
     fst (check_rate_limit am now tok) = false).
Proof.
  intros Hu. split.
  - unfold _parse_rate_limit.
    destruct (PyStr.split _ _) as [|l [|u [|? ?]]]; simpl;
      try (apply list_elem_of_further, list_elem_of_here).
    destruct (PyStr.int l); simpl;
      [|apply list_elem_of_further, list_elem_of_here].
    unfold time_multipliers. simpl.
    repeat match goal with
    | |- context [String.eqb u ?k] => destruct (String.eqb u k); simpl
    end;
    repeat first [apply list_elem_of_here | apply list_elem_of_further].
  - intros Hlim.
    destruct (_parse_rate_limit (rate_limit user)) as [limit period] eqn:Hp.
    rewrite (check_rate_limit_known am now tok user limit period Hu Hp).
    unfold Spec.store, Spec.sliding_window. simpl in *.
    destruct (Z.leb_spec limit (Z.of_nat (length (List.filter
      (λ t, negb (Qle_bool t (now - inject_Z period))) (tracker_get am tok)))));
      [done|lia].
Qed.

Lemma filter_none_bool {A} (p : A → bool) (l : list A) :
  Forall (λ x, p x = false) l → List.filter p l = [].
Proof.
  induction 1 as [|x l Hx _ IH]; simpl; [done|]. by rewrite Hx.
Qed.

(** The limit heals by itself: once every stored timestamp is at least one
    period old, a user with a positive limit is allowed again and the
    window restarts with the current time alone. *)
Theorem rate_window_self_heals (am : AuthManager) (now : Q) (tok : string)
    (user : User) (limit period : Z) :
  authenticate am tok = Some user →
  _parse_rate_limit (rate_limit user) = (limit, period) →
  (1 ≤ limit)%Z →
  Forall (λ t, (t <= now - inject_Z period)%Q) (tracker_get am tok) →
  check_rate_limit am now tok = (true, tracker_set am tok [now]).
Proof.
  intros Hu Hp Hlim Hold.
  rewrite (check_rate_limit_known am now tok user limit period Hu Hp).
  unfold Spec.store, Spec.sliding_window.
  rewrite filter_none_bool.
  - change (Z.of_nat (@length Q [])) with 0%Z.
    destruct (Z.leb_spec limit 0); [lia|done].
  - eapply Forall_impl; [exact Hold|]. intros t Ht. simpl.
    apply negb_false_iff. by apply Qle_bool_iff.
Qed.

End AuthWindows.

Section RateGuarantee.
Import Auth AuthTrace.

Lemma after_calls_app (am : AuthManager) (l1 l2 : list (Q * string)) :
  after_calls am (l1 ++ l2) = after_calls (after_calls am l1) l2.
Proof. unfold after_calls. apply fold_left_app. Qed.

Lemma accepted_times_app (am : AuthManager) (l1 l2 : list (Q * string))
    (tok : string) :
  accepted_times am (l1 ++ l2) tok
  = accepted_times am l1 tok ++ accepted_times (after_calls am l1) l2 tok.
Proof.
  revert am. induction l1 as [|[now t] l1 IH]; intros am; [done|].
  simpl. rewrite IH. by rewrite app_assoc.
Qed.

Lemma filter_filter_weaker {A} (p q : A → bool) (l : list A) :
  (∀ a, q a = true → p a = true) →
  List.filter q (List.filter p l) = List.filter q l.
Proof.
  intros Hpq. induction l as [|a l IH]; simpl; [done|].
  destruct (p a) eqn:Hp; simpl.
  - by rewrite IH.
  - destruct (q a) eqn:Hq; [|done]. apply Hpq in Hq. congruence.
Qed.

Lemma Qltb_weaker (c c' a : Q) :
  (c <= c')%Q → Qltb c' a = true → Qltb c a = true.
Proof. rewrite !Qltb_lt. intros. lra. Qed.

Lemma clock_monotone_prefix (l1 l2 : list (Q * string)) :
  clock_monotone (l1 ++ l2) → clock_monotone l1.
Proof.
  intros Hm i j t1 t2 Hij H1 H2. apply (Hm i j t1 t2 Hij).
  - destruct (l1 !! i) as [x|] eqn:E; [|done].
    by rewrite (lookup_app_l_Some _ _ _ _ E).
  - destruct (l1 !! j) as [x|] eqn:E; [|done].
    by rewrite (lookup_app_l_Some _ _ _ _ E).
Qed.

Lemma clock_monotone_last (l : list (Q * string)) (now : Q) (tok : string) :
  clock_monotone (l ++ [(now, tok)]) →
  ∀ x, x ∈ l → (fst x <= now)%Q.
Proof.
  intros Hm x [i Hi]%list_elem_of_lookup.
  apply (Hm i (length l) (fst x) now).
  - apply lookup_lt_Some in Hi. lia.
  - by rewrite (lookup_app_l_Some _ _ _ _ Hi).
  - by rewrite list_lookup_middle.
Qed.

(** Under a monotone clock the stored window, pruned at any later time,
    is the pruned list of allowed calls. *)
Lemma window_is_pruned_history (am : AuthManager) (calls : list (Q * string))
    (tok : string) (user : User) (limit period : Z) :
  authenticate am tok = Some user →
  _parse_rate_limit (rate_limit user) = (limit, period) →
  tracker_get am tok = [] →
  clock_monotone calls →
  ∀ later,
    (∀ x, x ∈ calls → (fst x <= later)%Q) →
    List.filter (Qltb (later - inject_Z period))
      (tracker_get (after_calls am calls) tok)
    = List.filter (Qltb (later - inject_Z period))
        (accepted_times am calls tok).
Proof.
  intros Hu Hp Hempty.
  induction calls as [|[now t] calls IH] using rev_ind; intros Hm later Hlater.
  { simpl. by rewrite Hempty. }
  specialize (IH (clock_monotone_prefix _ _ Hm)).
  pose proof (clock_monotone_last _ _ _ Hm) as Hnow.
  assert (now <= later)%Q as Hnl.
  { apply (Hlater (now, t)). apply elem_of_app. right. by left. }
  rewrite after_calls_app, accepted_times_app. simpl.
  set (am1 := after_calls am calls).
  assert (authenticate am1 tok = Some user) as Hu1.
  { unfold authenticate, am1. by rewrite after_calls_users. }
  destruct (String.eqb_spec t tok) as [->|Hne].
  - rewrite (check_rate_limit_known am1 now tok user limit period Hu1 Hp).
    unfold Spec.store, Spec.sliding_window. simpl fst. simpl snd.
    fold (Qltb (now - inject_Z period)).
    change (λ t0 : Q, negb (Qle_bool t0 (now - inject_Z period)))
      with (Qltb (now - inject_Z period)).
    set (kept := List.filter (Qltb (now - inject_Z period)) (tracker_get am1 tok)).
    assert (List.filter (Qltb (later - inject_Z period)) kept
            = List.filter (Qltb (later - inject_Z period))
                (accepted_times am calls tok)) as Hkept.
    { unfold kept. rewrite filter_filter_weaker.
      - apply IH. intros x Hx. pose proof (Hnow x Hx). lra.
      - intros a. apply Qltb_weaker. lra. }
    destruct (limit <=? Z.of_nat (length kept))%Z; simpl;
      rewrite tracker_get_set, ?app_nil_r; [done|].
    by rewrite !List.filter_app, Hkept.
  - rewrite andb_false_r, !app_nil_r.
    rewrite check_rate_limit_other by done. apply IH.
    intros x Hx. pose proof (Hnow x Hx). lra.
Qed.

(** The guarantee of the sliding window.  If the clock never goes back and
    the caller's window starts empty, then whenever a call is allowed, the
    calls allowed for this caller during the last period, this one
    included, are at most [limit]. *)
Theorem rate_limit_bounds_allowed_calls (am : AuthManager)
    (earlier : list (Q * string)) (now : Q) (tok : string) (user : User)
    (limit period : Z) :
  authenticate am tok = Some user →
  _parse_rate_limit (rate_limit user) = (limit, period) →
  tracker_get am tok = [] →
  clock_monotone (earlier ++ [(now, tok)]) →
  fst (check_rate_limit (after_calls am earlier) now tok) = true →
  (Z.of_nat (length (List.filter (Qltb (now - inject_Z period))
                       (accepted_times am (earlier ++ [(now, tok)]) tok)))
   ≤ limit)%Z.
Proof.
  intros Hu Hp Hempty Hm Hallowed.
  pose proof (window_is_pruned_history am earlier tok user limit period
                Hu Hp Hempty (clock_monotone_prefix _ _ Hm) now
                (clock_monotone_last _ _ _ Hm)) as Hinv.
  rewrite accepted_times_app, List.filter_app, <- Hinv. simpl.
  rewrite Hallowed, String.eqb_refl. simpl.
  set (am1 := after_calls am earlier) in *.
  assert (authenticate am1 tok = Some user) as Hu1.
  { unfold authenticate, am1. by rewrite after_calls_users. }
  rewrite (check_rate_limit_known am1 now tok user limit period Hu1 Hp)
    in Hallowed.
  unfold Spec.store, Spec.sliding_window in Hallowed. simpl in Hallowed.
  change (λ t0 : Q, negb (Qle_bool t0 (now - inject_Z period)))
    with (Qltb (now - inject_Z period)) in Hallowed.
  destruct (Z.leb_spec limit (Z.of_nat (length (List.filter
             (Qltb (now - inject_Z period)) (tracker_get am1 tok)))));
    [done|].
  rewrite length_app. simpl.
  destruct (Qltb (now - inject_Z period) now); simpl; lia.
Qed.

End RateGuarantee.

Lemma rate_limit_bounds_allowed_calls_witness :
  let calls := [(0%Q, "tok-alice"); (30%Q, "tok-bob"); (59%Q, "tok-alice")] in
  AuthTrace.accepted_times Fixture.fresh (calls ++ [(61%Q, "tok-alice")])
    "tok-alice" = [0%Q; 61%Q]
  ∧ (Z.of_nat (length (List.filter (Auth.Qltb (61 - inject_Z 60))
        (AuthTrace.accepted_times Fixture.fresh
           (calls ++ [(61%Q, "tok-alice")]) "tok-alice"))) ≤ 1)%Z.
Proof.
  intros calls. split; [reflexivity|].
  apply (rate_limit_bounds_allowed_calls Fixture.fresh calls 61 "tok-alice"
           Fixture.alice 1 60); try reflexivity.
  intros i j t1 t2 Hij H1 H2.
  destruct i as [|[|[|[|i]]]]; destruct j as [|[|[|[|j]]]];
    simpl in H1, H2; try discriminate; try lia;
    injection H1 as <-; injection H2 as <-; by vm_compute.
Defined.


(* ===================================================================== *)
(** * The router's dictionaries *)
(* ===================================================================== *)

Section DictLaws.
Context {A : Type}.
Implicit Types (d : PyDict.t A) (k : string) (v : A).

Lemma dict_get_set_eq k v d : PyDict.get k (PyDict.set k v d) = Some v.
Proof.
  induction d as [|[k' v'] d IH]; simpl.
  - by rewrite String.eqb_refl.
  - destruct (String.eqb_spec k k') as [->|Hne]; simpl.
    + by rewrite String.eqb_refl.
    + destruct (String.eqb_spec k k'); [done|]. exact IH.
Qed.

Lemma dict_get_set_ne k k' v d :
  k ≠ k' → PyDict.get k' (PyDict.set k v d) = PyDict.get k' d.
Proof.
  intros Hne. induction d as [|[k0 v0] d IH]; simpl.
  - by destruct (String.eqb_spec k' k) as [->|_].
  - destruct (String.eqb_spec k k0) as [->|Hk]; simpl.
    + destruct (String.eqb_spec k' k0); [congruence|done].
    + destruct (String.eqb_spec k' k0); [done|]. exact IH.
Qed.

Lemma dict_keys_set_mem k v d :
  k ∈ PyDict.keys d → PyDict.keys (PyDict.set k v d) = PyDict.keys d.
Proof.
  unfold PyDict.keys. induction d as [|[k' v'] d IH]; simpl.
  - by intros ?%elem_of_nil.
  - destruct (String.eqb_spec k k') as [->|Hne]; [done|].
    intros [?|Hin]%elem_of_cons; [done|]. simpl. f_equal. by apply IH.
Qed.

Lemma dict_keys_set_NoDup k v d :
  NoDup (PyDict.keys d) → NoDup (PyDict.keys (PyDict.set k v d)).
Proof.
  intros Hnd. destruct (decide (k ∈ PyDict.keys d)) as [Hin|Hout].
  - by rewrite dict_keys_set_mem.
  - rewrite dict_set_fresh, dict_keys_app by done.
    apply NoDup_app. split; [done|]. split.
    + intros x Hx Hx'. unfold PyDict.keys in Hx'. simpl in Hx'.
      apply list_elem_of_singleton in Hx' as ->. done.
    + unfold PyDict.keys. simpl. apply NoDup_singleton.
Qed.
Lemma dict_keys_get k d : k ∈ PyDict.keys d ↔ is_Some (PyDict.get k d).
Proof.
  pose proof (dict_get_None k d) as Hnone.
  destruct (PyDict.get k d) as [v|].
  - split; [eauto|]. intros _.
    destruct (decide (k ∈ PyDict.keys d)) as [|Hout]; [done|].
    by apply Hnone in Hout.
  - split; [|by intros [? ?]]. intros Hin. by apply (proj1 Hnone) in Hin.
Qed.
End DictLaws.

Section RouterLookup.
Import Router RouterTrace.
Variable env : Env.

Lemma last_some_is_Some {B C} (f : B → option C) (l : list B) :
  is_Some (last_some f l) ↔ ∃ x, x ∈ l ∧ is_Some (f x).
Proof.
  induction l as [|x l IH]; simpl.
  - split; [by intros [? ?] | by intros (? & ?%elem_of_nil & _)].
  - destruct (last_some f l) as [y|].
    + split; [|eauto]. intros _.
      destruct (proj1 IH) as (z & Hz & Hfz); [eauto|].
      exists z. split; [by right | done].
    + split.
      * intros Hfx. exists x. split; [by left | done].
      * intros (z & [->|Hz]%elem_of_cons & Hfz); [done|].
        destruct (proj2 IH) as [? ?]; [eauto|done].
Qed.

Lemma load_model_lookup (r : ModelRouter) (m : ModelConfig)
    (model_id : string) :
  get_model_config (load_model env r m) model_id
  = match entry_for model_id m with
    | Some x => Some x
    | None => get_model_config r model_id
    end
  ∧ get_provider_for_model (load_model env r m) model_id
    = match provider_for env model_id m with
      | Some p => Some p
      | None => get_provider_for_model r model_id
      end.
Proof.
  unfold get_model_config, get_provider_for_model, load_model, entry_for,
    provider_for.
  destruct (String.eqb_spec (id m) model_id) as [<-|Hne].
  - destruct (_create_provider env (provider m)); simpl;
      rewrite ?dict_get_set_eq; done.
  - destruct (_create_provider env (provider m)); simpl;
      rewrite ?dict_get_set_ne by done; done.
Qed.

(** What the two dictionaries hold after loading a list into any router:
    for every id the list mentions, the last entry decides. *)
Lemma load_models_lookup (r : ModelRouter) (models : list ModelConfig)
    (model_id : string) :
  get_model_config (load_models env r models) model_id
  = match last_some (entry_for model_id) models with
    | Some m => Some m
    | None => get_model_config r model_id
    end
  ∧ get_provider_for_model (load_models env r models) model_id
    = match last_some (provider_for env model_id) models with
      | Some p => Some p
      | None => get_provider_for_model r model_id
      end.
Proof.
  revert r. induction models as [|m models IH]; intros r; [done|].
  unfold load_models in *. simpl fold_left.
  destruct (IH (load_model env r m)) as [IHc IHp]. rewrite IHc, IHp.
  destruct (load_model_lookup r m model_id) as [Hc Hp]. rewrite Hc, Hp.
  simpl. split.
  - by destruct (last_some (entry_for model_id) models).
  - by destruct (last_some (provider_for env model_id) models).
Qed.

Lemma load_models_NoDup (r : ModelRouter) (models : list ModelConfig) :
  NoDup (PyDict.keys (model_providers r)) →
  NoDup (PyDict.keys (model_providers (load_models env r models))).
Proof.
  revert r. induction models as [|m models IH]; intros r Hnd; [done|].
  unfold load_models in *. simpl. apply IH. unfold load_model.
  destruct (_create_provider env (provider m)); simpl; [|done].
  by apply dict_keys_set_NoDup.
Qed.

(** When an id occurs several times in the model list, the last entry
    wins: the stored configuration is the last entry with that id, and
    the provider is the one of the last entry with that id whose provider
    could be constructed. *)
Theorem load_models_last_entry_wins (models : list ModelConfig)
    (model_id : string) :
  let r := load_models env init models in
  get_model_config r model_id = last_some (entry_for model_id) models
  ∧ get_provider_for_model r model_id
    = last_some (provider_for env model_id) models.
Proof.
  intros r. destruct (load_models_lookup init models model_id) as [Hc Hp].
  fold r in Hc, Hp. rewrite Hc, Hp.
  split.
  - destruct (last_some (entry_for model_id) models); reflexivity.
  - destruct (last_some (provider_for env model_id) models); reflexivity.
Qed.

(** For any model list, repeated ids included: no id is listed twice as
    available; an id is available exactly when some entry with this id
    has a constructible provider; and every available id has a stored
    configuration. *)
Theorem available_models_characterised (models : list ModelConfig)
    (model_id : string) :
  let r := load_models env init models in
  NoDup (get_available_models r)
  ∧ (model_id ∈ get_available_models r
     ↔ ∃ m, m ∈ models ∧ id m = model_id ∧ Spec.constructible env m)
  ∧ (model_id ∈ get_available_models r →
     is_Some (get_model_config r model_id)).
Proof.
  intros r.
  destruct (load_models_lookup init models model_id) as [Hc Hp].
  fold r in Hc, Hp.
  assert (model_id ∈ get_available_models r
          ↔ ∃ m, m ∈ models ∧ id m = model_id ∧ Spec.constructible env m)
    as Hiff.
  { unfold get_available_models.
    rewrite dict_keys_get.
    assert (PyDict.get model_id (model_providers r)
            = last_some (provider_for env model_id) models) as ->.
    { unfold get_provider_for_model in Hp. rewrite Hp.
      destruct (last_some (provider_for env model_id) models); reflexivity. }
    rewrite last_some_is_Some. unfold provider_for, Spec.constructible.
    split.
    - intros (m & Hm & Hsome).
      destruct (String.eqb_spec (id m) model_id); [eauto|by destruct Hsome].
    - intros (m & Hm & <- & Hsome). exists m. split; [done|].
      by rewrite String.eqb_refl. }
  split; [|split; [done|]].
  - apply load_models_NoDup. simpl. apply NoDup_nil_2.
  - intros (m & Hm & Hid & _)%Hiff. rewrite Hc.
    assert (is_Some (last_some (entry_for model_id) models)) as [x ->];
      [|eauto].
    apply last_some_is_Some. exists m. split; [done|].
    unfold entry_for. rewrite Hid, String.eqb_refl. eauto.
Qed.

(** The three ways of asking a router whether a model can be served
    agree, in every router state. *)
Theorem router_getters_agree (r : ModelRouter) (model_id : string) :
  (is_model_available r model_id = true
   ↔ model_id ∈ get_available_models r)
  ∧ (is_model_available r model_id = true
     ↔ is_Some (get_provider_for_model r model_id))
  ∧ (get_provider_for_model_dyn r (JStr model_id)
     = Ok (get_provider_for_model r model_id)).
Proof.
  split; [|split; [|reflexivity]].
  - unfold get_available_models. rewrite dict_keys_get.
    unfold is_model_available, PyDict.mem.
    destruct (PyDict.get model_id (model_providers r));
      split; eauto; try done; by intros [? ?].
  - unfold is_model_available, PyDict.mem, get_provider_for_model.
    destruct (PyDict.get model_id (model_providers r));
      split; eauto; try done; by intros [? ?].
Qed.

End RouterLookup.


(* ===================================================================== *)
(** * How a session ends, and what it writes *)
(* ===================================================================== *)

Section SessionEnd.
Import TCPServer SessionTrace.
Context `{JsonLib} `{Backend}.
Variable auth_manager : Auth.AuthManager.
Variable model_router : Router.ModelRouter.

Local Abbreviation handle_frame := (handle_frame auth_manager model_router).
Local Abbreviation _handle_completion :=
  (_handle_completion auth_manager model_router).

Lemma handle_frame_never_breaks (s s' : Session) : handle_frame s ≠ Break s'.
Proof.
  unfold TCPServer.handle_frame.
  destruct (Protocol.unpack_message_from_stream (reader s))
    as [[[msg_type payload]|e] rd] eqn:Hread.
  - unfold with_writer.
    destruct (String.eqb msg_type "AUTH").
    { destruct (_handle_auth _ _ _) as [[[]|?] w]; [|done].
      destruct (Json.contains _ _) as [[]|]; try done.
      by destruct (_ ≫= _). }
    destruct (String.eqb msg_type "COMP").
    { destruct (authenticated_user s).
      - by destruct (TCPServer._handle_completion _ _ _ _ _) as [[[]|?] w].
      - by destruct (write _ _) as [[[]|?] w]. }
    by destruct (write _ _) as [[[]|?] w].
  - destruct (isinstance_ConnectionError e) eqn:Hconn.
    + destruct e; try discriminate Hconn.
      pose proof (unpack_never_connection_error (reader s) msg) as Hnever.
      rewrite Hread in Hnever. done.
    + destruct (isinstance_ValueError e); [|done].
      unfold with_writer. by destruct (write _ _) as [[[]|?] w].
Qed.


End SessionEnd.

Section WriterFacts.
Import TCPServer SessionTrace.
Context `{JsonLib} `{Backend}.
Variable auth_manager : Auth.AuthManager.
Variable model_router : Router.ModelRouter.

Lemma appends_write (frame : result bytes) : appends (write frame).
Proof.
  intros w r w'. unfold write. destruct frame; intros [= <- <-].
  - by apply prefix_app_r.
  - done.
Qed.

Lemma appends_lift {A} (x : result A) : appends (lift x).
Proof. by intros w r w' [= <- <-]. Qed.

Lemma appends_ret {A} (a : A) : appends (ret a : writer_io A).
Proof. by intros w r w' [= <- <-]. Qed.

Lemma appends_raise {A} (e : exn) : appends (raise e : writer_io A).
Proof. by intros w r w' [= <- <-]. Qed.

Lemma appends_bind {A B} (m : writer_io A) (k : A → writer_io B) :
  appends m → (∀ a, appends (k a)) → appends (m ≫= k).
Proof.
  intros Hm Hk w r w'. rewrite st_bind_unfold.
  destruct (m w) as [[a|e] w1] eqn:Hmw.
  - intros Hkw. etrans; [by eapply Hm | by eapply Hk].
  - intros [= <- <-]. by eapply Hm.
Qed.

Lemma appends_try {A} (m : writer_io A) (h : exn → writer_io A) :
  appends m → (∀ e, appends (h e)) → appends (try_except m h).
Proof.
  intros Hm Hh w r w'. unfold try_except.
  destruct (m w) as [[a|e] w1] eqn:Hmw.
  - intros [= <- <-]. by eapply Hm.
  - intros Hhw. etrans; [by eapply Hm | by eapply Hh].
Qed.

Lemma appends_if {A} (b : bool) (m1 m2 : writer_io A) :
  appends m1 → appends m2 → appends (if b then m1 else m2).
Proof. by destruct b. Qed.

Lemma appends_relay (chunks : list string) (failure : option exn) :
  appends (relay_chunks chunks failure).
Proof.
  induction chunks as [|chunk chunks IH]; simpl.
  - destruct failure; [apply appends_raise | apply appends_ret].
  - apply appends_if; [|done].
    apply appends_bind; [apply appends_write | done].
Qed.

Lemma appends_handle_auth (payload : json) :
  appends (_handle_auth auth_manager payload).
Proof.
  unfold _handle_auth. apply appends_try; [|intros; apply appends_write].
  apply appends_bind; [apply appends_lift|]. intros tok.
  apply appends_if; [apply appends_write|].
  apply appends_bind; [apply appends_lift|]. intros user.
  apply appends_write.
Qed.

Lemma appends_handle_completion (payload : json) (user : Auth.User) :
  appends (_handle_completion auth_manager model_router payload user).
Proof.
  unfold _handle_completion.
  apply appends_try; [|intros; apply appends_write].
  apply appends_bind; [apply appends_lift|]. intros model.
  apply appends_bind; [apply appends_lift|]. intros messages.
  apply appends_bind; [apply appends_lift|]. intros settings.
  apply appends_if; [apply appends_write|].
  apply appends_if; [apply appends_write|].
  apply appends_bind; [apply appends_lift|]. intros [provider|];
    [|apply appends_write].
  apply appends_bind; [apply appends_lift|]. intros settings'.
  apply appends_try; [|intros; apply appends_write].
  apply appends_bind; [apply appends_relay|]. intros _.
  apply appends_write.
Qed.

Lemma with_writer_state (s : Session) (rd : bytes) (m : writer_io unit)
    (k : Session → turn) :
  appends m →
  (∀ x, writer (state (k x)) = writer x
        ∧ (authenticated_user (state (k x)) = authenticated_user x
           ∨ k x = Continue (set_user (authenticated_user (state (k x))) x))) →
  writer s `prefix_of` writer (state (with_writer s rd m k)).
Proof.
  intros Hm Hk. unfold with_writer.
  destruct (m (writer s)) as [[[]|e] w] eqn:Hmw.
  - destruct (Hk {| reader := rd; writer := w;
                    authenticated_user := authenticated_user s |}) as [-> _].
    simpl. by eapply Hm.
  - simpl. by eapply Hm.
Qed.

Lemma handle_frame_appends (s : Session) :
  writer s `prefix_of`
    writer (state (handle_frame auth_manager model_router s)).
Proof.
  unfold handle_frame.
  destruct (Protocol.unpack_message_from_stream (reader s))
    as [[[msg_type payload]|e] rd].
  - destruct (String.eqb msg_type "AUTH").
    { apply with_writer_state; [apply appends_handle_auth|]. intros x.
      destruct (Json.contains "token" payload) as [[]|]; simpl; auto.
      destruct (_ ≫= _) as [u|]; simpl; auto. }
    destruct (String.eqb msg_type "COMP").
    { destruct (authenticated_user s).
      - apply with_writer_state; [apply appends_handle_completion|].
        intros x. simpl. auto.
      - apply with_writer_state; [apply appends_write|].
        intros x. simpl. auto. }
    apply with_writer_state; [apply appends_write|]. intros x. simpl. auto.
  - destruct (isinstance_ConnectionError e); [done|].
    destruct (isinstance_ValueError e); [|done].
    apply with_writer_state; [apply appends_write|]. intros x. simpl. auto.
Qed.


(** Only an AUTH frame can change the identity bound to a session: after a
    turn on any other frame, or on a frame that could not be read, the
    bound identity is the one before the turn, however the turn ends. *)
Theorem only_auth_rebinds_identity (s : Session) :
  (∀ payload,
     fst (Protocol.unpack_message_from_stream (reader s))
     ≠ Ok ("AUTH", payload)) →
  authenticated_user (state (handle_frame auth_manager model_router s))
  = authenticated_user s.
Proof.
  intros Hnot. unfold handle_frame.
  destruct (Protocol.unpack_message_from_stream (reader s))
    as [[[msg_type payload]|e] rd]; simpl in Hnot.
  - destruct (String.eqb_spec msg_type "AUTH") as [->|_].
    { by destruct (Hnot payload). }
    unfold with_writer.
    destruct (String.eqb msg_type "COMP").
    { destruct (authenticated_user s) as [user|] eqn:Huser.
      - by destruct (_handle_completion _ _ _ _ _) as [[[]|?] w].
      - by destruct (write _ _) as [[[]|?] w]. }
    by destruct (write _ _) as [[[]|?] w].
  - destruct (isinstance_ConnectionError e); [done|].
    destruct (isinstance_ValueError e); [|done].
    unfold with_writer. by destruct (write _ _) as [[[]|?] w].
Qed.

End WriterFacts.

Section Dispatch.
Import TCPServer SessionTrace.
Context `{JsonLib} `{Backend}.
Variable auth_manager : Auth.AuthManager.
Variable model_router : Router.ModelRouter.

Local Abbreviation handle_frame := (handle_frame auth_manager model_router).
Local Abbreviation _handle_completion :=
  (_handle_completion auth_manager model_router).

Lemma bind_lift_ok {S A B} (a : A) (k : A → st S B) (s : S) :
  (lift (Ok a) ≫= k) s = k a s.
Proof. reflexivity. Qed.

(** A frame whose type code, once stripped, is neither AUTH nor COMP is
    answered ERRO{UNKNOWN_MESSAGE_TYPE} naming the code; the payload is
    not looked at, the identity is kept and the loop goes on. *)
Theorem unknown_type_is_reported (s : Session) (msg_type : string)
    (payload : json) (rd : bytes) (erro : bytes) :
  Protocol.unpack_message_from_stream (reader s)
  = (Ok (msg_type, payload), rd) →
  msg_type ≠ "AUTH" → msg_type ≠ "COMP" →
  Protocol.create_error_response "UNKNOWN_MESSAGE_TYPE"
    ("Unknown message type: " +:+ msg_type) = Ok erro →
  handle_frame s
  = Continue {| reader := rd; writer := writer s ++ [erro];
                authenticated_user := authenticated_user s |}.
Proof.
  intros Hread Hauth Hcomp Herro. unfold TCPServer.handle_frame.
  rewrite Hread.
  destruct (String.eqb_spec msg_type "AUTH"); [done|].
  destruct (String.eqb_spec msg_type "COMP"); [done|].
  unfold with_writer. by rewrite Herro, write_ok.
Qed.

(** The rejections of a completion request on an authenticated session,
    in their order: a payload object without a usable [model] is answered
    MISSING_MODEL; a model the bound user is not permitted to use (a
    string outside the permissions, or any value that is not a string) is
    answered UNAUTHORIZED_MODEL, whether or not such a model is served; a
    permitted model without provider is answered MODEL_NOT_FOUND.  Each
    time one frame is written and nothing else happens. *)
Theorem completion_rejections (fs : PyDict.t json) (user : Auth.User)
    (w : list bytes) (erro : bytes) :
  let model := default JNull (PyDict.get "model" fs) in
  (Json.truthy model = false →
   Protocol.create_error_response "MISSING_MODEL" "Model field is required"
   = Ok erro →
   _handle_completion (JObj fs) user w = (Ok (), w ++ [erro]))
  ∧ (Json.truthy model = true →
     Auth.is_authorized auth_manager (Auth.token user) model = false →
     Protocol.create_error_response "UNAUTHORIZED_MODEL"
       ("User not authorized to use model: " +:+ py_str model) = Ok erro →
     _handle_completion (JObj fs) user w = (Ok (), w ++ [erro]))
  ∧ (∀ m,
       model = JStr m →
       Json.truthy model = true →
       Auth.is_authorized auth_manager (Auth.token user) model = true →
       Router.get_provider_for_model model_router m = None →
       Protocol.create_error_response "MODEL_NOT_FOUND"
         ("Model not found: " +:+ m) = Ok erro →
       _handle_completion (JObj fs) user w = (Ok (), w ++ [erro])).
Proof.
  intros model. unfold TCPServer._handle_completion, try_except.
  simpl Json.get. simpl Json.get_default. rewrite !bind_lift_ok. fold model.
  split; [|split].
  - intros -> Herro. change (negb false) with true. cbv iota.
    by rewrite Herro, write_ok.
  - intros -> -> Herro. change (negb true) with false.
    change (negb false) with true. cbv iota.
    by rewrite Herro, write_ok.
  - intros m Hm -> -> Hnone Herro. change (negb true) with false. cbv iota.
    rewrite Hm. simpl Router.get_provider_for_model_dyn.
    rewrite bind_lift_ok, Hnone. simpl py_str.
    by rewrite Herro, write_ok.
Qed.

Lemma relay_chunks_frames (chunks : list string) (failure : option exn)
    (frames : list bytes) (w : list bytes) :
  all_ok (chunk_frames chunks) = Some frames →
  relay_chunks chunks failure w
  = (match failure with Some e => Raise e | None => Ok () end, w ++ frames).
Proof.
  unfold chunk_frames, forwarded.
  revert frames w. induction chunks as [|chunk chunks IH]; intros frames w.
  - simpl. intros [= <-]. rewrite app_nil_r. by destruct failure.
  - simpl. destruct (PyStr.is_empty chunk); simpl; [by apply IH|].
    destruct (Protocol.create_completion_chunk chunk false) as [b|e];
      [|done].
    destruct (all_ok _) as [rest|] eqn:Hrest; [|done].
    simpl. intros [= <-]. rewrite st_bind_unfold, write_ok.
    rewrite (IH rest _ eq_refl). by rewrite <- app_assoc.
Qed.

(** The relay of an admitted completion request.  One CHNK frame is
    written for every non-empty fragment of the provider, in order.  If
    the provider then finishes, one final CHNK with empty content follows;
    if it fails, ERRO{GENERATION_ERROR} follows instead and no final CHNK
    is written.  Either way the handler returns normally. *)
Theorem completion_relay (fs : PyDict.t json) (user : Auth.User)
    (m : string) (provider : Router.BaseProvider) (settings : PyDict.t json)
    (frames : list bytes) (last : bytes) (w : list bytes) :
  PyDict.get "model" fs = Some (JStr m) →
  m ≠ EmptyString →
  Auth.is_authorized auth_manager (Auth.token user) (JStr m) = true →
  Router.get_provider_for_model model_router m = Some provider →
  default (JObj []) (PyDict.get "settings" fs) = JObj settings →
  let c := stream_completion provider
             (default (JArr []) (PyDict.get "messages" fs))
             (JObj (PyDict.set "model" (JStr m) settings)) in
  all_ok (chunk_frames (fragments c)) = Some frames →
  match failure c with
  | None => Protocol.create_completion_chunk "" true
  | Some e =>
      Protocol.create_error_response "GENERATION_ERROR"
        ("Error generating completion: " +:+ exn_str e)
  end = Ok last →
  _handle_completion (JObj fs) user w = (Ok (), w ++ frames ++ [last]).
Proof.
  intros Hm Hne Hauth Hprov Hsettings c Hframes Hlast.
  unfold TCPServer._handle_completion. unfold try_except at 1.
  simpl Json.get. simpl Json.get_default. rewrite !bind_lift_ok.
  rewrite Hm, Hsettings.
  change (default JNull (Some (JStr m))) with (JStr m).
  change (Json.truthy (JStr m)) with (negb (PyStr.is_empty m)).
  destruct m as [|ch m]; [done|].
  change (negb (negb (PyStr.is_empty (String ch m)))) with false. cbv iota.
  rewrite Hauth. change (negb true) with false. cbv iota.
  simpl Router.get_provider_for_model_dyn. rewrite bind_lift_ok, Hprov.
  simpl Json.setitem. rewrite bind_lift_ok.
  fold c. unfold try_except. rewrite st_bind_unfold.
  rewrite (relay_chunks_frames _ _ frames _ Hframes).
  destruct (failure c) as [e|]; rewrite Hlast, write_ok;
    by rewrite <- app_assoc.
Qed.

(** An AUTH frame whose token is a non-empty list or object: the handler
    answers ERRO{AUTH_ERROR}, and the lookup repeated by the loop raises
    [TypeError], which ends the session. *)
Theorem unhashable_token_ends_session (s : Session) (fs : PyDict.t json)
    (tok : json) (rd : bytes) (erro : bytes) :
  Protocol.unpack_message_from_stream (reader s)
  = (Ok ("AUTH", JObj fs), rd) →
  PyDict.get "token" fs = Some tok →
  Json.truthy tok = true →
  Auth.authenticate_dyn auth_manager tok = Raise TypeError →
  Protocol.create_error_response "AUTH_ERROR" "Internal authentication error"
  = Ok erro →
  handle_frame s
  = Fault TypeError {| reader := rd; writer := writer s ++ [erro];
                       authenticated_user := authenticated_user s |}.
Proof.
  intros Hread Hg Htruthy Hraise Herro. unfold TCPServer.handle_frame.
  rewrite Hread. simpl String.eqb. cbv iota. unfold with_writer.
  unfold TCPServer._handle_auth, try_except.
  rewrite st_bind_unfold. unfold lift at 1. simpl Json.get. rewrite Hg.
  change (default JNull (Some tok)) with tok. rewrite Htruthy.
  change (negb true) with false. cbv iota.
  rewrite st_bind_unfold. unfold lift at 1. rewrite Hraise.
  rewrite Herro, write_ok.
  simpl Json.contains. rewrite (dict_mem_get _ _ _ Hg).
  simpl Json.getitem. rewrite Hg. simpl. by rewrite Hraise.
Qed.

End Dispatch.


(* ===================================================================== *)
(** * The HTTP routes *)
(* ===================================================================== *)

Section BearerToken.
Import HTTPBridge.

Lemma prefix_append (p s : string) : String.prefix p (p +:+ s) = true.
Proof.
  induction p as [|c p IH]; rewrite ?append_nil, ?append_cons; simpl.
  - by destruct s.
  - destruct (ascii_dec c c); [exact IH | done].
Qed.

Lemma prefix_split (p s : string) :
  String.prefix p s = true → s = p +:+ PyStr.slice_from (String.length p) s.
Proof.
  revert s. induction p as [|c p IH]; intros s; simpl.
  - intros _. by destruct s.
  - destruct s as [|c' s]; [done|].
    simpl. destruct (ascii_dec c c') as [<-|]; [|intros; discriminate].
    intros Hp. rewrite append_cons. f_equal. by apply IH.
Qed.

(** The bearer token is exactly what follows ["Bearer "]: the header
    [Bearer t] yields [t], nothing else yields a token, and every refusal
    is a 401. *)
Theorem extract_token_bearer (authorization : option string) (tok : string) :
  _extract_token (Some ("Bearer " +:+ tok)) = inr tok
  ∧ (_extract_token authorization = inr tok →
     authorization = Some ("Bearer " +:+ tok))
  ∧ (∀ r, _extract_token authorization = inl r →
          ∃ detail, r = HTTPException 401 detail).
Proof.
  split; [|split].
  - unfold _extract_token.
    change (PyStr.is_empty ("Bearer " +:+ tok)) with false. cbv iota.
    unfold PyStr.startswith. rewrite prefix_append.
    change (negb true) with false. cbv iota.
    reflexivity.
  - unfold _extract_token. destruct authorization as [a|]; [|done].
    destruct (PyStr.is_empty a); [done|].
    unfold PyStr.startswith.
    destruct (String.prefix "Bearer " a) eqn:Hp; [|done]. simpl.
    intros [= <-]. f_equal. by apply (prefix_split "Bearer " a).
  - intros r. unfold _extract_token. destruct authorization as [a|].
    + destruct (PyStr.is_empty a); [intros [= <-]; eauto|].
      destruct (negb _); [intros [= <-]; eauto|done].
    + intros [= <-]. eauto.
Qed.

End BearerToken.

Section HttpAdmission.
Import HTTPBridge HTTPRoutes.
Context `{Backend}.
Variable model_router : Router.ModelRouter.
Variable completion_id : string.
Variable now : Q.

Local Abbreviation chat_completions :=
  (chat_completions model_router completion_id now).

Lemma http_model_not_found (am : Auth.AuthManager)
    (request : ChatCompletionRequest) (tok : string) (user : Auth.User) :
  Auth.authenticate am tok = Some user →
  fst (Auth.check_rate_limit am now tok) = true →
  model request ∈ Auth.permissions user →
  Router.get_provider_for_model model_router (model request) = None →
  fst (chat_completions am request tok)
  = HTTPException 404 ("Model not found: " +:+ model request).
Proof.
  intros Hu Hr Hperm Hprov. unfold HTTPBridge.chat_completions. rewrite Hu.
  pose proof (check_rate_limit_users am now tok) as Husers.
  destruct (Auth.check_rate_limit am now tok) as [allowed am'].
  simpl in Hr, Husers. rewrite Hr. simpl.
  unfold Auth.is_authorized, Auth.authenticate. rewrite Husers.
  unfold Auth.authenticate in Hu. rewrite Hu. simpl.
  rewrite bool_decide_eq_true_2 by done. simpl. by rewrite Hprov.
Qed.

(** The refusals of [POST /v1/chat/completions], in their order: 401 for
    an unknown token, then 429 for a caller over the limit, then 403 for
    a model outside the caller's permissions (whether or not the model
    exists), then 404 for a permitted model without provider. *)
Theorem chat_completions_refusal_order (am : Auth.AuthManager)
    (request : ChatCompletionRequest) (tok : string) :
  (Auth.authenticate am tok = None →
   chat_completions am request tok
   = (HTTPException 401 "Invalid authentication token", am))
  ∧ ∀ user,
      Auth.authenticate am tok = Some user →
      (fst (Auth.check_rate_limit am now tok) = false →
       fst (chat_completions am request tok)
       = HTTPException 429 "Rate limit exceeded. Please try again later.")
      ∧ (fst (Auth.check_rate_limit am now tok) = true →
         model request ∉ Auth.permissions user →
         fst (chat_completions am request tok)
         = HTTPException 403
             ("User not authorized to use model: " +:+ model request))
      ∧ (fst (Auth.check_rate_limit am now tok) = true →
         model request ∈ Auth.permissions user →
         Router.get_provider_for_model model_router (model request) = None →
         fst (chat_completions am request tok)
         = HTTPException 404 ("Model not found: " +:+ model request)).
Proof.
  split; [apply http_unauthenticated|]. intros user Hu.
  split; [by apply http_rate_limited with user|].
  split; [by apply http_unauthorized|by apply http_model_not_found].
Qed.

(** Every request charges the caller's rate window exactly like one call
    of [check_rate_limit], whatever the answer: a request refused with
    403 or 404, or failing with 500, has used up a slot; a request
    refused with 401 has changed nothing. *)
Theorem chat_completions_charges_one_check (am : Auth.AuthManager)
    (request : ChatCompletionRequest) (tok : string) :
  snd (chat_completions am request tok)
  = snd (Auth.check_rate_limit am now tok).
Proof.
  unfold HTTPBridge.chat_completions.
  destruct (Auth.authenticate am tok) as [user|] eqn:Hu.
  - destruct (Auth.check_rate_limit am now tok) as [allowed am'].
    destruct allowed; simpl; [|done].
    destruct (Auth.is_authorized am' tok _); simpl; [|done].
    destruct (Router.get_provider_for_model _ _); [|done].
    destruct (default false (stream request)); [done|].
    by destruct (_complete_chat_completion _ _ _ _ _ _).
  - by rewrite check_rate_limit_unknown.
Qed.

End HttpAdmission.

Section RelayShape.
Import HTTPBridge HTTPRoutes SessionTrace.
Context `{Backend}.
Variable completion_id : string.
Variable now : Q.

Local Abbreviation _stream_chat_completion :=
  (_stream_chat_completion completion_id now).
Local Abbreviation _complete_chat_completion :=
  (_complete_chat_completion completion_id now).
Local Abbreviation content_chunk := (content_chunk completion_id now).
Local Abbreviation final_chunk := (final_chunk completion_id now).

Lemma stream_events_forwarded (model : string) (chunks : list string) :
  stream_events completion_id now model chunks
  = (λ chunk, Data (content_chunk model chunk)) <$> forwarded chunks.
Proof.
  unfold forwarded. induction chunks as [|chunk chunks IH]; simpl; [done|].
  destruct (PyStr.is_empty chunk); simpl; by rewrite IH.
Qed.


Lemma append_empty_r (s : string) : s +:+ EmptyString = s.
Proof.
  induction s as [|ch s IH]; [done|]. rewrite append_cons. by rewrite IH.
Qed.

Lemma streamed_events_text (model : string) (chunks : list string)
    (text : string) :
  fold_left (λ text e, text +:+ event_text e)
            (stream_events completion_id now model chunks) text
  = fold_left (λ complete_content chunk, complete_content +:+ chunk)
              chunks text.
Proof.
  revert text. induction chunks as [|chunk chunks IH]; intros text; [done|].
  simpl. destruct chunk as [|ch chunk]; simpl.
  - rewrite append_empty_r. apply IH.
  - rewrite IH. done.
Qed.

(** Both response modes deliver the same text.  The text a client reads
    off the event stream is the concatenation of all the fragments, also
    when the provider fails after some of them; and when the provider
    finishes, it is the content of the buffered response. *)
Theorem streamed_text_is_buffered_content (provider : Router.BaseProvider)
    (msgs settings : json) (model : string) :
  let c := stream_completion provider msgs settings in
  streamed_text (_stream_chat_completion provider msgs settings model)
  = accumulate (fragments c)
  ∧ (failure c = None →
     ∃ body,
       _complete_chat_completion provider msgs settings model = Ok body
       ∧ (content ∘ choice_message <$> response_choices body)
         = [streamed_text
              (_stream_chat_completion provider msgs settings model)]).
Proof.
  intros c.
  assert (streamed_text (_stream_chat_completion provider msgs settings model)
          = accumulate (fragments c)) as Htext.
  { unfold streamed_text, HTTPBridge._stream_chat_completion, accumulate.
    fold c. rewrite fold_left_app, streamed_events_text.
    destruct (failure c); simpl; by rewrite ?append_empty_r. }
  split; [done|]. intros Hnone.
  unfold HTTPBridge._complete_chat_completion. fold c. rewrite Hnone.
  eexists. split; [done|]. simpl. by rewrite Htext.
Qed.

End RelayShape.

Section ModelsRoute.
Import HTTPRoutes.

Lemma elem_of_filter_bool {A} (p : A → bool) (l : list A) (x : A) :
  x ∈ List.filter p l ↔ x ∈ l ∧ p x = true.
Proof.
  rewrite !list_elem_of_In. rewrite List.filter_In. done.
Qed.

(** [GET /v1/models] answers 401 exactly for an unknown token.  Otherwise
    it lists, in the router's order, the available models that are in the
    caller's permissions: every listed id is authorized and has a
    provider, so a completion request for it is refused neither with 403
    nor with 404. *)
Theorem list_models_lists_usable_models (am : Auth.AuthManager)
    (router : Router.ModelRouter) (now : Q) (tok : string) :
  match Auth.authenticate am tok with
  | None =>
      list_models am router now tok
      = ModelsError 401 "Invalid authentication token"
  | Some user =>
      ∃ data,
        list_models am router now tok = ModelsList "list" data
        ∧ card_id <$> data
          = List.filter (λ m, bool_decide (m ∈ Auth.permissions user))
              (Router.get_available_models router)
        ∧ ∀ m, m ∈ (card_id <$> data) →
               Auth.is_authorized am tok (JStr m) = true
               ∧ is_Some (Router.get_provider_for_model router m)
  end.
Proof.
  unfold list_models.
  destruct (Auth.authenticate am tok) as [user|] eqn:Hu; [|done].
  eexists. split; [done|].
  assert (∀ m, Auth.is_authorized am tok (JStr m)
               = bool_decide (m ∈ Auth.permissions user)) as Hauth.
  { intros m. unfold Auth.is_authorized. by rewrite Hu. }
  assert (card_id <$> ((λ model_id,
             {| card_id := model_id; card_object := "model";
                card_created := int now;
                card_owned_by := "continuum-node" |})
           <$> List.filter (λ model_id, Auth.is_authorized am tok (JStr model_id))
                 (Router.get_available_models router))
          = List.filter (λ m, bool_decide (m ∈ Auth.permissions user))
              (Router.get_available_models router)) as Hids.
  { induction (Router.get_available_models router) as [|m l IH]; [done|].
    simpl. rewrite Hauth.
    destruct (bool_decide (m ∈ Auth.permissions user)); simpl;
      [f_equal|]; exact IH. }
  split; [exact Hids|]. rewrite Hids. intros m [Hm Hp]%elem_of_filter_bool.
  split; [by rewrite Hauth|].
  unfold Router.get_available_models in Hm. by apply dict_keys_get.
Qed.

End ModelsRoute.


(* ===================================================================== *)
(** * The WebSocket loop *)
(* ===================================================================== *)

Section WebSocketLoop.
Import HTTPBridge SessionTrace.
Context `{JsonLib} `{Backend}.
Variable model_router : Router.ModelRouter.
Variable completion_id : string.
Variable now : Q.

Local Abbreviation ws_message := (ws_message model_router completion_id now).
Local Abbreviation ws_chunk := (ws_chunk completion_id now).

Lemma ws_after_rate_check (fs : PyDict.t json) (tok : string) (s : WsState)
    (user : Auth.User) :
  PyDict.get "token" fs = Some (JStr tok) →
  tok ≠ EmptyString →
  Auth.authenticate (manager s) tok = Some user →
  fst (Auth.check_rate_limit (manager s) now tok) = true →
  ws_message (JObj fs) s
  = (model ← lift (Json.get (JObj fs) "model");
     msgs ← lift (Json.get_default (JObj fs) "messages" (JArr []));
     settings ← lift (Json.get_default (JObj fs) "settings" (JObj []));
     if negb (Json.truthy model)
     then send_json (ws_error "Missing model" "validation_error")
     else
       authorized ← ws_is_authorized tok model;
       if negb authorized
       then send_json (ws_error ("Not authorized for model: " +:+ py_str model)
                         "authorization_error")
       else
         provider ← lift (Router.get_provider_for_model_dyn model_router model);
         match provider with
         | None =>
             send_json (ws_error ("Model not found: " +:+ py_str model)
                          "model_error")
         | Some provider =>
             settings ← lift (Json.setitem settings "model" model);
             try_except
               (let c := stream_completion provider msgs settings in
                _ ← ws_relay completion_id now model (fragments c) (failure c);
                send_json (ws_chunk model [] (JStr "stop")))
               (λ e, send_json (ws_error ("Generation error: " +:+ exn_str e)
                                  "generation_error"))
         end)
      {| sent := sent s;
         manager := snd (Auth.check_rate_limit (manager s) now tok) |}.
Proof.
  intros Hg Hne Hu Hr. unfold HTTPBridge.ws_message.
  rewrite st_bind_unfold. unfold lift at 1. simpl Json.get. rewrite Hg.
  change (default JNull (Some (JStr tok))) with (JStr tok).
  change (Json.truthy (JStr tok)) with (negb (PyStr.is_empty tok)).
  rewrite negb_involutive.
  destruct tok as [|ch tok]; [done|].
  change (PyStr.is_empty (String ch tok)) with false. cbv iota.
  rewrite st_bind_unfold. unfold ws_authenticate at 1.
  simpl Auth.authenticate_dyn. rewrite Hu.
  rewrite st_bind_unfold. unfold ws_check_rate_limit at 1.
  destruct (Auth.check_rate_limit (manager s) now (String ch tok))
    as [allowed am']. simpl in Hr. rewrite Hr. reflexivity.
Qed.

(** The refusals of the WebSocket loop, in their order: a message object
    without usable token and a message with an unknown token are answered
    with an authentication error and change nothing else; a known caller
    over the limit gets a rate-limit error; and only then is the model
    looked at, so that a message without model is answered with a
    validation error after it has used up a slot of the caller's window. *)
Theorem ws_refusal_order (fs : PyDict.t json) (s : WsState) :
  (Json.truthy (default JNull (PyDict.get "token" fs)) = false →
   ws_message (JObj fs) s
   = (Ok (), {| sent := sent s ++ [ws_error "Missing token"
                                      "authentication_error"];
                manager := manager s |}))
  ∧ ∀ tok,
      PyDict.get "token" fs = Some (JStr tok) →
      tok ≠ EmptyString →
      (Auth.authenticate (manager s) tok = None →
       ws_message (JObj fs) s
       = (Ok (), {| sent := sent s ++ [ws_error "Invalid token"
                                          "authentication_error"];
                    manager := manager s |}))
      ∧ ∀ user,
          Auth.authenticate (manager s) tok = Some user →
          (fst (Auth.check_rate_limit (manager s) now tok) = false →
           ws_message (JObj fs) s
           = (Ok (), {| sent := sent s ++ [ws_error "Rate limit exceeded"
                                              "rate_limit_error"];
                        manager :=
                          snd (Auth.check_rate_limit (manager s) now tok) |}))
          ∧ (fst (Auth.check_rate_limit (manager s) now tok) = true →
             Json.truthy (default JNull (PyDict.get "model" fs)) = false →
             ws_message (JObj fs) s
             = (Ok (), {| sent := sent s ++ [ws_error "Missing model"
                                                "validation_error"];
                          manager :=
                            snd (Auth.check_rate_limit (manager s) now tok) |})).
Proof.
  split.
  - intros Hfalsy. unfold HTTPBridge.ws_message.
    rewrite st_bind_unfold. unfold lift at 1. simpl Json.get.
    cbv beta iota. by rewrite Hfalsy.
  - intros tok Hg Hne. split; [by apply ws_unauthenticated|].
    intros user Hu. split; [by apply ws_rate_limited with user|].
    intros Hr Hmodel.
    rewrite (ws_after_rate_check fs tok s user Hg Hne Hu Hr).
    simpl Json.get. simpl Json.get_default. rewrite !bind_lift_ok.
    by rewrite Hmodel.
Qed.

Lemma ws_relay_sent (model : json) (chunks : list string)
    (failure : option exn) (s : WsState) :
  ws_relay completion_id now model chunks failure s
  = (match failure with Some e => Raise e | None => Ok () end,
     {| sent := sent s
                ++ ((λ chunk, ws_chunk model [("content", JStr chunk)] JNull)
                      <$> forwarded chunks);
        manager := manager s |}).
Proof.
  unfold forwarded. revert s.
  induction chunks as [|chunk chunks IH]; intros s; simpl.
  - rewrite app_nil_r. by destruct failure, s.
  - destruct (PyStr.is_empty chunk); simpl; [by apply IH|].
    rewrite st_bind_unfold. unfold send_json at 1. rewrite IH. simpl.
    by rewrite <- app_assoc.
Qed.

(** The relay of an admitted WebSocket request whose [messages] are a
    list and whose [settings] are an object: one chunk message per
    non-empty fragment, in order, then the closing chunk with finish
    reason ["stop"] when the provider finished, or a generation error
    when it failed; the loop body returns normally in both cases, and
    the caller's window has been charged once. *)
Theorem ws_relay_shape (fs : PyDict.t json) (tok m : string) (s : WsState)
    (user : Auth.User) (provider : Router.BaseProvider)
    (msgs : list json) (settings : PyDict.t json) :
  PyDict.get "token" fs = Some (JStr tok) →
  tok ≠ EmptyString →
  Auth.authenticate (manager s) tok = Some user →
  fst (Auth.check_rate_limit (manager s) now tok) = true →
  PyDict.get "model" fs = Some (JStr m) →
  m ≠ EmptyString →
  m ∈ Auth.permissions user →
  Router.get_provider_for_model model_router m = Some provider →
  default (JArr []) (PyDict.get "messages" fs) = JArr msgs →
  default (JObj []) (PyDict.get "settings" fs) = JObj settings →
  let c := stream_completion provider (JArr msgs)
             (JObj (PyDict.set "model" (JStr m) settings)) in
  ws_message (JObj fs) s
  = (Ok (),
     {| sent := sent s
                ++ ((λ chunk, ws_chunk (JStr m) [("content", JStr chunk)] JNull)
                      <$> forwarded (fragments c))
                ++ [match failure c with
                    | None => ws_chunk (JStr m) [] (JStr "stop")
                    | Some e =>
                        ws_error ("Generation error: " +:+ exn_str e)
                          "generation_error"
                    end];
        manager := snd (Auth.check_rate_limit (manager s) now tok) |}).
Proof.
  intros Hg Hne Hu Hr Hm Hmne Hperm Hprov Hmsgs Hsettings c.
  rewrite (ws_after_rate_check fs tok s user Hg Hne Hu Hr).
  simpl Json.get. simpl Json.get_default. rewrite !bind_lift_ok.
  rewrite Hm, Hmsgs, Hsettings.
  change (default JNull (Some (JStr m))) with (JStr m).
  change (Json.truthy (JStr m)) with (negb (PyStr.is_empty m)).
  destruct m as [|ch m]; [done|].
  change (negb (negb (PyStr.is_empty (String ch m)))) with false. cbv iota.
  rewrite st_bind_unfold. unfold ws_is_authorized at 1.
  cbv beta. unfold manager at 1.
  assert (Auth.is_authorized (snd (Auth.check_rate_limit (manager s) now tok))
            tok (JStr (String ch m)) = true) as ->.
  { unfold Auth.is_authorized, Auth.authenticate.
    rewrite check_rate_limit_users. unfold Auth.authenticate in Hu.
    rewrite Hu. simpl. by apply bool_decide_eq_true. }
  change (negb true) with false. cbv iota.
  simpl Router.get_provider_for_model_dyn. rewrite bind_lift_ok, Hprov.
  simpl Json.setitem. rewrite bind_lift_ok. fold c.
  unfold try_except. rewrite st_bind_unfold, ws_relay_sent.
  destruct (failure c) as [e|]; unfold send_json; simpl;
    by rewrite <- app_assoc.
Qed.

End WebSocketLoop.


(* ===================================================================== *)
(** * The metrics collector *)
(* ===================================================================== *)

Section MetricsFacts.
Import Metrics.

Lemma deque_append_window {A} (n : nat) (l : list A) (x : A) :
  deque_append n (drop (length l - n) l) x
  = drop (length (l ++ [x]) - n) (l ++ [x]).
Proof.
  unfold deque_append. rewrite length_drop, length_app. simpl.
  destruct (Nat.ltb_spec (length l - (length l - n)) n) as [Hlt|Hge].
  - assert (length l < n)%nat by lia.
    replace (length l - n)%nat with 0%nat by lia.
    replace (length l + 1 - n)%nat with 0%nat by lia. done.
  - assert (n ≤ length l)%nat by lia.
    replace (length l + 1 - n)%nat with ((length l - n) + 1)%nat by lia.
    rewrite <- drop_drop.
    by rewrite (drop_app_le l [x] (length l - n)) by lia.
Qed.

Lemma counted_set (k : string) (v : nat) (d : PyDict.t nat) :
  (counted (PyDict.set k v d) + default 0 (PyDict.get k d) = counted d + v)%nat.
Proof.
  unfold counted. induction d as [|[k' v'] d IH]; [simpl; lia|].
  simpl PyDict.set. simpl PyDict.get.
  destruct (String.eqb k k'); rewrite !fmap_cons; simpl sum_list;
    simpl default; simpl snd; lia.
Qed.

Lemma counted_incr (k : string) (d : PyDict.t nat) :
  counted (incr k d) = S (counted d).
Proof.
  unfold incr. pose proof (counted_set k (default 0 (PyDict.get k d) + 1) d).
  lia.
Qed.

Lemma record_requests_state (n : nat) (t0 : Q) (ms : list RequestMetric) :
  let mc := foldl record_request (init n t0) ms in
  max_metrics mc = n
  ∧ metrics mc = drop (length ms - n) ms
  ∧ counted (user_activity mc) = length ms.
Proof.
  induction ms as [|m ms IH] using rev_ind; [done|].
  rewrite foldl_app. simpl. destruct IH as (Hn & Hms & Hc).
  split; [done|]. split.
  - rewrite Hn, Hms. apply deque_append_window.
  - rewrite counted_incr, Hc, length_app. simpl. lia.
Qed.

(** The collector keeps the newest [max_metrics] requests and forgets
    the older ones, while its per-user counters go on counting: after
    more than [max_metrics] requests, the [total_requests] of the
    summary stays at [max_metrics], below the number of requests the
    user counters add up to. *)
Theorem metrics_keep_newest (n : nat) (t0 now : Q)
    (ms : list RequestMetric) :
  let mc := foldl record_request (init n t0) ms in
  metrics mc = drop (length ms - n) ms
  ∧ total_requests (get_summary mc now) = (length ms `min` n)%nat
  ∧ counted (user_activity mc) = length ms
  ∧ (requests_per_minute (get_summary mc now)
     ≤ requests_last_hour (get_summary mc now)
     ≤ total_requests (get_summary mc now))%nat.
Proof.
  intros mc. destruct (record_requests_state n t0 ms) as (Hn & Hms & Hc).
  fold mc in Hn, Hms, Hc. split; [done|]. split.
  { simpl. rewrite Hms, length_drop. lia. }
  split; [done|]. simpl. split.
  - apply List.filter_length_le.
  - apply List.filter_length_le.
Qed.

(** [get_detailed_metrics]: a positive [limit] gives the newest [limit]
    records (all of them if there are fewer); the limit [0] does not give
    an empty list but every record; a negative limit drops that many of
    the oldest records. *)
Theorem detailed_metrics_limit (mc : MetricsCollector) (limit : Z) :
  ((0 < limit)%Z →
   get_detailed_metrics mc limit
   = drop (length (metrics mc) - Z.to_nat limit) (metrics mc)
   ∧ length (get_detailed_metrics mc limit)
     = (length (metrics mc) `min` Z.to_nat limit)%nat)
  ∧ (limit = 0%Z → get_detailed_metrics mc limit = metrics mc)
  ∧ ((limit < 0)%Z →
     get_detailed_metrics mc limit = drop (Z.to_nat (- limit)) (metrics mc)).
Proof.
  unfold get_detailed_metrics, last_slice. split; [|split].
  - intros Hpos. destruct (Z.ltb_spec (- limit) 0) as [_|?]; [|lia].
    assert (Z.to_nat (0 `max` (- limit + Z.of_nat (length (metrics mc))))
            = (length (metrics mc) - Z.to_nat limit)%nat) as -> by lia.
    split; [done|]. rewrite length_drop. lia.
  - intros ->. simpl. by rewrite Z.min_l by lia.
  - intros Hneg. destruct (Z.ltb_spec (- limit) 0) as [?|_]; [lia|].
    destruct (Z.min_spec (- limit) (Z.of_nat (length (metrics mc))))
      as [[_ ->]|[Hle ->]]; [done|].
    rewrite Nat2Z.id, drop_all. symmetry. apply drop_ge. lia.
Qed.

Lemma append_inv_tail (a b t : string) : a +:+ t = b +:+ t → a = b.
Proof.
  intros Heq.
  assert (list_ascii_of_string a ++ list_ascii_of_string t
          = list_ascii_of_string b ++ list_ascii_of_string t) as Hl.
  { revert Heq. clear. intros Heq.
    assert (∀ x y, list_ascii_of_string (x +:+ y)
                   = list_ascii_of_string x ++ list_ascii_of_string y) as Happ.
    { clear. induction x as [|c x IH]; intros y; [done|].
      rewrite append_cons. simpl. by rewrite IH. }
    by rewrite <- !Happ, Heq. }
  apply app_inv_tail in Hl.
  rewrite <- (string_of_list_ascii_of_string a),
          <- (string_of_list_ascii_of_string b).
  by rewrite Hl.
Qed.

Lemma slice_to_length (n : nat) (s : string) :
  (String.length (PyStr.slice_to n s) ≤ n)%nat.
Proof.
  revert s. induction n as [|n IH]; intros [|c s]; simpl; try lia.
  specialize (IH s). lia.
Qed.

Lemma masked_is_not_anonymous (s : string) : s +:+ "..." ≠ "anonymous".
Proof.
  do 10 (destruct s as [|? s];
         [rewrite ?append_cons, ?append_nil; discriminate|]).
  rewrite !append_cons. discriminate.
Qed.

(** The user name under which a request is counted: a non-empty token
    of at most eight characters is recorded in full; two requests are
    counted for the same user exactly when both come without token or
    both tokens are non-empty and agree on their first eight
    characters. *)
Theorem mask_collisions (t1 t2 : string) :
  (t1 ≠ EmptyString → (String.length t1 ≤ 8)%nat → mask t1 = t1 +:+ "...")
  ∧ (mask t1 = mask t2
     ↔ (t1 = EmptyString ∧ t2 = EmptyString)
       ∨ (t1 ≠ EmptyString ∧ t2 ≠ EmptyString
          ∧ PyStr.slice_to 8 t1 = PyStr.slice_to 8 t2)).
Proof.
  split.
  - intros Hne Hlen. unfold mask. destruct t1 as [|c t1]; [done|].
    simpl PyStr.is_empty. cbv iota beta.
    change (negb false) with true. cbv iota.
    by rewrite slice_to_all.
  - unfold mask. destruct t1 as [|c1 t1], t2 as [|c2 t2];
      simpl PyStr.is_empty; change (negb false) with true;
      change (negb true) with false; cbv iota.
    + split; [by left|done].
    + split.
      * intros Heq. symmetry in Heq. by apply masked_is_not_anonymous in Heq.
      * intros [[_ ?]|(? & _)]; done.
    + split.
      * intros Heq. by apply masked_is_not_anonymous in Heq.
      * intros [[? _]|(_ & ? & _)]; done.
    + split.
      * intros Heq%append_inv_tail. right. done.
      * intros [[? _]|(_ & _ & ->)]; done.
Qed.

End MetricsFacts.


(* ===================================================================== *)
(** * The properties above, on the sample deployment *)
(* ===================================================================== *)

Section CodecExamples.
Import Protocol.
#[local] Existing Instance RefJson.lib.

(** A PING header with length zero, followed by one more byte. *)
Lemma unpack_empty_payload_witness :
  unpack_message_from_stream
    (["P"; "I"; "N"; "G"; "000"; "000"; "000"; "000"] ++ ["x"])%char
  = (Ok ("PING", JObj []), ["x"]%char).
Proof.
  apply (unpack_empty_payload ["P"; "I"; "N"; "G"]%char ["x"]%char);
    reflexivity.
Defined.

(** The four bytes 0, 0, 1, 2 and the number 258. *)
Lemma struct_I_bijection_witness :
  struct_pack_I 258 = Ok ["000"; "000"; "001"; "002"]%char.
Proof.
  destruct (struct_I_bijection 258 ["000"; "000"; "001"; "002"]%char)
    as (_ & _ & Hunpack & _).
  apply Hunpack. reflexivity.
Defined.


End CodecExamples.

Section WindowExamples.
Import Auth.

(** Alice's call at [t = 200] leaves Bob's window as it was. *)
Lemma check_rate_limit_frame_witness :
  tracker_get (snd (check_rate_limit Fixture.busy 200 "tok-alice")) "tok-bob"
  = [96%Q; 97%Q; 98%Q; 99%Q; 100%Q].
Proof.
  destruct (check_rate_limit_frame Fixture.busy 200 "tok-alice" "tok-bob")
    as (_ & Hother & _).
  rewrite Hother; [reflexivity|discriminate].
Defined.

(** Dave's limit is ["0/hour"]: his first call is rejected. *)
Lemma non_positive_limit_rejects_witness :
  fst (check_rate_limit Samples.strict 0 "tok-dave") = false.
Proof.
  apply (proj2 (non_positive_limit_rejects Samples.strict 0 "tok-dave"
                  Samples.dave eq_refl)).
  vm_compute. discriminate.
Defined.

(** Alice, served at [t = 100] with one call a minute, calls at
    [t = 200]. *)
Lemma rate_window_self_heals_witness :
  check_rate_limit Fixture.busy 200 "tok-alice"
  = (true, tracker_set Fixture.busy "tok-alice" [200%Q]).
Proof.
  apply (rate_window_self_heals Fixture.busy 200 "tok-alice" Fixture.alice
           1 60); [reflexivity | reflexivity | lia |].
  assert (tracker_get Fixture.busy "tok-alice" = [100%Q]) as ->
    by reflexivity.
  constructor; [by vm_compute | constructor].
Defined.

End WindowExamples.

Section RouterExamples.
Import Router.

(** In the sample deployment [llama3] has a constructible entry and
    [gpt-4o] has none. *)
Lemma available_models_characterised_witness :
  is_Some (get_model_config Fixture.router "llama3")
  ∧ ("gpt-4o" ∉ get_available_models Fixture.router).
Proof.
  destruct (available_models_characterised Fixture.env Fixture.models "llama3")
    as (_ & Hiff & Hconfig).
  destruct (available_models_characterised Fixture.env Fixture.models "gpt-4o")
    as (_ & Hiff' & _).
  split.
  - apply Hconfig, Hiff. exists Fixture.llama3_entry.
    split; [apply list_elem_of_here|]. split; [reflexivity|].
    by eexists.
  - intros (m & Hm & Hid & Hc)%Hiff'.
    repeat (apply elem_of_cons in Hm as [->|Hm];
            [try discriminate Hid; by destruct Hc|]).
    by apply elem_of_nil in Hm.
Defined.

End RouterExamples.

Section LoopExamples.
Import TCPServer SessionTrace.
#[local] Existing Instance RefJson.lib.
#[local] Existing Instance Fixture.backend.

Local Abbreviation step := (handle_frame Fixture.fresh Fixture.router).


(** A frame whose type code starts with U+00E9. *)
Lemma non_ascii_type_bytes_desynchronise_witness :
  let tb := [ascii_of_N 233; "A"; " "; " "]%char in
  let rest := ["000"; "000"; "000"; "000"]%char in
  let s := {| reader := tb ++ rest; writer := [];
              authenticated_user := None |} in
  ∃ erro, step s = Continue {| reader := rest; writer := [erro];
                               authenticated_user := None |}.
Proof.
  intros tb rest s. eexists.
  eapply proj2,
    (non_ascii_type_bytes_desynchronise Fixture.fresh Fixture.router s
       tb rest); reflexivity.
Defined.


(** A COMP frame on a session bound to Alice. *)
Lemma only_auth_rebinds_identity_witness :
  let s := {| reader := Fixture.frame "COMP" (JObj [("model", JStr "llama3")]);
              writer := []; authenticated_user := Some Fixture.alice |} in
  authenticated_user (state (step s)) = Some Fixture.alice.
Proof.
  intros s.
  apply (only_auth_rebinds_identity Fixture.fresh Fixture.router s).
  intros payload.
  assert (fst (Protocol.unpack_message_from_stream (reader s))
          = Ok ("COMP", JObj [("model", JStr "llama3")])) as ->
    by reflexivity.
  discriminate.
Defined.

(** A PING frame. *)
Lemma unknown_type_is_reported_witness :
  let s := {| reader := Fixture.frame "PING" (JObj []); writer := [];
              authenticated_user := None |} in
  step s
  = Continue
      {| reader := [];
         writer := [Fixture.frame "ERRO"
                      (JObj [("code", JStr "UNKNOWN_MESSAGE_TYPE");
                             ("message", JStr "Unknown message type: PING")])];
         authenticated_user := None |}.
Proof.
  intros s.
  apply (unknown_type_is_reported Fixture.fresh Fixture.router s "PING"
           (JObj []) []);
    [reflexivity | discriminate | discriminate | reflexivity].
Defined.

(** Alice asks for nothing, for a model outside her permissions, and for
    [gpt-4o], which she may use but which has no provider. *)
Lemma completion_rejections_witness :
  let ask fs :=
    _handle_completion Fixture.fresh Fixture.router (JObj fs) Fixture.alice [] in
  let erro code message :=
    Fixture.frame "ERRO" (JObj [("code", JStr code);
                                ("message", JStr message)]) in
  ask [] = (Ok (), [erro "MISSING_MODEL" "Model field is required"])
  ∧ ask [("model", JStr "mistral")]
    = (Ok (), [erro "UNAUTHORIZED_MODEL"
                 "User not authorized to use model: mistral"])
  ∧ ask [("model", JStr "gpt-4o")]
    = (Ok (), [erro "MODEL_NOT_FOUND" "Model not found: gpt-4o"]).
Proof.
  intros ask erro. split; [|split].
  - apply (proj1 (completion_rejections Fixture.fresh Fixture.router []
                    Fixture.alice [] _)); reflexivity.
  - apply (proj1 (proj2 (completion_rejections Fixture.fresh Fixture.router
                           [("model", JStr "mistral")] Fixture.alice [] _)));
      reflexivity.
  - apply (proj2 (proj2 (completion_rejections Fixture.fresh Fixture.router
                           [("model", JStr "gpt-4o")] Fixture.alice [] _))
             "gpt-4o"); reflexivity.
Defined.

(** Alice asks for [llama3]: two fragments and the final chunk. *)
Lemma completion_relay_witness :
  let chunk content final :=
    Fixture.frame "CHNK" (JObj [("content", JStr content);
                                ("final", JBool final)]) in
  _handle_completion Fixture.fresh Fixture.router
    (JObj [("model", JStr "llama3")]) Fixture.alice []
  = (Ok (), [chunk "Hello" false; chunk " world" false; chunk "" true]).
Proof.
  intros chunk.
  apply (completion_relay Fixture.fresh Fixture.router
           [("model", JStr "llama3")] Fixture.alice "llama3"
           (Router.OllamaProvider "http://localhost:11434") []
           [chunk "Hello" false; chunk " world" false] (chunk "" true) []);
    [reflexivity | discriminate | reflexivity | reflexivity | reflexivity
    | reflexivity | reflexivity].
Defined.

(** An AUTH frame whose token is the list [[1]]. *)
Lemma unhashable_token_ends_session_witness :
  let payload := JObj [("token", JArr [JNum 1])] in
  let s := {| reader := Fixture.frame "AUTH" payload; writer := [];
              authenticated_user := None |} in
  step s
  = Fault TypeError
      {| reader := [];
         writer := [Fixture.frame "ERRO"
                      (JObj [("code", JStr "AUTH_ERROR");
                             ("message", JStr "Internal authentication error")])];
         authenticated_user := None |}.
Proof.
  intros payload s.
  apply (unhashable_token_ends_session Fixture.fresh Fixture.router s
           [("token", JArr [JNum 1])] (JArr [JNum 1]) []);
    reflexivity.
Defined.

End LoopExamples.

Section BridgeExamples.
Import HTTPBridge HTTPRoutes SessionTrace.
#[local] Existing Instance RefJson.lib.
#[local] Existing Instance Fixture.backend.

(** The header [Bearer tok-alice], and a header of another scheme. *)
Lemma extract_token_bearer_witness :
  _extract_token (Some "Bearer tok-alice") = inr "tok-alice"
  ∧ ∃ detail,
      _extract_token (Some "Basic abc") = inl (HTTPException 401 detail).
Proof.
  split; [exact (proj1 (extract_token_bearer None "tok-alice"))|].
  destruct (proj2 (proj2 (extract_token_bearer (Some "Basic abc") ""))
              (HTTPException 401 "Invalid authorization header format")
              eq_refl) as [detail Hdetail].
  exists detail. rewrite <- Hdetail. reflexivity.
Defined.

(** An unknown caller; Alice over her limit; Bob asking for a model he
    may not use; Alice asking for [gpt-4o], which has no provider. *)
Lemma chat_completions_refusal_order_witness :
  let ask am tok model :=
    fst (chat_completions Fixture.router "chatcmpl-1" 101 am
           (Fixture.request model false) tok) in
  ask Fixture.fresh "wrong" "llama3"
  = HTTPException 401 "Invalid authentication token"
  ∧ ask Fixture.busy "tok-alice" "llama3"
    = HTTPException 429 "Rate limit exceeded. Please try again later."
  ∧ ask Fixture.fresh "tok-bob" "gpt-4o"
    = HTTPException 403 "User not authorized to use model: gpt-4o"
  ∧ ask Fixture.fresh "tok-alice" "gpt-4o"
    = HTTPException 404 "Model not found: gpt-4o".
Proof.
  intros ask. split; [|split; [|split]].
  - unfold ask.
    rewrite (proj1 (chat_completions_refusal_order Fixture.router
                      "chatcmpl-1" 101 Fixture.fresh
                      (Fixture.request "llama3" false) "wrong") eq_refl).
    reflexivity.
  - apply (proj1 (proj2 (chat_completions_refusal_order Fixture.router
                           "chatcmpl-1" 101 Fixture.busy
                           (Fixture.request "llama3" false) "tok-alice")
                    Fixture.alice eq_refl)).
    reflexivity.
  - apply (proj1 (proj2 (proj2 (chat_completions_refusal_order Fixture.router
                           "chatcmpl-1" 101 Fixture.fresh
                           (Fixture.request "gpt-4o" false) "tok-bob")
                    Fixture.bob eq_refl))); [reflexivity|].
    intros Hin. apply elem_of_cons in Hin as [Hin|Hin];
      [discriminate | by apply elem_of_nil in Hin].
  - apply (proj2 (proj2 (proj2 (chat_completions_refusal_order Fixture.router
                           "chatcmpl-1" 101 Fixture.fresh
                           (Fixture.request "gpt-4o" false) "tok-alice")
                    Fixture.alice eq_refl))); [reflexivity| |reflexivity].
    apply list_elem_of_further, list_elem_of_here.
Defined.

(** Ollama's [Hello], [ world]: streamed and buffered. *)
Lemma streamed_text_is_buffered_content_witness :
  let ollama := Router.OllamaProvider "http://localhost:11434" in
  ∃ body,
    _complete_chat_completion "chatcmpl-1" 5 ollama (JArr []) (JObj [])
      "llama3" = Ok body
    ∧ (content ∘ choice_message <$> response_choices body)
      = ["Hello world"].
Proof.
  intros ollama.
  assert (failure (stream_completion ollama (JArr []) (JObj [])) = None)
    as Hfinished by reflexivity.
  destruct (proj2 (streamed_text_is_buffered_content "chatcmpl-1" 5 ollama
                     (JArr []) (JObj []) "llama3") Hfinished)
    as (body & Hbody & Htext).
  exists body. split; [exact Hbody|]. rewrite Htext. reflexivity.
Defined.

(** Alice sees [llama3] alone: [gpt-4o] is in her permissions but is not
    available, [mistral] is available but not in her permissions. *)
Lemma list_models_lists_usable_models_witness :
  ∃ data,
    list_models Fixture.fresh Fixture.router 5 "tok-alice"
    = ModelsList "list" data
    ∧ card_id <$> data = ["llama3"]
    ∧ Auth.is_authorized Fixture.fresh "tok-alice" (JStr "llama3") = true.
Proof.
  pose proof (list_models_lists_usable_models Fixture.fresh Fixture.router 5
                "tok-alice") as Hlist.
  change (Auth.authenticate Fixture.fresh "tok-alice")
    with (Some Fixture.alice) in Hlist.
  destruct Hlist as (data & Hdata & Hids & Husable).
  exists data. split; [exact Hdata|].
  assert (card_id <$> data = ["llama3"]) as Hllama
    by (rewrite Hids; reflexivity).
  split; [exact Hllama|].
  apply (Husable "llama3"). rewrite Hllama. apply list_elem_of_here.
Defined.

(** On the WebSocket: no token; an unknown token; Alice over her limit;
    Alice, within her limit, without model. *)
Lemma ws_refusal_order_witness :
  let ask am fs :=
    ws_message Fixture.router "chatcmpl-1" 101 (JObj fs)
      {| sent := []; manager := am |} in
  sent (snd (ask Fixture.fresh []))
  = [ws_error "Missing token" "authentication_error"]
  ∧ sent (snd (ask Fixture.fresh [("token", JStr "wrong")]))
    = [ws_error "Invalid token" "authentication_error"]
  ∧ sent (snd (ask Fixture.busy [("token", JStr "tok-alice")]))
    = [ws_error "Rate limit exceeded" "rate_limit_error"]
  ∧ ask Fixture.fresh [("token", JStr "tok-alice")]
    = (Ok (), {| sent := [ws_error "Missing model" "validation_error"];
                 manager := Auth.tracker_set Fixture.fresh "tok-alice"
                              [101%Q] |}).
Proof.
  intros ask. split; [|split; [|split]].
  - unfold ask.
    rewrite (proj1 (ws_refusal_order Fixture.router "chatcmpl-1" 101 []
                      {| sent := []; manager := Fixture.fresh |}) eq_refl).
    reflexivity.
  - unfold ask.
    rewrite (proj1 (proj2 (ws_refusal_order Fixture.router "chatcmpl-1" 101
                             [("token", JStr "wrong")]
                             {| sent := []; manager := Fixture.fresh |})
                      "wrong" eq_refl ltac:(discriminate)) eq_refl).
    reflexivity.
  - unfold ask.
    rewrite (proj1 (proj2 (proj2 (ws_refusal_order Fixture.router
                             "chatcmpl-1" 101 [("token", JStr "tok-alice")]
                             {| sent := []; manager := Fixture.busy |})
                      "tok-alice" eq_refl ltac:(discriminate))
                      Fixture.alice eq_refl) eq_refl).
    reflexivity.
  - unfold ask.
    rewrite (proj2 (proj2 (proj2 (ws_refusal_order Fixture.router
                             "chatcmpl-1" 101 [("token", JStr "tok-alice")]
                             {| sent := []; manager := Fixture.fresh |})
                      "tok-alice" eq_refl ltac:(discriminate))
                      Fixture.alice eq_refl) eq_refl eq_refl).
    reflexivity.
Defined.

(** Alice asks for [llama3] on the WebSocket: two chunks and the closing
    chunk. *)
Lemma ws_relay_shape_witness :
  let chunk := ws_chunk "chatcmpl-1" 101 (JStr "llama3") in
  sent (snd (ws_message Fixture.router "chatcmpl-1" 101
               (JObj [("token", JStr "tok-alice"); ("model", JStr "llama3")])
               {| sent := []; manager := Fixture.fresh |}))
  = [chunk [("content", JStr "Hello")] JNull;
     chunk [("content", JStr " world")] JNull;
     chunk [] (JStr "stop")].
Proof.
  intros chunk.
  rewrite (ws_relay_shape Fixture.router "chatcmpl-1" 101
             [("token", JStr "tok-alice"); ("model", JStr "llama3")]
             "tok-alice" "llama3" {| sent := []; manager := Fixture.fresh |}
             Fixture.alice (Router.OllamaProvider "http://localhost:11434")
             [] []);
    [reflexivity | reflexivity | discriminate | reflexivity | reflexivity
    | reflexivity | discriminate | apply list_elem_of_here | reflexivity
    | reflexivity | reflexivity].
Defined.

End BridgeExamples.

Section MetricsExamples.
Import Metrics.

(** The sample collector holds the requests of [t = 2] and [t = 3]:
    the limit 1 gives the newest one, the limit 0 gives both. *)
Lemma detailed_metrics_limit_witness :
  get_detailed_metrics Samples.collector 1
  = [Samples.metric 3 200 "tok-alic..."]
  ∧ get_detailed_metrics Samples.collector 0
    = [Samples.metric 2 401 "anonymous";
       Samples.metric 3 200 "tok-alic..."].
Proof.
  destruct (detailed_metrics_limit Samples.collector 1) as (Hpos & _ & _).
  destruct (detailed_metrics_limit Samples.collector 0) as (_ & Hzero & _).
  split.
  - rewrite (proj1 (Hpos ltac:(lia))). reflexivity.
  - rewrite (Hzero eq_refl). reflexivity.
Defined.

(** Two tokens with the same first eight characters are counted as one
    user; a three-character token is recorded in full. *)
Lemma mask_collisions_witness :
  mask "tok-alice" = mask "tok-alicia"
  ∧ mask "abc" = "abc...".
Proof.
  split.
  - apply (proj2 (mask_collisions "tok-alice" "tok-alicia")). right.
    split; [discriminate|]. split; [discriminate|reflexivity].
  - apply (proj1 (mask_collisions "abc" "abc")); [discriminate|simpl; lia].
Defined.

End MetricsExamples.
